(** * Animal-health RAG stack: the query front end and its feedback store

  A shallow embedding of the parts of the repository that carry the
  citation, feedback and evaluation contracts:

  - [views/HomeView.vue]: [formatAnswer], [getChunkReference],
    [handleRating] and the chunk anchors of the template;
  - [components/ResultActions.vue] (both revisions): [toggleFavorite],
    [submitFeedback], [loadExistingFeedback], [clearAllFeedback];
  - the Vuex store of [main.js]: its mutations and [submitQuery];
  - [db/add_multiple_ratings.sql] and the [retrieval_evaluations] table.

  Around them it covers the reference links and titles of the chunk
  cards ([isValidUrl], [openReference], [formatChunkReference]), the
  query form of the view, a session with the feedback form, the thread
  button, the component RetrievalMetrics, [composables/useAdmin.js],
  the migration of the chunks to the [document] table with
  [extract_doi_from_filename], and the reports of
  [db/check_citation_errors.sql].

  The answer synthesizer and the feedback endpoints of the API service
  are not among these sources; where a property rests on them they are
  modelled from the specification, in definitions marked as such.

  JavaScript strings are sequences of UTF-16 code units and are modelled
  as [list N]; JSON objects are association lists in key order. *)

From Stdlib Require Import ZArith NArith QArith_base Decimal DecimalNat Ascii String.
From stdpp Require Import base option list gmap.

Open Scope N_scope.

(** ** JavaScript strings *)

Module JS.

Definition jsstring : Type := list N.

(** A source-code literal (ASCII) as code units. *)
Definition lit (s : string) : jsstring :=
  map N_of_ascii (list_ascii_of_string s).
Arguments lit : simpl never.

(** Code unit of the double quote. *)
Definition dquote : N := 34.

(** [\d] of a regular expression without the unicode-sets flag: 0-9. *)
Definition isDigit (c : N) : bool := (48 <=? c) && (c <=? 57).

(** WhiteSpace and LineTerminator code points of ECMAScript, the ones
    [String.prototype.trim] strips. *)
Definition isWhiteSpace (c : N) : bool :=
  (c =? 9) || (c =? 10) || (c =? 11) || (c =? 12) || (c =? 13) ||
  (c =? 32) || (c =? 160) || (c =? 5760) ||
  ((8192 <=? c) && (c <=? 8202)) ||
  (c =? 8232) || (c =? 8233) || (c =? 8239) || (c =? 8287) ||
  (c =? 12288) || (c =? 65279).

Fixpoint trimStart (s : jsstring) : jsstring :=
  match s with
  | c :: s' => if isWhiteSpace c then trimStart s' else s
  | [] => []
  end.

Definition trimEnd (s : jsstring) : jsstring :=
  reverse (trimStart (reverse s)).

(** [s.trim()] *)
Definition trim (s : jsstring) : jsstring := trimEnd (trimStart s).

(** Decimal digits of a [Decimal.uint] as code units. *)
Fixpoint uintUnits (u : Decimal.uint) : jsstring :=
  match u with
  | Nil => []
  | D0 u => 48 :: uintUnits u
  | D1 u => 49 :: uintUnits u
  | D2 u => 50 :: uintUnits u
  | D3 u => 51 :: uintUnits u
  | D4 u => 52 :: uintUnits u
  | D5 u => 53 :: uintUnits u
  | D6 u => 54 :: uintUnits u
  | D7 u => 55 :: uintUnits u
  | D8 u => 56 :: uintUnits u
  | D9 u => 57 :: uintUnits u
  end.

(** [String(n)] / template interpolation of a non-negative integer. *)
Definition numberToString (n : nat) : jsstring := uintUnits (Nat.to_uint n).

(** [s.startsWith(p)], returning what follows the prefix. *)
Fixpoint stripPrefix (p s : jsstring) : option jsstring :=
  match p, s with
  | [], _ => Some s
  | a :: p', b :: s' => if a =? b then stripPrefix p' s' else None
  | _ :: _, [] => None
  end.

(** The longest run of digits at the head of [s], and the rest: the
    greedy [\d*]. *)
Fixpoint spanDigits (s : jsstring) : jsstring * jsstring :=
  match s with
  | c :: s' =>
      if isDigit c then
        let '(d, r) := spanDigits s' in (c :: d, r)
      else ([], s)
  | [] => ([], [])
  end.

End JS.

Import JS.

(** ** Requests and responses of [fetch] *)

Module Http.

(** Values of the fields of a request body. *)
Inductive json : Type :=
| JNull
| JBool (b : bool)
| JNum (n : Z)
| JStr (s : jsstring).

(** [JSON.stringify] of an object literal: its keys in source order. *)
Definition body : Type := list (string * json).

(** [obj[k]] on a parsed body; [None] when the key is not there. *)
Fixpoint field (k : string) (b : body) : option json :=
  match b with
  | [] => None
  | (k', v) :: b' => if String.eqb k k' then Some v else field k b'
  end.

Inductive method : Type := GET | POST | DELETE.

(** The URLs the front end fetches.  [ApiFeedbackOf id] is the template
    [/api/feedback/${this.memoryId}], with [None] for a null id. *)
Inductive endpoint : Type :=
| ApiQuery
| ApiFeedback
| ApiFeedbackOf (id : option Z).

Record request : Type := {
  req_method : method;
  req_url : endpoint;
  req_headers : list (string * string);
  req_body : option body
}.

Definition jsonHeaders : list (string * string) :=
  [("Content-Type", "application/json")]%string.

(** [await response.json()]: a value, or a rejection with its message. *)
Inductive parsed (A : Type) : Type :=
| Json (v : A)
| NotJson (message : jsstring).
Arguments Json {A} v.
Arguments NotJson {A} message.

Record response (A : Type) : Type := {
  ok : bool;
  status : Z;
  json_of : parsed A
}.
Arguments ok {A} r.
Arguments status {A} r.
Arguments json_of {A} r.

(** [await fetch(...)]: a response, or a rejection (network failure) with
    the message of the error thrown. *)
Inductive fetched (A : Type) : Type :=
| Resolved (r : response A)
| Rejected (message : jsstring).
Arguments Resolved {A} r.
Arguments Rejected {A} message.

End Http.

Import Http.

(** ** views/HomeView.vue *)

Module HomeView.

(** One match attempt of [/\[chunk(\d+)\]/] anchored at the head of [s]:
    the capture group and the text after the match.  After the greedy
    digit run only [']'] can follow; giving digits back never helps,
    since the unit after a shorter run is a digit. *)
Definition matchCitation (s : jsstring) : option (jsstring * jsstring) :=
  match stripPrefix (lit "[chunk") s with
  | Some r =>
      match spanDigits r with
      | ((_ :: _) as d, c :: rest) => if c =? 93 then Some (d, rest) else None
      | _ => None
      end
  | None => None
  end.

(** What a global [replace] sees of its subject: units outside any match
    and the matches, left to right, never overlapping. *)
Inductive segment : Type :=
| Plain (c : N)
| Cite (d : jsstring).

Fixpoint scan (fuel : nat) (s : jsstring) : list segment :=
  match fuel with
  | O => []
  | S fuel' =>
      match s with
      | [] => []
      | c :: s' =>
          match matchCitation s with
          | Some (d, rest) => Cite d :: scan fuel' rest
          | None => Plain c :: scan fuel' s'
          end
      end
  end.

(** All matches of the global regular expression in [s]. *)
Definition matchAll (s : jsstring) : list segment := scan (length s) s.

(** A replacement pattern: literal text and [$1]. *)
Inductive piece : Type :=
| Text (t : jsstring)
| Group1.

Definition expand (tpl : list piece) (d : jsstring) : jsstring :=
  concat (map (fun p => match p with Text t => t | Group1 => d end) tpl).

(** The second argument of [replace] in [formatAnswer]. *)
Definition citationTemplate : list piece :=
  [ Text (lit "<a href=" ++ [dquote] ++ lit "#chunk-"); Group1;
    Text ([dquote] ++ lit " class=" ++ [dquote] ++ lit "chunk-citation-link"
          ++ [dquote] ++ lit " onclick=" ++ [dquote]
          ++ lit "document.getElementById('chunk-"); Group1;
    Text (lit "').scrollIntoView({behavior: 'smooth'}); return false;"
          ++ [dquote] ++ lit ">[chunk"); Group1;
    Text (lit "]</a>") ].

Definition citationLink (d : jsstring) : jsstring := expand citationTemplate d.

Definition render (g : segment) : jsstring :=
  match g with
  | Plain c => [c]
  | Cite d => citationLink d
  end.

(** [html.replace(/\[chunk(\d+)\]/g, template)] *)
Definition linkCitations (html : jsstring) : jsstring :=
  concat (map render (matchAll html)).

(** [formatAnswer(answer)].  [marked] is the Markdown renderer of the
    [marked] package, an external library. *)
Definition formatAnswer (marked : jsstring -> jsstring) (answer : jsstring)
  : jsstring :=
  linkCitations (marked answer).

(** The capture groups of the matches, in order: the [N] of every link
    [formatAnswer] emits. *)
Definition citations (html : jsstring) : list jsstring :=
  omap (fun g => match g with Cite d => Some d | Plain _ => None end)
       (matchAll html).

Definition citedIndices (marked : jsstring -> jsstring) (answer : jsstring)
  : list jsstring :=
  citations (marked answer).

(** The element id a citation link scrolls to: [chunk-$1]. *)
Definition anchorOf (d : jsstring) : jsstring := lit "chunk-" ++ d.

(** *** The query response and the chunk list *)

Record Chunk : Type := {
  chunk_id : Z;
  chunk_text : jsstring;
  chunk_similarity : Q
}.

Record Entity : Type := {
  entity : jsstring;
  entity_type : jsstring;
  relevance : Q
}.

(** The JSON answer of [POST /api/query].  [references] is an array of
    strings and nulls, or is null or missing ([None]). *)
Record QueryResponse : Type := {
  answer : jsstring;
  memory_id : Z;
  from_memory : bool;
  chunks : list Chunk;
  entities : list Entity;
  references : option (list (option jsstring))
}.

(** The [id] attributes of the chunk cards: [`chunk-${index + 1}`] for
    every [(chunk, index)] of [results.chunks]. *)
Definition chunkAnchors (cs : list Chunk) : list jsstring :=
  imap (fun index _ => lit "chunk-" ++ numberToString (index + 1)) cs.

(** Truthiness of a string-or-null array entry: [undefined], [null] and
    the empty string are falsy. *)
Definition truthyEntry (e : option (option jsstring)) : option jsstring :=
  match e with
  | Some (Some ((_ :: _) as s)) => Some s
  | _ => None
  end.

(** [getChunkReference(index)]; [None] is the [null] it returns. *)
Definition getChunkReference (results : option QueryResponse) (index : nat)
  : option jsstring :=
  match results with
  | Some r =>
      match references r with
      | Some refs => truthyEntry (refs !! index)
      | None => None
      end
  | None => None
  end.

(** What the title of a chunk card shows: the reference link when
    [getChunkReference(index)] is truthy, else the words of the
    [v-else] branch. *)
Inductive chunkTitle : Type :=
| ReferenceLink (reference : jsstring)
| DocumentExcerpt.

Definition renderChunkTitle (results : option QueryResponse) (index : nat)
  : chunkTitle :=
  match getChunkReference results index with
  | Some ((_ :: _) as reference) => ReferenceLink reference
  | _ => DocumentExcerpt
  end.

(** The request of [handleRating(rating)], sent when the results carry a
    memory id other than 0 and -1. *)
Definition handleRating (results : option QueryResponse) (rating : Z)
  : option request :=
  match results with
  | Some r =>
      if bool_decide (memory_id r ≠ 0%Z) && bool_decide (memory_id r ≠ (-1)%Z)
      then Some {| req_method := POST; req_url := ApiFeedback;
                   req_headers := jsonHeaders;
                   req_body := Some [("memory_id", JNum (memory_id r));
                                     ("rating", JNum rating)]%string |}
      else None
  | None => None
  end.

(** A context of two chunks, for the examples. *)
Definition twoChunks : list Chunk :=
  [ {| chunk_id := 41; chunk_text := lit "Rift Valley fever is a zoonosis.";
       chunk_similarity := 9 # 10 |};
    {| chunk_id := 17; chunk_text := lit "Vaccinate before the rains.";
       chunk_similarity := 8 # 10 |} ].

(** What [marked] returns for one line of plain text, without Markdown
    markup in it: the paragraph around the line.  It stands for the
    renderer where an example needs one. *)
Definition paragraph (line : jsstring) : jsstring :=
  lit "<p>" ++ line ++ lit "</p>" ++ [10].

(** [results.references[index]] read as an array entry: [None] when
    there are no results, no array or no such entry, [Some None] for a
    null entry. *)
Definition referenceEntry (results : option QueryResponse) (index : nat)
  : option (option jsstring) :=
  r ← results; refs ← references r; refs !! index.

(** *** The citation markup contract, in the words of the specification *)

(** The token [[chunkN]]. *)
Definition citationToken (d : jsstring) : jsstring :=
  lit "[chunk" ++ d ++ lit "]".

(** [N] is a string of decimal digits, at least one. *)
Definition decimalDigits (d : jsstring) : Prop :=
  d ≠ [] ∧ Forall (fun c => isDigit c = true) d.

(** A citation token starts [s]. *)
Definition tokenAtHead (s : jsstring) : Prop :=
  ∃ d rest, decimalDigits d ∧ s = citationToken d ++ rest.

(** A citation token occurs somewhere in [s]. *)
Definition tokenIn (s : jsstring) : Prop :=
  ∃ pre rest, tokenAtHead rest ∧ s = pre ++ rest.


(** [html] is a link to the anchor [#id] around [text]: an [a] element
    whose first attribute is [href], with the value [#id], and whose
    content is [text].  [>] is 62. *)
Definition linkTo (id text html : jsstring) : Prop :=
  ∃ attrs, (62 ∉ attrs) ∧
    html = lit "<a href=" ++ [dquote] ++ lit "#" ++ id ++ [dquote] ++ attrs
           ++ lit ">" ++ text ++ lit "</a>".

(** A click on [html] scrolls to the element whose id is [id] and
    follows no link: its [onclick] is
    [document.getElementById('id').scrollIntoView(...); return false;]. *)
Definition scrollsTo (id html : jsstring) : Prop :=
  ∃ before options after, (dquote ∉ options) ∧
    html = before ++ lit " onclick=" ++ [dquote]
           ++ lit "document.getElementById('" ++ id
           ++ lit "').scrollIntoView(" ++ options ++ lit "); return false;"
           ++ [dquote] ++ after.

(** [html] is the link of the citation [[chunkN]]: a link to the anchor
    [#chunk-N] that shows the token and scrolls to the element
    [chunk-N]. *)
Definition linksChunk (d html : jsstring) : Prop :=
  linkTo (lit "chunk-" ++ d) (citationToken d) html ∧
  scrollsTo (lit "chunk-" ++ d) html.

(** [out] is [s] with exactly its citation tokens rewritten, each into a
    link of its citation, and every other unit kept; [ds] are the [N] of
    the tokens rewritten, in order. *)
Inductive Rewritten : jsstring -> list jsstring -> jsstring -> Prop :=
| rewritten_nil : Rewritten [] [] []
| rewritten_token d s ds link out :
    decimalDigits d -> linksChunk d link -> Rewritten s ds out ->
    Rewritten (citationToken d ++ s) (d :: ds) (link ++ out)
| rewritten_plain c s ds out :
    ¬ tokenAtHead (c :: s) -> Rewritten s ds out ->
    Rewritten (c :: s) ds (c :: out).

(** A renderer that passes the text [answer] through: what it returns
    is the text between markup that holds no bracket a token could
    start or end with, as [paragraph] is.  [[] is 91 and []] is 93. *)
Definition passesThrough (marked : jsstring -> jsstring) (answer : jsstring)
  : Prop :=
  ∃ pre post, marked answer = pre ++ answer ++ post ∧ (91 ∉ pre) ∧ (93 ∉ post).

End HomeView.

Import HomeView.

(** ** The answer synthesizer *)

Module Synthesizer.

(** Modelled from the spec: the answer object of [synthesize],
    [Answer{text, usedCitations}], with the "low confidence" flag of
    the fallback (section 4.5; the synthesizer is missing from the
    sources at hand). *)
Record Answer : Type := {
  text : jsstring;
  usedCitations : list jsstring;
  lowConfidence : bool
}.

(** Modelled from the spec: the citation indices of a context of [n]
    chunks, 1 to [n] in the final chunk order (section 4.4), each as the
    [N] of its token. *)
Definition indices (n : nat) : list jsstring := numberToString <$> seq 1 n.

(** Modelled from the spec: the citation [[chunkN]] references an index
    present in the context. *)
Definition inContext (n : nat) (d : jsstring) : bool :=
  bool_decide (d ∈ indices n).

(** Modelled from the spec: no citation of [s] is outside the range of
    the context. *)
Definition withinContext (n : nat) (s : jsstring) : bool :=
  forallb (inContext n) (citations s).

(** Modelled from the spec: what is left of a stretch of the text when
    the citations outside the range are stripped. *)
Definition keep (n : nat) (g : segment) : jsstring :=
  match g with
  | Plain c => [c]
  | Cite d => if inContext n d then citationToken d else []
  end.

(** Modelled from the spec: one pass that strips the citations outside
    the range. *)
Definition stripOnce (n : nat) (s : jsstring) : jsstring :=
  concat (keep n <$> matchAll s).

(** Modelled from the spec: the passes repeated until no citation is
    outside the range, since a pass can bring the two halves of another
    token together. *)
Fixpoint stripFrom (fuel n : nat) (s : jsstring) : jsstring :=
  match fuel with
  | O => s
  | S fuel' =>
      if withinContext n s then s else stripFrom fuel' n (stripOnce n s)
  end.

(** Modelled from the spec: the text with every citation outside the
    range stripped.  Each pass that finds one shortens the text, so as
    many passes as the text has units are enough. *)
Definition strip (n : nat) (s : jsstring) : jsstring :=
  stripFrom (length s) n s.

(** Modelled from the spec: the uncited answer of the fallback. *)
Definition uncited (s : jsstring) : jsstring := strip 0 s.

(** Modelled from the spec: the two ways section 4.5 allows of dealing
    with a contract violation, stripping the citation, or retrying once
    with a corrective instruction and then falling back to an uncited
    answer. *)
Inductive policy : Type := Strip | Retry.

(** Modelled from the spec: the answer object of a text. *)
Definition answerOf (s : jsstring) (low : bool) : Answer :=
  {| text := s; usedCitations := citations s; lowConfidence := low |}.

(** Modelled from the spec: [synthesize(query, orderedContext)].
    [complete corrective query orderedContext] is the generative step,
    the call of the language model, with or without the corrective
    instruction; nothing is assumed of what it returns. *)
Definition synthesize (complete : bool -> jsstring -> list Chunk -> jsstring)
  (p : policy) (query : jsstring) (orderedContext : list Chunk) : Answer :=
  let n := length orderedContext in
  let raw := complete false query orderedContext in
  if withinContext n raw then answerOf raw false
  else
    match p with
    | Strip => answerOf (strip n raw) false
    | Retry =>
        let again := complete true query orderedContext in
        if withinContext n again then answerOf again false
        else answerOf (uncited again) true
    end.

(** A generative step that cites a ninth chunk whatever the context is,
    and, asked again, hides the same citation inside another. *)
Definition stubborn (corrective : bool) (query : jsstring) (cs : list Chunk)
  : jsstring :=
  if corrective then lit "See [chu[chunk7]nk9] and [chunk2]."
  else lit "See [chunk9] and [chunk1].".

End Synthesizer.

(** ** main.js: the Vuex store *)

Module Store.

Section WithData.

(** The type of the parsed body of [/api/query]. *)
Context {Data : Type}.

Record State : Type := {
  query : jsstring;
  results : option Data;
  loading : bool;
  error : option jsstring;
  showIngestionProgress : bool
}.

(** [state()] *)
Definition initial : State :=
  {| query := []; results := None; loading := false; error := None;
     showIngestionProgress := true |}.

Inductive mutation : Type :=
| setQuery (q : jsstring)
| setResults (r : option Data)
| setLoading (l : bool)
| setError (e : option jsstring)
| setShowIngestionProgress (v : bool).

(** [commit(name, payload)] *)
Definition commit (m : mutation) (s : State) : State :=
  match m with
  | setQuery q =>
      {| query := q; results := results s; loading := loading s;
         error := error s; showIngestionProgress := showIngestionProgress s |}
  | setResults r =>
      {| query := query s; results := r; loading := loading s;
         error := error s; showIngestionProgress := showIngestionProgress s |}
  | setLoading l =>
      {| query := query s; results := results s; loading := l;
         error := error s; showIngestionProgress := showIngestionProgress s |}
  | setError e =>
      {| query := query s; results := results s; loading := loading s;
         error := e; showIngestionProgress := showIngestionProgress s |}
  | setShowIngestionProgress v =>
      {| query := query s; results := results s; loading := loading s;
         error := error s; showIngestionProgress := v |}
  end.

(** The request [submitQuery] builds. *)
Definition queryRequest (q : jsstring) : request :=
  {| req_method := POST; req_url := ApiQuery; req_headers := jsonHeaders;
     req_body := Some [("query", JStr q); ("max_results", JNum 5);
                       ("use_memory", JBool true)]%string |}.

(** The commits of [submitQuery] before it awaits [fetch]. *)
Definition beforeFetch (q : jsstring) (s : State) : State :=
  commit (setQuery q) (commit (setError None) (commit (setLoading true) s)).

(** [`API error: ${response.status}`] for a status that is a non-negative
    integer. *)
Definition apiError (st : Z) : jsstring :=
  lit "API error: " ++ numberToString (Z.to_nat st).

(** The rest of the [try] block, its [catch] and its [finally]. *)
Definition afterFetch (r : fetched Data) (s : State) : State :=
  let s' :=
    match r with
    | Resolved resp =>
        if ok resp then
          match json_of resp with
          | Json data => commit (setResults (Some data)) s
          | NotJson message => commit (setError (Some message)) s
          end
        else commit (setError (Some (apiError (status resp)))) s
    | Rejected message => commit (setError (Some message)) s
    end in
  commit (setLoading false) s'.

(** The action [submitQuery({ commit }, query)].  [fetch] is the network:
    it is handed the request and answers or fails. *)
Definition submitQuery (fetch : request -> fetched Data) (q : jsstring)
  (s : State) : State :=
  let s1 := beforeFetch q s in
  afterFetch (fetch (queryRequest q)) s1.

End WithData.

Arguments State Data : clear implicits.
Arguments mutation Data : clear implicits.

End Store.

Import Store.

(** ** The feedback record *)

Module Feedback.

(** Modelled from the spec: the columns of a [user_feedback] row next to
    its [memory_id].  The three categorical ratings are the columns the
    migration adds and [updated_at] is the column its trigger sets; the
    others are the attributes of Feedback in section 3, the CREATE of
    the base table not being among the sources.  It is also the object
    under [feedback] in the answer of [GET /api/feedback/{id}]. *)
Record row : Type := {
  rating : option Z;
  accuracy_rating : option Z;
  comprehensiveness_rating : option Z;
  helpfulness_rating : option Z;
  feedback_text : option jsstring;
  is_favorite : bool;
  updated_at : Z
}.

(** The answer of [GET /api/feedback/{id}]: [{status, feedback}]. *)
Record envelope : Type := {
  env_status : jsstring;
  env_feedback : option row
}.

End Feedback.

Import Feedback.

(** ** The component ResultActions in its revision with the three
       categorical ratings *)

Module ResultActionsRatings.

Record Props : Type := {
  memoryId : option Z;
  fromMemory : bool;
  initialFavorite : bool;
  hasThread : bool
}.

Record Data : Type := {
  showFeedback : bool;
  rating : Z;
  accuracyRating : Z;
  comprehensivenessRating : Z;
  helpfulnessRating : Z;
  feedbackText : jsstring;
  isFavorite : bool;
  isSubmitting : bool;
  existingFeedback : option Feedback.row
}.

(** [data()] *)
Definition data (p : Props) : Data :=
  {| showFeedback := false; rating := 0; accuracyRating := 0;
     comprehensivenessRating := 0; helpfulnessRating := 0;
     feedbackText := []; isFavorite := initialFavorite p;
     isSubmitting := false; existingFeedback := None |}.

(** What a method does besides changing the data and fetching. *)
Inductive effect : Type :=
| Emit (event : string)
| EmitFavorite (value : bool)
| Alert (message : string)
| ConsoleError (message : string).

Definition set_isSubmitting (b : bool) (d : Data) : Data :=
  {| showFeedback := showFeedback d; rating := rating d;
     accuracyRating := accuracyRating d;
     comprehensivenessRating := comprehensivenessRating d;
     helpfulnessRating := helpfulnessRating d;
     feedbackText := feedbackText d; isFavorite := isFavorite d;
     isSubmitting := b; existingFeedback := existingFeedback d |}.

Definition set_isFavorite (b : bool) (d : Data) : Data :=
  {| showFeedback := showFeedback d; rating := rating d;
     accuracyRating := accuracyRating d;
     comprehensivenessRating := comprehensivenessRating d;
     helpfulnessRating := helpfulnessRating d;
     feedbackText := feedbackText d; isFavorite := b;
     isSubmitting := isSubmitting d; existingFeedback := existingFeedback d |}.

Definition set_showFeedback (b : bool) (d : Data) : Data :=
  {| showFeedback := b; rating := rating d;
     accuracyRating := accuracyRating d;
     comprehensivenessRating := comprehensivenessRating d;
     helpfulnessRating := helpfulnessRating d;
     feedbackText := feedbackText d; isFavorite := isFavorite d;
     isSubmitting := isSubmitting d; existingFeedback := existingFeedback d |}.

(** [x > 0 ? x : null] *)
Definition positiveOrNull (x : Z) : json :=
  if (0 <? x)%Z then JNum x else JNull.

(** [this.feedbackText.trim() || null] *)
Definition trimmedOrNull (t : jsstring) : json :=
  match trim t with
  | [] => JNull
  | s => JStr s
  end.

(** [this.memoryId] in a body: a number or null. *)
Definition idJson (id : option Z) : json :=
  match id with
  | Some n => JNum n
  | None => JNull
  end.

(** [x || 0] on a number or null. *)
Definition orZero (x : option Z) : Z := default 0%Z x.

(** [x || ''] on a string or null. *)
Definition orEmpty (x : option jsstring) : jsstring := default [] x.

Definition post (b : body) : request :=
  {| req_method := POST; req_url := ApiFeedback; req_headers := jsonHeaders;
     req_body := Some b |}.

(** The body [toggleFavorite] posts. *)
Definition favoriteBody (p : Props) (d : Data) : body :=
  [("memory_id", idJson (memoryId p));
   ("is_favorite", JBool (negb (isFavorite d)))]%string.

(** The body [submitFeedback] posts. *)
Definition feedbackBody (p : Props) (d : Data) : body :=
  [("memory_id", idJson (memoryId p));
   ("rating", positiveOrNull (rating d));
   ("accuracy_rating", positiveOrNull (accuracyRating d));
   ("comprehensiveness_rating", positiveOrNull (comprehensivenessRating d));
   ("helpfulness_rating", positiveOrNull (helpfulnessRating d));
   ("feedback_text", trimmedOrNull (feedbackText d));
   ("is_favorite", JBool (isFavorite d))]%string.

(** The condition under which [submitFeedback] alerts and returns. *)
Definition nothingToSubmit (d : Data) : bool :=
  bool_decide (rating d = 0%Z) && bool_decide (accuracyRating d = 0%Z) &&
  bool_decide (comprehensivenessRating d = 0%Z) &&
  bool_decide (helpfulnessRating d = 0%Z) &&
  bool_decide (trim (feedbackText d) = []) && negb (isFavorite d).

(** [!this.memoryId]: null and 0 are falsy. *)
Definition noMemoryId (p : Props) : bool :=
  match memoryId p with
  | Some n => bool_decide (n = 0%Z)
  | None => true
  end.

(** The assignments of [loadExistingFeedback] once [data.status] is
    ['success']. *)
Definition loaded (fb : Feedback.row) (d : Data) : Data :=
  {| showFeedback := showFeedback d;
     rating := orZero (Feedback.rating fb);
     accuracyRating := orZero (accuracy_rating fb);
     comprehensivenessRating := orZero (comprehensiveness_rating fb);
     helpfulnessRating := orZero (helpfulness_rating fb);
     feedbackText := orEmpty (feedback_text fb);
     isFavorite := isFavorite d; isSubmitting := isSubmitting d;
     existingFeedback := Some fb |}.

(** [this.existingFeedback = data.feedback] with a null [feedback]; the
    next statement then throws and the [catch] logs. *)
Definition loadedNull (d : Data) : Data :=
  {| showFeedback := showFeedback d; rating := rating d;
     accuracyRating := accuracyRating d;
     comprehensivenessRating := comprehensivenessRating d;
     helpfulnessRating := helpfulnessRating d;
     feedbackText := feedbackText d; isFavorite := isFavorite d;
     isSubmitting := isSubmitting d; existingFeedback := None |}.

(** The assignments of [clearAllFeedback] after a successful DELETE. *)
Definition cleared (d : Data) : Data :=
  {| showFeedback := false; rating := 0; accuracyRating := 0;
     comprehensivenessRating := 0; helpfulnessRating := 0;
     feedbackText := []; isFavorite := false;
     isSubmitting := isSubmitting d; existingFeedback := None |}.

Section Methods.

(** The world the requests go to, and [fetch] on it. *)
Context {W : Type}.
Variable fetch : request -> W -> fetched Feedback.envelope * W.

(** [async toggleFavorite()] *)
Definition toggleFavorite (p : Props) (d : Data) (w : W)
  : Data * W * list effect :=
  let d1 := set_isSubmitting true d in
  let '(r, w1) := fetch (post (favoriteBody p d1)) w in
  let '(d2, out) :=
    match r with
    | Resolved resp =>
        if ok resp then
          let d' := set_isFavorite (negb (isFavorite d1)) d1 in
          (d', [EmitFavorite (isFavorite d')])
        else (d1, [ConsoleError "Failed to update favorite status"])
    | Rejected _ => (d1, [ConsoleError "Error updating favorite:"])
    end in
  (set_isSubmitting false d2, w1, out).

(** [async loadExistingFeedback()] *)
Definition loadExistingFeedback (p : Props) (d : Data) (w : W)
  : Data * W * list effect :=
  if noMemoryId p then (d, w, [])
  else
    let '(r, w1) :=
      fetch {| req_method := GET; req_url := ApiFeedbackOf (memoryId p);
               req_headers := []; req_body := None |} w in
    match r with
    | Resolved resp =>
        if ok resp then
          match json_of resp with
          | Json env =>
              if bool_decide (env_status env = lit "success") then
                match env_feedback env with
                | Some fb => (loaded fb d, w1, [])
                | None =>
                    (loadedNull d, w1,
                     [ConsoleError "Error loading existing feedback:"])
                end
              else (d, w1, [])
          | NotJson _ =>
              (d, w1, [ConsoleError "Error loading existing feedback:"])
          end
        else (d, w1, [])
    | Rejected _ => (d, w1, [ConsoleError "Error loading existing feedback:"])
    end.

(** [async submitFeedback()] *)
Definition submitFeedback (p : Props) (d : Data) (w : W)
  : Data * W * list effect :=
  if nothingToSubmit d then
    (d, w,
     [Alert "Please provide at least one rating, comment, or mark as favorite"])
  else
    let d1 := set_isSubmitting true d in
    let '(r, w1) := fetch (post (feedbackBody p d1)) w in
    let '(d2, w2, out) :=
      match r with
      | Resolved resp =>
          if ok resp then
            let '(d', w', out') :=
              loadExistingFeedback p (set_showFeedback false d1) w1 in
            (d', w', out' ++ [Emit "feedback-submitted"])
          else
            (d1, w1, [ConsoleError "Failed to submit feedback";
                      Alert "Failed to submit feedback. Please try again."])
      | Rejected _ =>
          (d1, w1, [ConsoleError "Error submitting feedback:";
                    Alert "Failed to submit feedback. Please try again."])
      end in
    (set_isSubmitting false d2, w2, out).

(** [async clearAllFeedback()]; [confirmed] is the answer to [confirm]. *)
Definition clearAllFeedback (confirmed : bool) (p : Props) (d : Data) (w : W)
  : Data * W * list effect :=
  if negb confirmed then (d, w, [])
  else
    let d1 := set_isSubmitting true d in
    let '(r, w1) :=
      fetch {| req_method := DELETE; req_url := ApiFeedbackOf (memoryId p);
               req_headers := []; req_body := None |} w in
    let '(d2, out) :=
      match r with
      | Resolved resp =>
          if ok resp then (cleared d1, [Emit "feedback-cleared"])
          else
            (d1, [ConsoleError "Failed to clear feedback";
                  Alert "Failed to clear feedback. Please try again."])
      | Rejected _ =>
          (d1, [ConsoleError "Error clearing feedback:";
                Alert "Failed to clear feedback. Please try again."])
      end in
    (set_isSubmitting false d2, w1, out).

End Methods.

End ResultActionsRatings.

(** ** components/ResultActions.vue: the revision with the single rating *)

Module ResultActions.

Import ResultActionsRatings(Props, memoryId, fromMemory, initialFavorite,
  hasThread, effect, Emit, EmitFavorite, Alert, ConsoleError, positiveOrNull,
  trimmedOrNull, idJson, orZero, orEmpty, post, noMemoryId).

Record Data : Type := {
  showFeedback : bool;
  rating : Z;
  feedbackText : jsstring;
  isFavorite : bool;
  isSubmitting : bool;
  existingFeedback : option Feedback.row
}.

(** [data()] *)
Definition data (p : Props) : Data :=
  {| showFeedback := false; rating := 0; feedbackText := [];
     isFavorite := initialFavorite p; isSubmitting := false;
     existingFeedback := None |}.

Definition set_isSubmitting (b : bool) (d : Data) : Data :=
  {| showFeedback := showFeedback d; rating := rating d;
     feedbackText := feedbackText d; isFavorite := isFavorite d;
     isSubmitting := b; existingFeedback := existingFeedback d |}.

Definition set_isFavorite (b : bool) (d : Data) : Data :=
  {| showFeedback := showFeedback d; rating := rating d;
     feedbackText := feedbackText d; isFavorite := b;
     isSubmitting := isSubmitting d; existingFeedback := existingFeedback d |}.

Definition set_showFeedback (b : bool) (d : Data) : Data :=
  {| showFeedback := b; rating := rating d;
     feedbackText := feedbackText d; isFavorite := isFavorite d;
     isSubmitting := isSubmitting d; existingFeedback := existingFeedback d |}.

(** The body [toggleFavorite] posts. *)
Definition favoriteBody (p : Props) (d : Data) : body :=
  [("memory_id", idJson (memoryId p));
   ("is_favorite", JBool (negb (isFavorite d)))]%string.

(** The body [submitFeedback] posts. *)
Definition feedbackBody (p : Props) (d : Data) : body :=
  [("memory_id", idJson (memoryId p));
   ("rating", positiveOrNull (rating d));
   ("feedback_text", trimmedOrNull (feedbackText d));
   ("is_favorite", JBool (isFavorite d))]%string.

(** The condition under which [submitFeedback] alerts and returns. *)
Definition nothingToSubmit (d : Data) : bool :=
  bool_decide (rating d = 0%Z) && bool_decide (trim (feedbackText d) = []) &&
  negb (isFavorite d).

Definition loaded (fb : Feedback.row) (d : Data) : Data :=
  {| showFeedback := showFeedback d;
     rating := orZero (Feedback.rating fb);
     feedbackText := orEmpty (feedback_text fb);
     isFavorite := isFavorite d; isSubmitting := isSubmitting d;
     existingFeedback := Some fb |}.

Definition loadedNull (d : Data) : Data :=
  {| showFeedback := showFeedback d; rating := rating d;
     feedbackText := feedbackText d; isFavorite := isFavorite d;
     isSubmitting := isSubmitting d; existingFeedback := None |}.

Definition cleared (d : Data) : Data :=
  {| showFeedback := false; rating := 0; feedbackText := [];
     isFavorite := false; isSubmitting := isSubmitting d;
     existingFeedback := None |}.

Section Methods.

Context {W : Type}.
Variable fetch : request -> W -> fetched Feedback.envelope * W.

(** [async toggleFavorite()] *)
Definition toggleFavorite (p : Props) (d : Data) (w : W)
  : Data * W * list effect :=
  let d1 := set_isSubmitting true d in
  let '(r, w1) := fetch (post (favoriteBody p d1)) w in
  let '(d2, out) :=
    match r with
    | Resolved resp =>
        if ok resp then
          let d' := set_isFavorite (negb (isFavorite d1)) d1 in
          (d', [EmitFavorite (isFavorite d')])
        else (d1, [ConsoleError "Failed to update favorite status"])
    | Rejected _ => (d1, [ConsoleError "Error updating favorite:"])
    end in
  (set_isSubmitting false d2, w1, out).

(** [async loadExistingFeedback()] *)
Definition loadExistingFeedback (p : Props) (d : Data) (w : W)
  : Data * W * list effect :=
  if noMemoryId p then (d, w, [])
  else
    let '(r, w1) :=
      fetch {| req_method := GET; req_url := ApiFeedbackOf (memoryId p);
               req_headers := []; req_body := None |} w in
    match r with
    | Resolved resp =>
        if ok resp then
          match json_of resp with
          | Json env =>
              if bool_decide (env_status env = lit "success") then
                match env_feedback env with
                | Some fb => (loaded fb d, w1, [])
                | None =>
                    (loadedNull d, w1,
                     [ConsoleError "Error loading existing feedback:"])
                end
              else (d, w1, [])
          | NotJson _ =>
              (d, w1, [ConsoleError "Error loading existing feedback:"])
          end
        else (d, w1, [])
    | Rejected _ => (d, w1, [ConsoleError "Error loading existing feedback:"])
    end.

(** [async submitFeedback()] *)
Definition submitFeedback (p : Props) (d : Data) (w : W)
  : Data * W * list effect :=
  if nothingToSubmit d then
    (d, w,
     [Alert "Please provide at least a rating, comment, or mark as favorite"])
  else
    let d1 := set_isSubmitting true d in
    let '(r, w1) := fetch (post (feedbackBody p d1)) w in
    let '(d2, w2, out) :=
      match r with
      | Resolved resp =>
          if ok resp then
            let '(d', w', out') :=
              loadExistingFeedback p (set_showFeedback false d1) w1 in
            (d', w', out' ++ [Emit "feedback-submitted"])
          else
            (d1, w1, [ConsoleError "Failed to submit feedback";
                      Alert "Failed to submit feedback. Please try again."])
      | Rejected _ =>
          (d1, w1, [ConsoleError "Error submitting feedback:";
                    Alert "Failed to submit feedback. Please try again."])
      end in
    (set_isSubmitting false d2, w2, out).

(** [async clearAllFeedback()]; [confirmed] is the answer to [confirm]. *)
Definition clearAllFeedback (confirmed : bool) (p : Props) (d : Data) (w : W)
  : Data * W * list effect :=
  if negb confirmed then (d, w, [])
  else
    let d1 := set_isSubmitting true d in
    let '(r, w1) :=
      fetch {| req_method := DELETE; req_url := ApiFeedbackOf (memoryId p);
               req_headers := []; req_body := None |} w in
    let '(d2, out) :=
      match r with
      | Resolved resp =>
          if ok resp then (cleared d1, [Emit "feedback-cleared"])
          else
            (d1, [ConsoleError "Failed to clear feedback";
                  Alert "Failed to clear feedback. Please try again."])
      | Rejected _ =>
          (d1, [ConsoleError "Error clearing feedback:";
                Alert "Failed to clear feedback. Please try again."])
      end in
    (set_isSubmitting false d2, w1, out).

End Methods.

End ResultActions.

(** ** db/add_multiple_ratings.sql: the table [user_feedback] *)

Module UserFeedback.

(** The rows by [memory_id], one row per cache entry. *)
Abbreviation table := (gmap Z Feedback.row).

(** [CHECK (x BETWEEN lo AND hi)]: a NULL makes the condition unknown,
    which a CHECK accepts. *)
Definition between (lo hi : Z) (x : option Z) : bool :=
  match x with
  | Some v => (lo <=? v)%Z && (v <=? hi)%Z
  | None => true
  end.

(** The three column constraints the migration adds. *)
Definition checks (r : Feedback.row) : bool :=
  between 1 5 (accuracy_rating r) &&
  between 1 5 (comprehensiveness_rating r) &&
  between 1 5 (helpfulness_rating r).

(** The trigger function: [NEW.updated_at = CURRENT_TIMESTAMP]. *)
Definition update_user_feedback_timestamp (now : Z) (new : Feedback.row)
  : Feedback.row :=
  {| Feedback.rating := Feedback.rating new;
     accuracy_rating := accuracy_rating new;
     comprehensiveness_rating := comprehensiveness_rating new;
     helpfulness_rating := helpfulness_rating new;
     feedback_text := feedback_text new;
     is_favorite := is_favorite new;
     updated_at := now |}.

Inductive result : Type :=
| Done (rows : nat)
| CheckViolation
| UniqueViolation.

(** [INSERT INTO user_feedback ...]: a statement that fails leaves the
    table as it was. *)
Definition insert (mid : Z) (r : Feedback.row) (t : table) : result * table :=
  if checks r then
    match t !! mid with
    | Some _ => (UniqueViolation, t)
    | None => (Done 1, <[mid := r]> t)
    end
  else (CheckViolation, t).

(** [UPDATE user_feedback SET ... WHERE memory_id = mid]: the trigger
    runs before the row is checked and written. *)
Definition update (now : Z) (mid : Z) (set : Feedback.row -> Feedback.row)
  (t : table) : result * table :=
  match t !! mid with
  | Some old =>
      let new := update_user_feedback_timestamp now (set old) in
      if checks new then (Done 1, <[mid := new]> t) else (CheckViolation, t)
  | None => (Done 0, t)
  end.

(** [DELETE FROM user_feedback WHERE memory_id = mid] *)
Definition delete (mid : Z) (t : table) : result * table :=
  match t !! mid with
  | Some _ => (Done 1, base.delete mid t)
  | None => (Done 0, t)
  end.

Inductive statement : Type :=
| Insert (mid : Z) (r : Feedback.row)
| Update (mid : Z) (set : Feedback.row -> Feedback.row)
| Delete (mid : Z).

Definition exec (now : Z) (st : statement) (t : table) : result * table :=
  match st with
  | Insert mid r => insert mid r t
  | Update mid set => update now mid set t
  | Delete mid => delete mid t
  end.

(** The tables some sequence of statements builds from the empty one. *)
Inductive reachable : table -> Prop :=
| reachable_empty : reachable ∅
| reachable_exec now st t : reachable t -> reachable (exec now st t).2.

End UserFeedback.

(** ** The feedback endpoints of the API service *)

Module Api.

Import UserFeedback.

(** Modelled from the spec: the row a first feedback request is merged
    into (the handlers of the API service are missing from the sources
    at hand). *)
Definition blank (now : Z) : Feedback.row :=
  {| Feedback.rating := None; accuracy_rating := None;
     comprehensiveness_rating := None; helpfulness_rating := None;
     feedback_text := None; is_favorite := false; updated_at := now |}.

(** Modelled from the spec: one rating field of a request against its
    stored value.  A field that is absent leaves the stored value
    (section 6) and a number sets it; an explicit null is read as the
    clear operation of section 4.6, which is how the clear buttons of
    the front end send it; anything else is malformed ([None]). *)
Definition mergeNum (k : string) (b : body) (old : option Z)
  : option (option Z) :=
  match field k b with
  | None => Some old
  | Some JNull => Some None
  | Some (JNum n) => Some (Some n)
  | Some _ => None
  end.

(** Modelled from the spec: the comment field, merged in the same way.
    A comment that is blank is no comment (the invariant of Feedback in
    section 3 counts a comment only when there is one). *)
Definition mergeText (k : string) (b : body) (old : option jsstring)
  : option (option jsstring) :=
  match field k b with
  | None => Some old
  | Some JNull => Some None
  | Some (JStr t) => Some (match trim t with [] => None | _ => Some t end)
  | Some _ => None
  end.

(** Modelled from the spec: the favorite flag; clearing it unsets it. *)
Definition mergeBool (k : string) (b : body) (old : bool) : option bool :=
  match field k b with
  | None => Some old
  | Some JNull => Some false
  | Some (JBool v) => Some v
  | Some _ => None
  end.

(** Modelled from the spec: the merge of a request body into the stored
    row ([upsertFeedback] is a merge, section 4.6). *)
Definition merge (b : body) (old : Feedback.row) : option Feedback.row :=
  r ← mergeNum "rating" b (Feedback.rating old);
  a ← mergeNum "accuracy_rating" b (accuracy_rating old);
  c ← mergeNum "comprehensiveness_rating" b (comprehensiveness_rating old);
  h ← mergeNum "helpfulness_rating" b (helpfulness_rating old);
  t ← mergeText "feedback_text" b (feedback_text old);
  f ← mergeBool "is_favorite" b (is_favorite old);
  Some {| Feedback.rating := r; accuracy_rating := a;
          comprehensiveness_rating := c; helpfulness_rating := h;
          feedback_text := t; is_favorite := f;
          updated_at := updated_at old |}.

(** Modelled from the spec: the validation of the legacy rating, 1 to 5
    when set (error (d) of section 7); the three categorical ratings
    are validated by the constraints of the table. *)
Definition valid (r : Feedback.row) : bool :=
  between 1 5 (Feedback.rating r).

(** Modelled from the spec: a record with neither a rating, nor a
    comment, nor the favorite flag (the invariant of Feedback in
    section 3). *)
Definition isEmpty (r : Feedback.row) : bool :=
  bool_decide (Feedback.rating r = None) &&
  bool_decide (accuracy_rating r = None) &&
  bool_decide (comprehensiveness_rating r = None) &&
  bool_decide (helpfulness_rating r = None) &&
  bool_decide (feedback_text r = None) &&
  negb (is_favorite r).

(** Modelled from the spec: the shape of an answer, [{status, feedback}]
    with its HTTP status. *)
Definition respond (ok : bool) (status : Z) (fb : option Feedback.row)
  : response Feedback.envelope :=
  {| ok := ok; status := status;
     json_of := Json {| env_status := if ok then lit "success" else lit "error";
                        env_feedback := fb |} |}.

(** Modelled from the spec: [upsertFeedback(cacheEntryId, fields)].  A
    malformed or out-of-range payload is rejected and nothing is
    written; a merged record with every field cleared is deleted; else
    the row is updated, or inserted when there was none. *)
Definition upsertFeedback (now : Z) (mid : Z) (b : body) (t : table)
  : response Feedback.envelope * table :=
  match merge b (default (blank now) (t !! mid)) with
  | None => (respond false 422 None, t)
  | Some new =>
      if negb (valid new) then (respond false 422 None, t)
      else if isEmpty new then (respond true 200 None, (delete mid t).2)
      else
        let '(res, t') :=
          match t !! mid with
          | Some _ => update now mid (fun _ => new) t
          | None => insert mid new t
          end in
        match res with
        | Done _ => (respond true 200 (t' !! mid), t')
        | _ => (respond false 422 None, t')
        end
  end.

(** Modelled from the spec: [GET /api/feedback/{memory_id}], the record
    or the 404 equivalent when none exists. *)
Definition getFeedback (mid : Z) (t : table) : response Feedback.envelope :=
  match t !! mid with
  | Some r => respond true 200 (Some r)
  | None => respond false 404 None
  end.

(** Modelled from the spec: [clearFeedback(cacheEntryId)], the DELETE. *)
Definition clearFeedback (mid : Z) (t : table)
  : response Feedback.envelope * table :=
  (respond true 200 None, (delete mid t).2).

(** Modelled from the spec: the routes of section 6 that concern
    feedback. *)
Definition handle (now : Z) (rq : request) (t : table)
  : response Feedback.envelope * table :=
  match req_method rq, req_url rq with
  | POST, ApiFeedback =>
      match req_body rq with
      | Some b =>
          match field "memory_id" b with
          | Some (JNum mid) => upsertFeedback now mid b t
          | _ => (respond false 422 None, t)
          end
      | None => (respond false 422 None, t)
      end
  | GET, ApiFeedbackOf (Some mid) => (getFeedback mid t, t)
  | DELETE, ApiFeedbackOf (Some mid) => clearFeedback mid t
  | _, _ => (respond false 404 None, t)
  end.

(** [fetch] against this service over a network that delivers. *)
Definition fetch (now : Z) (rq : request) (t : table)
  : fetched Feedback.envelope * table :=
  let '(r, t') := handle now rq t in (Resolved r, t').

(** The tables the service reaches from the empty one, whatever the
    requests it serves and whoever sends them. *)
Inductive reachable : table -> Prop :=
| reachable_empty : reachable ∅
| reachable_handle now rq t : reachable t -> reachable (handle now rq t).2.

(** The fields of the record of [mid] as a reader sees them; no record
    reads as every field unset. *)
Definition stored (mid : Z) (t : table) : Feedback.row :=
  default (blank 0) (t !! mid).

(** Two rows that agree on everything but the update timestamp. *)
Definition sameFeedback (r1 r2 : Feedback.row) : Prop :=
  Feedback.rating r1 = Feedback.rating r2 ∧
  accuracy_rating r1 = accuracy_rating r2 ∧
  comprehensiveness_rating r1 = comprehensiveness_rating r2 ∧
  helpfulness_rating r1 = helpfulness_rating r2 ∧
  feedback_text r1 = feedback_text r2 ∧
  is_favorite r1 = is_favorite r2.


(** What holds of every record of a table: it is not empty, and its
    comment, when set, does not trim to nothing. *)
Definition kept (t : table) : Prop :=
  ∀ mid r, t !! mid = Some r ->
    isEmpty r = false ∧ ∀ c, feedback_text r = Some c -> trim c ≠ [].

(** A field is absent from a body: its key is not there. *)
Definition absent (k : string) (b : body) : Prop := field k b = None.

(** [upsertFeedback] keeps the stored value of every field that is left
    out of the request, for [leftOut] a reading of "left out". *)
Definition keeps (leftOut : string -> body -> Prop) : Prop :=
  ∀ (now mid : Z) (b : body) (t : table),
    let before := stored mid t in
    let after := stored mid (upsertFeedback now mid b t).2 in
    (leftOut "rating"%string b -> Feedback.rating after = Feedback.rating before) ∧
    (leftOut "accuracy_rating"%string b ->
     accuracy_rating after = accuracy_rating before) ∧
    (leftOut "comprehensiveness_rating"%string b ->
     comprehensiveness_rating after = comprehensiveness_rating before) ∧
    (leftOut "helpfulness_rating"%string b ->
     helpfulness_rating after = helpfulness_rating before) ∧
    (leftOut "feedback_text"%string b -> feedback_text after = feedback_text before) ∧
    (leftOut "is_favorite"%string b -> is_favorite after = is_favorite before).

(** *** Cache entry 7, for the examples *)

Definition entry7 : ResultActionsRatings.Props :=
  {| ResultActionsRatings.memoryId := Some 7%Z;
     ResultActionsRatings.fromMemory := true;
     ResultActionsRatings.initialFavorite := false;
     ResultActionsRatings.hasThread := false |}.

(** [{memory_id: 7, feedback_text: "good"}] *)
Definition commentGood : request :=
  ResultActionsRatings.post
    [("memory_id", JNum 7); ("feedback_text", JStr (lit "good"))]%string.

(** The table after that request. *)
Definition afterComment : table := (handle 1 commentGood ∅).2.

(** The form of a component of entry 7 in which the user picked four
    stars and nothing else. *)
Definition fourStars : ResultActionsRatings.Data :=
  {| ResultActionsRatings.showFeedback := true;
     ResultActionsRatings.rating := 4;
     ResultActionsRatings.accuracyRating := 0;
     ResultActionsRatings.comprehensivenessRating := 0;
     ResultActionsRatings.helpfulnessRating := 0;
     ResultActionsRatings.feedbackText := [];
     ResultActionsRatings.isFavorite := false;
     ResultActionsRatings.isSubmitting := false;
     ResultActionsRatings.existingFeedback := None |}.

End Api.

(** ** The table [retrieval_evaluations] *)

Module RetrievalEvaluations.

Record row : Type := {
  id : Z;
  query_id : option Z;
  chunk_id : option Z;
  relevance_score : Z;
  llm_score : option Q;
  explanation : option jsstring;
  retrieval_method : option jsstring;
  rank_position : option Z;
  created_at : Z
}.

(** The values of an [INSERT]; [None] is NULL or, for [id], the column
    left to its default. *)
Record values : Type := {
  v_id : option Z;
  v_query_id : option Z;
  v_chunk_id : option Z;
  v_relevance_score : option Z;
  v_llm_score : option Q;
  v_explanation : option jsstring;
  v_retrieval_method : option jsstring;
  v_rank_position : option Z
}.

(** The database: the ids of [query_cache] and [document_chunks] the
    foreign keys point to, the rows of the table, in insertion order,
    and the last value of the sequence behind [SERIAL]. *)
Record db : Type := {
  query_cache : gset Z;
  document_chunks : gset Z;
  rows : list row;
  id_seq : Z
}.

Definition empty : db :=
  {| query_cache := ∅; document_chunks := ∅; rows := []; id_seq := 0 |}.

(** [REFERENCES t(id)]: NULL or an id of [t]. *)
Definition references (ids : gset Z) (fk : option Z) : bool :=
  match fk with
  | Some k => bool_decide (k ∈ ids)
  | None => true
  end.

(** [VARCHAR(50)]: at most 50 characters; what exceeds them may only be
    spaces, which are cut. *)
Definition varchar50 (s : option jsstring) : option (option jsstring) :=
  match s with
  | Some t =>
      if forallb (fun c => c =? 32) (drop 50 t) then Some (Some (take 50 t))
      else None
  | None => Some None
  end.

Inductive result : Type :=
| Done
| NotNullViolation
| CheckViolation
| ForeignKeyViolation
| UniqueViolation
| ValueTooLong.

(** [INSERT INTO retrieval_evaluations ... VALUES (...)], the values
    written in the statement.  A method that does not fit [VARCHAR(50)]
    is refused as the values are formed, before the default of [id] is
    taken and whatever the other values are.  From
    there on the sequence advances whenever the default of [id] is
    taken, also when the insert fails on a constraint. *)
Definition insert (now : Z) (v : values) (d : db) : result * db :=
  match varchar50 (v_retrieval_method v) with
  | None => (ValueTooLong, d)
  | Some m =>
      let '(i, seq) :=
        match v_id v with
        | Some i => (i, id_seq d)
        | None => ((id_seq d + 1)%Z, (id_seq d + 1)%Z)
        end in
      let d' := {| query_cache := query_cache d;
                   document_chunks := document_chunks d;
                   rows := rows d; id_seq := seq |} in
      match v_relevance_score v with
      | None => (NotNullViolation, d')
      | Some rel =>
          if negb (bool_decide (rel = 0%Z) || bool_decide (rel = 1%Z))
          then (CheckViolation, d')
          else if bool_decide (i ∈ id <$> rows d)
          then (UniqueViolation, d')
          else if negb (references (query_cache d) (v_query_id v) &&
                        references (document_chunks d) (v_chunk_id v))
          then (ForeignKeyViolation, d')
          else
            (Done,
             {| query_cache := query_cache d;
                document_chunks := document_chunks d;
                rows := rows d ++
                  [{| id := i; query_id := v_query_id v;
                      chunk_id := v_chunk_id v; relevance_score := rel;
                      llm_score := v_llm_score v;
                      explanation := v_explanation v;
                      retrieval_method := m;
                      rank_position := v_rank_position v;
                      created_at := now |}];
                id_seq := seq |})
      end
  end.

(** The other statements that change what the table holds: new cache
    entries and chunks, and their deletion, which cascades. *)
Inductive statement : Type :=
| InsertEvaluation (now : Z) (v : values)
| AddQuery (q : Z)
| AddChunk (c : Z)
| DeleteQuery (q : Z)
| DeleteChunk (c : Z)
| DeleteEvaluation (i : Z).

Definition exec (st : statement) (d : db) : result * db :=
  match st with
  | InsertEvaluation now v => insert now v d
  | AddQuery q =>
      (Done, {| query_cache := {[q]} ∪ query_cache d;
                document_chunks := document_chunks d;
                rows := rows d; id_seq := id_seq d |})
  | AddChunk c =>
      (Done, {| query_cache := query_cache d;
                document_chunks := {[c]} ∪ document_chunks d;
                rows := rows d; id_seq := id_seq d |})
  | DeleteQuery q =>
      (Done, {| query_cache := query_cache d ∖ {[q]};
                document_chunks := document_chunks d;
                rows := filter (fun r => query_id r ≠ Some q) (rows d);
                id_seq := id_seq d |})
  | DeleteChunk c =>
      (Done, {| query_cache := query_cache d;
                document_chunks := document_chunks d ∖ {[c]};
                rows := filter (fun r => chunk_id r ≠ Some c) (rows d);
                id_seq := id_seq d |})
  | DeleteEvaluation i =>
      (Done, {| query_cache := query_cache d;
                document_chunks := document_chunks d;
                rows := filter (fun r => id r ≠ i) (rows d);
                id_seq := id_seq d |})
  end.

Inductive reachable : db -> Prop :=
| reachable_empty : reachable empty
| reachable_exec st d : reachable d -> reachable (exec st d).2.

(** Rank position unique per (query, method): two rows at different
    places of the table that agree on the query and on the method
    differ in their rank position. *)
Definition rankUnique (d : db) : Prop :=
  ∀ (i j : nat) (r1 r2 : row),
    rows d !! i = Some r1 -> rows d !! j = Some r2 -> i ≠ j ->
    query_id r1 = query_id r2 ->
    retrieval_method r1 = retrieval_method r2 ->
    rank_position r1 ≠ rank_position r2.

(** The statements of a script, run in order. *)
Definition run (script : list statement) (d : db) : db :=
  foldl (fun d st => (exec st d).2) d script.

(** Two rows at different places of the table differ in their [id]. *)
Definition idUnique (d : db) : Prop :=
  ∀ (i j : nat) (r1 r2 : row),
    rows d !! i = Some r1 -> rows d !! j = Some r2 -> i ≠ j -> id r1 ≠ id r2.

(** What the primary key and the check of the relevance score keep. *)
Definition wellKeyed (d : db) : Prop :=
  NoDup (id <$> rows d) ∧
  Forall (fun r => relevance_score r = 0%Z ∨ relevance_score r = 1%Z) (rows d).

(** The judgment of one evaluation run for one chunk: query 1, chunk 1,
    relevant, retrieved by the vector method at rank 1. *)
Definition judgment : values :=
  {| v_id := None; v_query_id := Some 1%Z; v_chunk_id := Some 1%Z;
     v_relevance_score := Some 1%Z; v_llm_score := None;
     v_explanation := None; v_retrieval_method := Some (lit "vector");
     v_rank_position := Some 1%Z |}.

(** Two evaluation runs over the same cache entry. *)
Definition twoRuns : list statement :=
  [AddQuery 1; AddChunk 1; InsertEvaluation 100 judgment;
   InsertEvaluation 200 judgment].

End RetrievalEvaluations.

(** ** db/migrate_existing_chunks.sql: [extract_doi_from_filename] *)

Module Migration.

(** SQL text, a sequence of characters.  The classes [\d] of the
    patterns below are read as the digits 0 to 9. *)
Definition text : Type := list N.

(** [regexp_replace(s, '\.[^.]*$', '')]: the leftmost place where a dot
    is followed by no other dot up to the end of the text.  The match
    runs to the end, so what is left is what stands before it. *)
Fixpoint removeExtension (s : text) : text :=
  match s with
  | [] => []
  | c :: s' =>
      if (c =? 46) && forallb (fun x => negb (x =? 46)) s' then []
      else c :: removeExtension s'
  end.

(** [regexp_replace(s, '^.*/', '')]: from the start, the longest run
    that ends in a slash, that is, up to the last slash. *)
Fixpoint removePath (s : text) : text :=
  match s with
  | [] => []
  | c :: s' => if existsb (fun x => x =? 47) s then removePath s' else s
  end.

(** [s ~ '^10\.\d+'] *)
Definition startsLikeDoi (s : text) : bool :=
  match stripPrefix (lit "10.") s with
  | Some r => match (spanDigits r).1 with [] => false | _ :: _ => true end
  | None => false
  end.

(** [position('-' in s) > 0] *)
Definition hasHyphen (s : text) : bool := existsb (fun x => x =? 45) s.

(** [regexp_replace(s, '-', '/', '')]: the first hyphen becomes a
    slash. *)
Fixpoint replaceFirstHyphen (s : text) : text :=
  match s with
  | [] => []
  | c :: s' => if c =? 45 then 47 :: s' else c :: replaceFirstHyphen s'
  end.

(** [s ~ '^10\.\d{4,}/']: the digits after ["10."] are at least four
    and a slash follows them. *)
Definition doiPrefix (s : text) : bool :=
  match stripPrefix (lit "10.") s with
  | Some r =>
      let '(d, rest) := spanDigits r in
      (4 <=? length d)%nat &&
      match rest with c :: _ => c =? 47 | [] => false end
  | None => false
  end.

(** [extract_doi_from_filename(filename)]; [None] is NULL, for which
    every step of the function yields NULL. *)
Definition extract_doi_from_filename (filename : option text) : option text :=
  match filename with
  | None => None
  | Some f =>
      let f1 := removeExtension f in
      let f2 := removePath f1 in
      if startsLikeDoi f2 && hasHyphen f2 then
        let f3 := replaceFirstHyphen f2 in
        if doiPrefix f3 then Some f3 else None
      else None
  end.

(** The constraint [valid_doi] of the table [document]:
    [doi IS NULL OR doi ~ '^10\.\d{4,}/.*$'].  After the slash [.*$]
    takes whatever follows, a dot of this dialect standing for any
    character. *)
Definition valid_doi (doi : option text) : bool :=
  match doi with
  | None => true
  | Some d => doiPrefix d
  end.

(** The file of a DOI as the corpus names it: a directory, the DOI with
    a hyphen for its slash, a dot and an extension. *)
Definition doiFile (dir registrant suffix ext : text) : text :=
  dir ++ lit "10." ++ registrant ++ 45 :: suffix ++ 46 :: ext.

End Migration.

(** ** views/HomeView.vue: the links of a reference *)

Module HomeViewReferences.

(** A unit against a letter a-z of a pattern under the flag [i]: the
    letter or its capital.  No unit beyond ASCII is canonicalized to an
    ASCII letter. *)
Definition sameLetter (p c : N) : bool :=
  (c =? p) || ((97 <=? p) && (p <=? 122) && (c =? p - 32)).

(** The literal [p] at the head of [s], letters compared under the flag
    [i]: the units that matched it and what follows them. *)
Fixpoint stripPrefixI (p s : jsstring) : option (jsstring * jsstring) :=
  match p, s with
  | [], _ => Some ([], s)
  | a :: p', b :: s' =>
      if sameLetter a b then
        match stripPrefixI p' s' with
        | Some (m, r) => Some (b :: m, r)
        | None => None
        end
      else None
  | _ :: _, [] => None
  end.

(** The longest run of units that are not white space at the head of
    [s], and the rest: the greedy [[^\s]*]. *)
Fixpoint spanNonSpace (s : jsstring) : jsstring * jsstring :=
  match s with
  | c :: s' =>
      if isWhiteSpace c then ([], s)
      else let '(run, r) := spanNonSpace s' in (c :: run, r)
  | [] => ([], [])
  end.

(** A unit that ends a run: none, or a white space. *)
Definition stopsAt (rest : jsstring) : Prop :=
  rest = [] ∨ ∃ c r, rest = c :: r ∧ isWhiteSpace c = true.

(** [[^\s]+] *)
Definition someNonSpace (s : jsstring) : option (jsstring * jsstring) :=
  match spanNonSpace s with
  | ((_ :: _) as run, r) => Some (run, r)
  | ([], _) => None
  end.

(** One attempt of [/(https?:\/\/[^\s]+)/i] at the head of [s]: group 1
    and what follows the match.  The optional [s] and the colon exclude
    one another, so the order in which they are tried does not
    matter. *)
Definition matchHttp (s : jsstring) : option (jsstring * jsstring) :=
  '(http, r) ← stripPrefixI (lit "http") s;
  '(scheme, r1) ←
    match r with
    | c :: t =>
        if sameLetter 115 c then
          '(sep, r1) ← stripPrefixI (lit "://") t; Some (http ++ c :: sep, r1)
        else
          '(sep, r1) ← stripPrefixI (lit "://") r; Some (http ++ sep, r1)
    | [] => None
    end;
  '(run, rest) ← someNonSpace r1;
  Some (scheme ++ run, rest).

(** One attempt of [/doi:(10\.\d+\/[^\s]+)/i] at the head of [s]: group
    1 and what follows the match. *)
Definition matchDoi (s : jsstring) : option (jsstring * jsstring) :=
  '(_, r) ← stripPrefixI (lit "doi:") s;
  '(ten, r1) ← stripPrefixI (lit "10.") r;
  match spanDigits r1 with
  | ((_ :: _) as digits, c :: r2) =>
      if c =? 47 then
        '(run, rest) ← someNonSpace r2;
        Some (ten ++ digits ++ c :: run, rest)
      else None
  | _ => None
  end.

(** The leftmost place of [s] where [m] matches, with what stands
    before it: [String.prototype.match] and [RegExp.prototype.test] of
    a pattern without the flag [g]. *)
Fixpoint search {A : Type} (m : jsstring -> option A) (s : jsstring)
  : option (jsstring * A) :=
  match m s with
  | Some x => Some ([], x)
  | None =>
      match s with
      | [] => None
      | c :: s' =>
          match search m s' with
          | Some (before, x) => Some (c :: before, x)
          | None => None
          end
      end
  end.

(** [isValidUrl(ref)]: the test of
    [/(https?:\/\/[^\s]+|doi:10\.\d+\/[^\s]+)/i]. *)
Definition isValidUrl (ref : jsstring) : bool :=
  match search (fun s => match matchHttp s with
                         | Some x => Some x
                         | None => matchDoi s
                         end) ref with
  | Some _ => true
  | None => false
  end.

(** [openReference(ref)]: the URL it hands to [window.open], or [None]
    when it opens nothing. *)
Definition openReference (ref : jsstring) : option jsstring :=
  match search matchHttp ref with
  | Some (_, (url, _)) => Some url
  | None =>
      match search matchDoi ref with
      | Some (_, (doi, _)) => Some (lit "https://doi.org/" ++ doi)
      | None => None
      end
  end.

End HomeViewReferences.

(** ** Servers for the examples *)

Module Network.

(** A server that cannot be reached. *)
Definition offline {W : Type} (rq : request) (w : W)
  : fetched Feedback.envelope * W :=
  (Rejected (lit "Failed to fetch"), w).

End Network.

(** ** The form of ResultActions against a stored record *)

Module FeedbackForm.

(** A stored rating and a stored comment as JSON. *)
Definition jsonOfNum (x : option Z) : json :=
  match x with Some v => JNum v | None => JNull end.

Definition jsonOfText (x : option jsstring) : json :=
  match x with Some t => JStr t | None => JNull end.

(** A record as the form can hold it: its ratings are positive and its
    comment is neither empty nor padded with white space. *)
Definition clean (fb : Feedback.row) : Prop :=
  (∀ v, Feedback.rating fb = Some v -> (0 < v)%Z) ∧
  (∀ v, accuracy_rating fb = Some v -> (0 < v)%Z) ∧
  (∀ v, comprehensiveness_rating fb = Some v -> (0 < v)%Z) ∧
  (∀ v, helpfulness_rating fb = Some v -> (0 < v)%Z) ∧
  (∀ t, feedback_text fb = Some t -> t ≠ [] ∧ trim t = t).

(** The answer 7, not a favorite at first. *)
Definition answer7 : ResultActionsRatings.Props :=
  {| ResultActionsRatings.memoryId := Some 7%Z;
     ResultActionsRatings.fromMemory := false;
     ResultActionsRatings.initialFavorite := false;
     ResultActionsRatings.hasThread := false |}.

(** A form with four stars and nothing else. *)
Definition fourStarForm : ResultActionsRatings.Data :=
  {| ResultActionsRatings.showFeedback := true;
     ResultActionsRatings.rating := 4%Z;
     ResultActionsRatings.accuracyRating := 0%Z;
     ResultActionsRatings.comprehensivenessRating := 0%Z;
     ResultActionsRatings.helpfulnessRating := 0%Z;
     ResultActionsRatings.feedbackText := [];
     ResultActionsRatings.isFavorite := false;
     ResultActionsRatings.isSubmitting := false;
     ResultActionsRatings.existingFeedback := None |}.

(** A record that is a favorite, rated and commented. *)
Definition starred : Feedback.row :=
  {| Feedback.rating := Some 4%Z; accuracy_rating := Some 5%Z;
     comprehensiveness_rating := None; helpfulness_rating := Some 3%Z;
     feedback_text := Some (lit "clear and well cited");
     is_favorite := true; updated_at := 9 |}.

End FeedbackForm.

(** ** views/HomeView.vue: the title of a chunk card and the query form *)

Module HomeViewTitles.

Import HomeViewReferences.

(** The units the [.] of a pattern without the flag [s] does not match. *)
Definition isLineTerminator (c : N) : bool :=
  (c =? 10) || (c =? 13) || (c =? 8232) || (c =? 8233).

Definition notLineTerminator (c : N) : bool := negb (isLineTerminator c).

(** [[^.]] *)
Definition notDot (c : N) : bool := negb (c =? 46).

(** The longest run of units that satisfy [f] at the head of [s], and
    the rest: a greedy star. *)
Fixpoint span (f : N -> bool) (s : jsstring) : jsstring * jsstring :=
  match s with
  | c :: s' =>
      if f c then let '(run, r) := span f s' in (c :: run, r) else ([], s)
  | [] => ([], [])
  end.

(** [(\(\d{4}\)\.)] at the head of [s]: group 1 and what follows it. *)
Definition matchYear (s : jsstring) : option (jsstring * jsstring) :=
  r ← stripPrefix (lit "(") s;
  match r with
  | a :: b :: c :: d :: r1 =>
      if isDigit a && isDigit b && isDigit c && isDigit d then
        r2 ← stripPrefix (lit ").") r1;
        Some (lit "(" ++ [a; b; c; d] ++ lit ").", r2)
      else None
  | _ => None
  end.

(** [\s*([^.]+\.)] at the head of [r]: group 2 and what follows it.  The
    white space is never a period, so the group ends at the first period
    of [r] however the units before it are shared out; the star keeps all
    the white space unless the period comes right after it, where it
    gives its last unit back to the group. *)
Definition matchTitleText (r : jsstring) : option (jsstring * jsstring) :=
  let '(ws, r1) := span isWhiteSpace r in
  let '(t, r2) := span notDot r1 in
  match r2 with
  | dot :: r3 =>
      match t, last ws with
      | _ :: _, _ => Some (t ++ [dot], r3)
      | [], Some c => Some ([c; dot], r3)
      | [], None => None
      end
  | [] => None
  end.

(** [\s*(.+)] at the head of [r], to wherever the match ends: group 3.
    A unit after the white space is no line terminator, and the group
    runs from it to the next one.  When [r] is white space to its end,
    the star gives units back until one of them is no line terminator,
    and the group is that unit. *)
Definition matchAfterTitle (r : jsstring) : option jsstring :=
  let '(ws, r1) := span isWhiteSpace r in
  match r1 with
  | _ :: _ => Some (span notLineTerminator r1).1
  | [] => c ← last (List.filter notLineTerminator ws); Some [c]
  end.

(** One attempt of [/(\(\d{4}\)\.)\s*([^.]+\.)\s*(.+)/] at the head of
    [s]: its three groups. *)
Definition matchTitle (s : jsstring)
  : option (jsstring * jsstring * jsstring) :=
  '(year, r) ← matchYear s;
  '(title, r1) ← matchTitleText r;
  after ← matchAfterTitle r1;
  Some (year, title, after).

(** [title.replace(/\.$/, '')] *)
Definition dropLastDot (t : jsstring) : jsstring :=
  match reverse t with
  | c :: r => if c =? 46 then reverse r else t
  | [] => t
  end.

Definition linkToPaper : jsstring :=
  lit "<span class=" ++ [dquote] ++ lit "reference-link" ++ [dquote]
  ++ lit ">Link to paper</span>".

(** [formatChunkReference(reference)]; [None] is a null reference. *)
Definition formatChunkReference (reference : option jsstring) : jsstring :=
  match reference with
  | None | Some [] => []
  | Some reference =>
      match stripPrefix (lit "http") reference with
      | Some _ => linkToPaper
      | None =>
          match search matchTitle reference with
          | Some (before, (year, title, afterTitle)) =>
              let beforeTitle :=
                take (length before + length year + 1) reference in
              beforeTitle ++ lit "<em>" ++ dropLastDot title ++ lit "</em>. "
              ++ afterTitle
          | None => reference
          end
      end
  end.

(** A citation as the comment of [formatChunkReference] has it, Author(s)
    (year). Title. Journal, with the white space after the two periods
    left open. *)
Definition citation (authors year ws title ws' journal : jsstring)
  : jsstring :=
  authors ++ lit "(" ++ year ++ lit ")." ++ ws ++ title ++ lit "." ++ ws'
  ++ journal.

(** No four digits in parentheses with a period after them stand in
    [s]. *)
Definition noYear (s : jsstring) : Prop :=
  ∀ before year rest,
    s = before ++ lit "(" ++ year ++ lit ")." ++ rest -> length year = 4%nat ->
    ¬ Forall (fun c => isDigit c = true) year.

(** [submitQuery] of the view: the store action on the input as typed,
    when the trimmed input is not empty. *)
Definition submitQuery {Data : Type} (fetch : request -> fetched Data)
  (queryInput : jsstring) (s : State Data) : State Data :=
  match trim queryInput with
  | [] => s
  | _ :: _ => Store.submitQuery fetch queryInput s
  end.

(** [:disabled] of the button Ask. *)
Definition askDisabled {Data : Type} (queryInput : jsstring) (s : State Data)
  : bool :=
  loading s || bool_decide (trim queryInput = []).

End HomeViewTitles.

(** ** A session with the component ResultActions, in its revision with
       the three categorical ratings *)

Module FeedbackSession.

Import ResultActionsRatings.

(** The three rows of stars of the form. *)
Inductive category : Type := Accuracy | Comprehensiveness | Helpfulness.

(** [accuracyRating = i] and its likes. *)
Definition set_stars (cat : category) (i : Z) (d : Data) : Data :=
  {| showFeedback := showFeedback d; rating := rating d;
     accuracyRating :=
       match cat with Accuracy => i | _ => accuracyRating d end;
     comprehensivenessRating :=
       match cat with
       | Comprehensiveness => i
       | _ => comprehensivenessRating d
       end;
     helpfulnessRating :=
       match cat with Helpfulness => i | _ => helpfulnessRating d end;
     feedbackText := feedbackText d; isFavorite := isFavorite d;
     isSubmitting := isSubmitting d; existingFeedback := existingFeedback d |}.

Definition set_rating (i : Z) (d : Data) : Data :=
  {| showFeedback := showFeedback d; rating := i;
     accuracyRating := accuracyRating d;
     comprehensivenessRating := comprehensivenessRating d;
     helpfulnessRating := helpfulnessRating d;
     feedbackText := feedbackText d; isFavorite := isFavorite d;
     isSubmitting := isSubmitting d; existingFeedback := existingFeedback d |}.

Definition set_feedbackText (t : jsstring) (d : Data) : Data :=
  {| showFeedback := showFeedback d; rating := rating d;
     accuracyRating := accuracyRating d;
     comprehensivenessRating := comprehensivenessRating d;
     helpfulnessRating := helpfulnessRating d;
     feedbackText := t; isFavorite := isFavorite d;
     isSubmitting := isSubmitting d; existingFeedback := existingFeedback d |}.

(** What the user does to the component: the handlers of its template
    and the methods behind them. *)
Inductive event : Type :=
| ClickStar (cat : category) (i : Z)
| ClearRating
| ClearStars (cat : category)
| ClearComment
| Input (text : jsstring)
| ClickFeedback
| ClickCancel
| ClickFavorite
| ClickSubmit
| ClickClearAll (confirmed : bool).

(** The stars of a row come from [v-for="i in 5"]: 1 to 5. *)
Definition offered (ev : event) : Prop :=
  match ev with
  | ClickStar _ i => (1 <= i <= 5)%Z
  | _ => True
  end.

Section Session.

Context {W : Type}.
Variable fetch : request -> W -> fetched Feedback.envelope * W.

(** [mounted()] *)
Definition mounted (p : Props) (d : Data) (w : W) : Data * W * list effect :=
  if noMemoryId p then (d, w, []) else loadExistingFeedback fetch p d w.

(** The watcher of [showFeedback], run on a change to [newValue]. *)
Definition watchShowFeedback (newValue : bool) (p : Props) (d : Data) (w : W)
  : Data * W * list effect :=
  if newValue && negb (noMemoryId p) then loadExistingFeedback fetch p d w
  else (d, w, []).

Definition handle (p : Props) (ev : event) (d : Data) (w : W)
  : Data * W * list effect :=
  match ev with
  | ClickStar cat i => (set_stars cat i d, w, [])
  | ClearRating => (set_rating 0 d, w, [])
  | ClearStars cat => (set_stars cat 0 d, w, [])
  | ClearComment => (set_feedbackText [] d, w, [])
  | Input text => (set_feedbackText text d, w, [])
  | ClickFeedback =>
      watchShowFeedback (negb (showFeedback d)) p
        (set_showFeedback (negb (showFeedback d)) d) w
  | ClickCancel => (set_showFeedback false d, w, [])
  | ClickFavorite => toggleFavorite fetch p d w
  | ClickSubmit => submitFeedback fetch p d w
  | ClickClearAll confirmed => clearAllFeedback fetch confirmed p d w
  end.

(** The states of the component from its creation on. *)
Inductive reachable (p : Props) (w0 : W) : Data -> W -> Prop :=
| reachable_mounted :
    reachable p w0 (mounted p (data p) w0).1.1 (mounted p (data p) w0).1.2
| reachable_handle ev d w :
    reachable p w0 d w -> offered ev ->
    reachable p w0 (handle p ev d w).1.1 (handle p ev d w).1.2.

(** The server answers with rows of the table only: rows that pass its
    CHECK constraints. *)
Definition honest : Prop :=
  ∀ rq w resp env fb,
    (fetch rq w).1 = Resolved resp -> json_of resp = Json env ->
    env_feedback env = Some fb -> UserFeedback.checks fb = true.

End Session.

(** A rating of the form: none, or one to five stars. *)
Definition stars (x : Z) : Prop := (0 <= x <= 5)%Z.

Definition inRange (d : Data) : Prop :=
  stars (accuracyRating d) ∧ stars (comprehensivenessRating d) ∧
  stars (helpfulnessRating d).

(** A value of a body that passes [CHECK (x BETWEEN 1 AND 5)]. *)
Definition passesCheck (v : option json) : Prop :=
  v = Some JNull ∨ ∃ x, v = Some (JNum x) ∧ (1 <= x <= 5)%Z.

End FeedbackSession.

(** ** What the keys of [retrieval_evaluations] and the trigger of
       [user_feedback] keep *)

Module TableFacts.

Import RetrievalEvaluations.

(** The row points to a cache entry and to a chunk that exist, or to
    none, and its method fits its column. *)
Definition referenced (d : db) (r : row) : Prop :=
  (∀ q, query_id r = Some q -> q ∈ query_cache d) ∧
  (∀ c, chunk_id r = Some c -> c ∈ document_chunks d) ∧
  (∀ m, retrieval_method r = Some m -> (length m ≤ 50)%nat).

(** The statement leaves the [id] of what it inserts to the sequence. *)
Definition defaultId (st : statement) : Prop :=
  match st with
  | InsertEvaluation _ v => v_id v = None
  | _ => True
  end.

(** The ids of the table are past values of the sequence. *)
Definition issued (d : db) : Prop :=
  Forall (fun r => (id r ≤ id_seq d)%Z) (rows d).

(** An evaluation that names its [id]. *)
Definition numbered (i : Z) : values :=
  {| v_id := Some i; v_query_id := None; v_chunk_id := None;
     v_relevance_score := Some 0%Z; v_llm_score := None;
     v_explanation := None; v_retrieval_method := None;
     v_rank_position := None |}.

(** The row of [user_feedback] a statement names. *)
Definition target (st : UserFeedback.statement) : Z :=
  match st with
  | UserFeedback.Insert mid _ => mid
  | UserFeedback.Update mid _ => mid
  | UserFeedback.Delete mid => mid
  end.

(** Statements with their times, run in order. *)
Definition runAt (script : list (Z * UserFeedback.statement))
  (t : UserFeedback.table) : UserFeedback.table :=
  foldl (fun t st => (UserFeedback.exec st.1 st.2 t).2) t script.

(** An update that rates the accuracy and tries to set the time. *)
Definition rateAccuracy (v : Z) (r : Feedback.row) : Feedback.row :=
  {| Feedback.rating := Feedback.rating r; accuracy_rating := Some v;
     comprehensiveness_rating := comprehensiveness_rating r;
     helpfulness_rating := helpfulness_rating r;
     feedback_text := feedback_text r; is_favorite := is_favorite r;
     updated_at := 0 |}.

End TableFacts.

(** ** The component RetrievalMetrics *)

Module RetrievalMetrics.

Section WithSummary.

(** The object the summary endpoint answers with. *)
Context {Summary : Type}.

(** The refs of [setup()]; a null [summary] is [None]. *)
Record State : Type := {
  loading : bool;
  error : jsstring;
  summary : option Summary
}.

(** The refs as [setup()] creates them. *)
Definition setup : State := {| loading := false; error := []; summary := None |}.

(** What the [try] block of [loadSummary] throws, if it throws: the
    message of the rejection of [fetch], of the error raised for a
    response that is not ok, or of the rejection of [res.json()]. *)
Definition thrown (res : fetched (option Summary)) : option jsstring :=
  match res with
  | Resolved resp =>
      if ok resp then
        match json_of resp with
        | Json _ => None
        | NotJson message => Some message
        end
      else Some (lit "Failed to load retrieval metrics")
  | Rejected message => Some message
  end.

(** [loadSummary()]; [res] is what [fetch('/api/retrieval/eval/summary')]
    gives, its body an object or null. *)
Definition loadSummary (res : fetched (option Summary)) (s : State) : State :=
  let s1 := {| loading := true; error := []; summary := summary s |} in
  let s2 :=
    match res with
    | Resolved resp =>
        if ok resp then
          match json_of resp with
          | Json data =>
              {| loading := loading s1; error := error s1; summary := data |}
          | NotJson message =>
              {| loading := loading s1; error := message;
                 summary := summary s1 |}
          end
        else
          {| loading := loading s1;
             error := lit "Failed to load retrieval metrics";
             summary := summary s1 |}
    | Rejected message =>
        {| loading := loading s1; error := message; summary := summary s1 |}
    end in
  {| loading := false; error := error s2; summary := summary s2 |}.

(** What the template shows under its heading: the chain of [v-if],
    [v-else-if] and [v-else-if]. *)
Inductive panel : Type :=
| Loading
| ErrorText (message : jsstring)
| Grid (s : Summary)
| Nothing.

Definition view (s : State) : panel :=
  if loading s then Loading
  else
    match error s with
    | _ :: _ => ErrorText (error s)
    | [] =>
        match summary s with
        | Some x => Grid x
        | None => Nothing
        end
    end.

End WithSummary.

Arguments State Summary : clear implicits.
Arguments panel Summary : clear implicits.

End RetrievalMetrics.

(** ** The thread button of ResultActions *)

Module ThreadButton.

Import ResultActionsRatings.

(** [createThread()] *)
Definition createThread (p : Props) : list effect :=
  if noMemoryId p then [] else [Emit "create-thread"].

(** [getThreadButtonTitle()] *)
Definition getThreadButtonTitle (p : Props) : string :=
  if hasThread p then "Thread already exists"
  else if noMemoryId p then "Cannot create thread without a valid memory ID"
  else "Create conversation thread".

(** [:disabled="hasThread || !memoryId"] *)
Definition disabled (p : Props) : bool := hasThread p || noMemoryId p.

End ThreadButton.

(** ** db/check_citation_errors.sql: the reports on the citations *)

Module CitationReport.

(** The columns of [document] the reports read. *)
Record document : Type := {
  doi : option jsstring;
  reference : option jsstring;
  citation_fetched : option bool;
  citation_fetch_attempted_at : option Z;
  citation_fetch_error : option jsstring
}.

(** A condition of SQL: true, false or unknown ([None]). *)
Definition condition : Type := option bool.

Definition isNull {A : Type} (x : option A) : condition :=
  Some (match x with None => true | Some _ => false end).

Definition isNotNull {A : Type} (x : option A) : condition :=
  Some (match x with None => false | Some _ => true end).

(** [x = TRUE] and [x = FALSE] *)
Definition equals (x : option bool) (b : bool) : condition :=
  match x with
  | Some v => Some (Bool.eqb v b)
  | None => None
  end.

(** [AND] *)
Definition and3 (a b : condition) : condition :=
  match a, b with
  | Some false, _ | _, Some false => Some false
  | Some true, Some true => Some true
  | _, _ => None
  end.

(** [x LIKE 'prefix%'], for a prefix without wildcards. *)
Definition likePrefix (x : option jsstring) (prefix : jsstring) : condition :=
  match x with
  | Some s => Some (match stripPrefix prefix s with Some _ => true | None => false end)
  | None => None
  end.

(** A [WHEN] takes its branch, and a [WHERE] keeps its row, when the
    condition is true. *)
Definition holds (c : condition) : bool :=
  match c with
  | Some true => true
  | _ => false
  end.

(** The [status] of the error analysis. *)
Definition errorStatus (d : document) : string :=
  if holds (and3 (isNull (citation_fetch_error d))
                 (equals (citation_fetched d) false))
  then "Not attempted"
  else if holds (isNotNull (citation_fetch_error d))
  then "Failed with error"
  else if holds (and3 (equals (citation_fetched d) true)
                      (isNull (reference d)))
  then "Fetched but no reference"
  else if holds (and3 (equals (citation_fetched d) true)
                      (isNotNull (reference d)))
  then "Success"
  else "Unknown status".

(** The [WHERE] of the failed documents and their [failure_reason]. *)
Definition failed (d : document) : bool :=
  holds (isNotNull (citation_fetch_error d)).

Definition failureReason (d : document) : string :=
  if holds (isNull (doi d)) then "No DOI extracted"
  else if holds (and3 (isNotNull (doi d)) (isNotNull (citation_fetch_error d)))
  then "DOI exists but API failed"
  else "Unknown".

(** The [doi_pattern] of the pattern analysis. *)
Definition doiPattern (d : document) : string :=
  if holds (likePrefix (doi d) (lit "10.1")) then "10.1xxx (Common academic)"
  else if holds (likePrefix (doi d) (lit "10.3389")) then "10.3389 (Frontiers)"
  else if holds (likePrefix (doi d) (lit "10.1371")) then "10.1371 (PLOS)"
  else if holds (likePrefix (doi d) (lit "10.1016")) then "10.1016 (Elsevier)"
  else if holds (isNull (doi d)) then "No DOI"
  else "Other DOI pattern".

(** The [status] of the breakdown by processing status, in the script
    that counts the fetched citations. *)
Definition processingStatus (d : document) : string :=
  if holds (and3 (equals (citation_fetched d) true) (isNotNull (reference d)))
  then "Successfully fetched"
  else if holds (and3 (equals (citation_fetched d) true)
                      (isNull (reference d)))
  then "Marked fetched but no reference"
  else if holds (isNotNull (citation_fetch_attempted_at d))
  then "Attempted but failed"
  else "Not processed".

End CitationReport.

(** ** composables/useAdmin.js *)

Module UseAdmin.

(** A headers object: its keys in the order they were first set. *)
Definition headers : Type := list (string * jsstring).

(** [h[k]] *)
Fixpoint getHeader (k : string) (h : headers) : option jsstring :=
  match h with
  | [] => None
  | (k', v) :: h' => if String.eqb k k' then Some v else getHeader k h'
  end.

(** [h[k] = v] *)
Fixpoint setHeader (k : string) (v : jsstring) (h : headers) : headers :=
  match h with
  | [] => [(k, v)]
  | (k', v') :: h' =>
      if String.eqb k k' then (k, v) :: h' else (k', v') :: setHeader k v h'
  end.

(** The two [if] branches that [checkAdminStatus] and [makeAdminRequest]
    share.  [adminParam] is [urlParams.get('admin')]: [None] when the
    URL of the page has no such parameter. *)
Definition adminHeaders (adminParam : option jsstring) (h : headers)
  : headers :=
  match adminParam with
  | Some ((_ :: _) as token) =>
      if bool_decide (token = lit "true")
      then setHeader "X-Admin-Mode" (lit "true") h
      else setHeader "X-Admin-Token" token h
  | _ => h
  end.

Section WithStatus.

(** The object [/api/admin/status] answers with, the other options of a
    request, and the world the requests go to. *)
Context {Status Rest W : Type}.

Record request : Type := {
  url : jsstring;
  rest : option Rest;
  sent : headers
}.

Record options : Type := {
  opt_headers : option headers;
  opt_rest : option Rest
}.

Variable fetch : request -> W -> fetched (option Status) * W.

(** The two refs of the module. *)
Record State : Type := {
  adminStatus : option Status;
  isLoading : bool
}.

(** [checkAdminStatus()]: the refs and the world after it, and what it
    returns. *)
Definition checkAdminStatus (adminParam : option jsstring) (s : State)
  (w : W) : State * W * option Status :=
  if isLoading s then (s, w, adminStatus s)
  else
    let '(r, w1) :=
      fetch {| url := lit "/api/admin/status"; rest := None;
               sent := adminHeaders adminParam [] |} w in
    match r with
    | Resolved resp =>
        if ok resp then
          match json_of resp with
          | Json data =>
              ({| adminStatus := data; isLoading := false |}, w1, data)
          | NotJson _ =>
              ({| adminStatus := adminStatus s; isLoading := false |}, w1,
               adminStatus s)
          end
        else
          ({| adminStatus := adminStatus s; isLoading := false |}, w1,
           adminStatus s)
    | Rejected _ =>
        ({| adminStatus := adminStatus s; isLoading := false |}, w1,
         adminStatus s)
    end.

(** [makeAdminRequest(url, options)] *)
Definition makeAdminRequest (adminParam : option jsstring) (u : jsstring)
  (o : options) (w : W) : fetched (option Status) * W :=
  fetch {| url := u; rest := opt_rest o;
           sent := adminHeaders adminParam (default [] (opt_headers o)) |} w.

End WithStatus.

Arguments request Rest : clear implicits.
Arguments options Rest : clear implicits.
Arguments State Status : clear implicits.

End UseAdmin.

(** ** db/migrate_existing_chunks.sql: the documents of the chunks *)

Module DocumentMigration.

Import Migration.

(** A row of [document_chunks], as the migration reads it: the keys of
    [source_metadata] it takes with [->>], NULL for a key that is not
    there, [processed_at] as the timestamp its text casts to, and the
    column [document_id]. *)
Record chunk : Type := {
  chunk_id : Z;
  meta_source : option text;
  meta_path : option text;
  meta_content_hash : option text;
  meta_processed_at : option Z;
  document_id : option Z
}.

(** A row of [document], in the columns the migration writes. *)
Record document : Type := {
  id : Z;
  filename : text;
  file_path : text;
  content_hash : option text;
  doi : option text;
  created_at : option Z
}.

(** A row of the SELECT of step 4. *)
Record selectedRow : Type := {
  s_filename : text;
  s_file_path : text;
  s_content_hash : option text;
  s_doi : option text;
  s_created_at : option Z
}.

#[global] Instance selectedRow_eq_dec : EqDecision selectedRow.
Proof. solve_decision. Defined.

(** What step 4 reads of a chunk. *)
Definition metadata : Type :=
  option text * option text * option text * option Z.

Definition metadataOf (c : chunk) : metadata :=
  (meta_source c, meta_path c, meta_content_hash c, meta_processed_at c).

(** The WHERE of step 4: a source that is neither NULL nor empty. *)
Definition qualifies (m : metadata) : bool :=
  match m.1.1.1 with
  | Some (_ :: _) => true
  | _ => false
  end.

(** The three expressions of the GROUP BY. *)
Definition groupKey (m : metadata) : option text * option text * option text :=
  m.1.

(** [MIN]: the least of the values that are not NULL, NULL when there
    is none. *)
Definition minOf (ts : list (option Z)) : option Z :=
  foldr (fun t acc =>
           match t, acc with
           | Some x, Some y => Some (Z.min x y)
           | Some x, None => Some x
           | None, _ => acc
           end) None ts.

(** The row of the SELECT for one group. *)
Definition selectRow (ms : list metadata)
  (g : option text * option text * option text) : option selectedRow :=
  match g.1.1 with
  | Some source =>
      Some {| s_filename := source;
              s_file_path := default source g.1.2;
              s_content_hash := g.2;
              s_doi := extract_doi_from_filename (Some source);
              s_created_at :=
                minOf (snd <$> filter (fun m => groupKey m = g) ms) |}
  | None => None
  end.

(** The rows of the SELECT DISTINCT, one for each group and no row
    twice.  SQL leaves their order open; this is one order. *)
Definition selectedOf (ms : list metadata) : list selectedRow :=
  let kept := filter (fun m => qualifies m = true) ms in
  remove_dups (omap (selectRow kept) (remove_dups (groupKey <$> kept))).

Definition selected (cs : list chunk) : list selectedRow :=
  selectedOf (metadataOf <$> cs).

(** A text stored into [VARCHAR(n)]: what exceeds [n] characters may
    only be spaces, which are cut; anything else is an error. *)
Definition varchar (n : nat) (s : text) : option text :=
  if forallb (fun c => c =? 32) (drop n s) then Some (take n s) else None.

Definition varcharOrNull (n : nat) (s : option text) : option (option text) :=
  match s with
  | Some t => Some <$> varchar n t
  | None => Some None
  end.

(** One row of [INSERT INTO document ... ON CONFLICT (filename) DO
    NOTHING], on the rows of the table and the last value of the
    sequence of [id]; [None] is an error, which aborts the transaction.
    The default of [id] is taken and the row is checked before the
    conflict is looked for; a row whose filename is there is skipped;
    the other unique columns raise their violation. *)
Definition insertRow (r : selectedRow) (st : list document * Z)
  : option (list document * Z) :=
  let i := (st.2 + 1)%Z in
  fn ← varchar 255 (s_filename r);
  h ← varcharOrNull 64 (s_content_hash r);
  d ← varcharOrNull 255 (s_doi r);
  if negb (valid_doi d) then None
  else if bool_decide (fn ∈ filename <$> st.1) then Some (st.1, i)
  else if bool_decide (i ∈ id <$> st.1) then None
  else if bool_decide (is_Some h ∧ h ∈ content_hash <$> st.1) then None
  else
    Some (st.1 ++ [{| id := i; filename := fn; file_path := s_file_path r;
                      content_hash := h; doi := d;
                      created_at := s_created_at r |}], i).

(** The rows of the SELECT, inserted in the order they come. *)
Fixpoint insertRows (rs : list selectedRow) (st : list document * Z)
  : option (list document * Z) :=
  match rs with
  | [] => Some st
  | r :: rs' => st' ← insertRow r st; insertRows rs' st'
  end.

Definition set_document_id (k : option Z) (c : chunk) : chunk :=
  {| chunk_id := chunk_id c; meta_source := meta_source c;
     meta_path := meta_path c; meta_content_hash := meta_content_hash c;
     meta_processed_at := meta_processed_at c; document_id := k |}.

(** Step 5 on one chunk: [SET document_id = d.id] for the document whose
    filename is the source, where [document_id IS NULL]. *)
Definition linkChunk (docs : list document) (c : chunk) : chunk :=
  match document_id c, meta_source c with
  | None, Some s =>
      match List.find (fun d => bool_decide (filename d = s)) docs with
      | Some d => set_document_id (Some (id d)) c
      | None => c
      end
  | _, _ => c
  end.

Definition linkChunks (docs : list document) (cs : list chunk) : list chunk :=
  linkChunk docs <$> cs.

(** The two tables and the sequence of [document.id]. *)
Record tables : Type := {
  documents : list document;
  document_id_seq : Z;
  document_chunks : list chunk
}.

(** Steps 4 and 5 of the transaction, with the rows of the SELECT in
    the order [rs]; [None] when the transaction aborts. *)
Definition migrate (rs : list selectedRow) (t : tables) : option tables :=
  st ← insertRows rs (documents t, document_id_seq t);
  Some {| documents := st.1; document_id_seq := st.2;
          document_chunks := linkChunks st.1 (document_chunks t) |}.

(** What the script finds: the two tables, and whether the trigger
    [update_document_updated_at] is on [document]. *)
Record database : Type := {
  tables_of : tables;
  update_trigger : bool
}.

(** The script from its BEGIN to its COMMIT; [None] when a statement
    fails, which aborts the transaction, so that the COMMIT rolls back
    what the statements before it did to the tables.  Steps 1 to 3, 6
    and 7 pass wherever [document_chunks] exists ([IF NOT EXISTS], [OR REPLACE],
    [IF EXISTS]); steps 4 and 5 are [migrate]; step 8 replaces the
    trigger function and then creates the trigger with a plain
    [CREATE TRIGGER], which fails when the trigger is there. *)
Definition script (rs : list selectedRow) (db : database) : option database :=
  t' ← migrate rs (tables_of db);
  if update_trigger db then None
  else Some {| tables_of := t'; update_trigger := true |}.

(** The row passes the checks of the table and its filename is in
    [docs]. *)
Definition accepted (docs : list document) (r : selectedRow) : Prop :=
  ∃ fn h d,
    varchar 255 (s_filename r) = Some fn ∧
    varcharOrNull 64 (s_content_hash r) = Some h ∧
    varcharOrNull 255 (s_doi r) = Some d ∧
    valid_doi d = true ∧ fn ∈ filename <$> docs.

(** Three chunks of two files, the second file without a path, and a
    chunk without a source. *)
Definition fourChunks : list chunk :=
  [ {| chunk_id := 1; meta_source := Some (lit "10.1016-j.prevetmed.pdf");
       meta_path := Some (lit "/data/10.1016-j.prevetmed.pdf");
       meta_content_hash := Some (lit "ab12"); meta_processed_at := Some 50%Z;
       document_id := None |};
    {| chunk_id := 2; meta_source := Some (lit "10.1016-j.prevetmed.pdf");
       meta_path := Some (lit "/data/10.1016-j.prevetmed.pdf");
       meta_content_hash := Some (lit "ab12"); meta_processed_at := Some 40%Z;
       document_id := None |};
    {| chunk_id := 3; meta_source := Some (lit "notes.txt");
       meta_path := None; meta_content_hash := None;
       meta_processed_at := None; document_id := None |};
    {| chunk_id := 4; meta_source := None; meta_path := None;
       meta_content_hash := None; meta_processed_at := None;
       document_id := None |} ].

Definition beforeMigration : tables :=
  {| documents := []; document_id_seq := 0; document_chunks := fourChunks |}.

(** The same tables on a database where the trigger is not there yet. *)
Definition freshDatabase : database :=
  {| tables_of := beforeMigration; update_trigger := false |}.

End DocumentMigration.

(** ** The two revisions of ResultActions side by side *)

Module Revisions.

(** The data of the revision with the categorical ratings, as the
    revision with the single rating has them. *)
Definition forget (d : ResultActionsRatings.Data) : ResultActions.Data :=
  {| ResultActions.showFeedback := ResultActionsRatings.showFeedback d;
     ResultActions.rating := ResultActionsRatings.rating d;
     ResultActions.feedbackText := ResultActionsRatings.feedbackText d;
     ResultActions.isFavorite := ResultActionsRatings.isFavorite d;
     ResultActions.isSubmitting := ResultActionsRatings.isSubmitting d;
     ResultActions.existingFeedback := ResultActionsRatings.existingFeedback d |}.

(** The outcome of a method, seen from the older revision. *)
Definition forgetOutcome {W : Type}
  (r : ResultActionsRatings.Data * W * list ResultActionsRatings.effect)
  : ResultActions.Data * W * list ResultActionsRatings.effect :=
  (forget r.1.1, r.1.2, r.2).

End Revisions.

(** * Properties *)

(** ** JavaScript strings *)

Section Strings.

Local Open Scope nat_scope.

Lemma stripPrefix_Some (p s r : jsstring) :
  stripPrefix p s = Some r ↔ s = p ++ r.
Proof.
  revert s. induction p as [|a p IH]; intros s; simpl.
  - split; [intros [= ->] | intros ->]; reflexivity.
  - destruct s as [|b s]; [split; discriminate|].
    destruct (N.eqb_spec a b) as [->|Hne].
    + rewrite IH. split; [intros ->; reflexivity | intros [= ->]; reflexivity].
    + split; [discriminate | intros [= -> _]; contradiction].
Qed.

Lemma spanDigits_app (s : jsstring) :
  s = (spanDigits s).1 ++ (spanDigits s).2.
Proof.
  induction s as [|c s IH]; simpl; [reflexivity|].
  destruct (isDigit c); [|reflexivity].
  destruct (spanDigits s) as [d r]; simpl in *. by f_equal.
Qed.

Lemma spanDigits_digits (s : jsstring) :
  Forall (fun c => isDigit c = true) (spanDigits s).1.
Proof.
  induction s as [|c s IH]; simpl; [constructor|].
  destruct (isDigit c) eqn:Hc; [|constructor].
  destruct (spanDigits s) as [d r]; simpl in *. by constructor.
Qed.

(** The greedy run stops exactly where the digits stop. *)
Lemma spanDigits_stop (d : jsstring) (c : N) (r : jsstring) :
  Forall (fun c => isDigit c = true) d -> isDigit c = false ->
  spanDigits (d ++ c :: r) = (d, c :: r).
Proof.
  intros Hd Hc. induction Hd as [|x d Hx _ IH]; simpl.
  - by rewrite Hc.
  - by rewrite Hx, IH.
Qed.

Lemma trimStart_nil_iff (s : jsstring) :
  trimStart s = [] ↔ Forall (fun c => isWhiteSpace c = true) s.
Proof.
  induction s as [|c s IH]; simpl.
  - split; [constructor | reflexivity].
  - destruct (isWhiteSpace c) eqn:Hc.
    + rewrite IH. split; [by constructor | by inversion 1].
    + split; [discriminate | inversion 1; congruence].
Qed.

Lemma trimStart_head (s : jsstring) (c : N) (r : jsstring) :
  trimStart s = c :: r -> isWhiteSpace c = false ∧ c ∈ s.
Proof.
  induction s as [|x s IH]; simpl; [discriminate|].
  destruct (isWhiteSpace x) eqn:Hx.
  - intros H. destruct (IH H) as [? ?]. split; [done | by right].
  - intros [= -> ->]. split; [done | by left].
Qed.

(** A trimmed string that is not empty holds a unit that is not white
    space. *)
Lemma trim_not_nil (s : jsstring) :
  trim s ≠ [] -> ∃ c, c ∈ trim s ∧ isWhiteSpace c = false.
Proof.
  unfold trim, trimEnd. intros Hne.
  destruct (trimStart (reverse (trimStart s))) as [|c r] eqn:E.
  - by rewrite reverse_nil in Hne.
  - exists c. destruct (trimStart_head _ _ _ E) as [Hc _].
    split; [|done]. rewrite elem_of_reverse. by left.
Qed.

Lemma trim_nil_iff (s : jsstring) :
  trim s = [] ↔ Forall (fun c => isWhiteSpace c = true) s.
Proof.
  unfold trim, trimEnd. split.
  - intros H. apply (f_equal reverse) in H.
    rewrite reverse_involutive, reverse_nil in H.
    apply trimStart_nil_iff in H.
    apply Forall_reverse in H. rewrite reverse_involutive in H.
    destruct (trimStart s) as [|c r] eqn:E.
    + by apply trimStart_nil_iff.
    + destruct (trimStart_head _ _ _ E) as [Hc _].
      inversion H; congruence.
  - intros H. apply trimStart_nil_iff in H. rewrite H. reflexivity.
Qed.

(** Trimming what [trim] returned does not empty it. *)
Lemma trim_trim_not_nil (s : jsstring) : trim s ≠ [] -> trim (trim s) ≠ [].
Proof.
  intros Hne Hnil. destruct (trim_not_nil s Hne) as (c & Hin & Hc).
  apply trim_nil_iff in Hnil. rewrite Forall_forall in Hnil.
  specialize (Hnil c Hin). congruence.
Qed.

End Strings.

(** ** Citations in [formatAnswer] *)

Section Citations.

Local Open Scope nat_scope.






Lemma matchAll_nil : matchAll [] = [].
Proof. reflexivity. Qed.







(** A unit that a check over the text does not find is not in it. *)
Lemma without_unit (c : N) (l : jsstring) :
  forallb (fun x => negb (x =? c)%N) l = true -> c ∉ l.
Proof.
  induction l as [|x l IH]; simpl; [intros _; apply not_elem_of_nil|].
  intros [Hx Hl]%andb_true_iff. apply not_elem_of_cons. split; [|by apply IH].
  apply negb_true_iff, N.eqb_neq in Hx. congruence.
Qed.





(** *** What [Rewritten] says of a text, whatever wrote it *)






(** A text without a token is rewritten into itself. *)
Lemma Rewritten_no_token (s : jsstring) (ds : list jsstring) (out : jsstring) :
  Rewritten s ds out -> ¬ tokenIn s -> ds = [] ∧ out = s.
Proof.
  induction 1 as [|d' s ds link out Hd' Hlink _ IH|c s ds out Hc _ IH];
    intros Hno.
  - done.
  - exfalso. apply Hno. exists [], (citationToken d' ++ s).
    split; [by exists d', s | done].
  - destruct IH as [-> ->]; [|done].
    intros (pre & rest & Ht & ->). apply Hno. by exists (c :: pre), rest.
Qed.

(** *** A renderer that passes the text through *)








Lemma uintUnits_inj (u v : Decimal.uint) : uintUnits u = uintUnits v -> u = v.
Proof.
  revert v. induction u; intros []; simpl; intros [=]; f_equal; auto.
Qed.

Lemma numberToString_inj (m n : nat) : numberToString m = numberToString n -> m = n.
Proof.
  unfold numberToString. intros H%uintUnits_inj.
  rewrite <- (DecimalNat.Unsigned.of_to m), <- (DecimalNat.Unsigned.of_to n).
  by f_equal.
Qed.

(** The anchors of the page: [chunk-1] to [chunk-n], and no other. *)
Lemma elem_of_chunkAnchors (cs : list Chunk) (a : jsstring) :
  a ∈ chunkAnchors cs ↔
  ∃ i : nat, 1 ≤ i ≤ length cs ∧ a = lit "chunk-" ++ numberToString i.
Proof.
  unfold chunkAnchors. rewrite elem_of_lookup_imap. split.
  - intros (i & c & -> & Hi). apply lookup_lt_Some in Hi.
    exists (i + 1). split; [lia | reflexivity].
  - intros (i & [H1 Hn] & ->).
    destruct (lookup_lt_is_Some_2 cs (i - 1)) as [c Hc]; [lia|].
    exists (i - 1), c. split; [|assumption].
    by replace (i - 1 + 1) with i by lia.
Qed.

(** The anchor of [N] is on the page exactly when [N] is the numeral of
    a position from 1 to the number of chunks. *)
Lemma anchorOf_on_page (cs : list Chunk) (d : jsstring) :
  anchorOf d ∈ chunkAnchors cs ↔
  ∃ i : nat, 1 ≤ i ≤ length cs ∧ d = numberToString i.
Proof.
  unfold anchorOf. rewrite elem_of_chunkAnchors. split.
  - intros (i & Hi & Heq). exists i. split; [assumption|].
    by apply app_inv_head in Heq.
  - intros (i & Hi & ->). by exists i.
Qed.

End Citations.

(** ** The synthesizer of the specification *)

Section SynthesizerFacts.

Import Synthesizer.

Local Open Scope nat_scope.






(** A text within the range is left as it is. *)
Lemma strip_id (n : nat) (s : jsstring) :
  withinContext n s = true -> strip n s = s.
Proof. unfold strip. destruct s as [|c s]; [done|]. simpl. by intros ->. Qed.



End SynthesizerFacts.

(** ** The claims on [views/HomeView.vue] *)

Section HomeViewClaims.

Import Synthesizer.

Local Open Scope nat_scope.


Lemma paragraph_passesThrough (line : jsstring) : passesThrough paragraph line.
Proof.
  exists (lit "<p>"), (lit "</p>" ++ [10%N]). unfold paragraph.
  split; [reflexivity|].
  split; by apply without_unit.
Qed.

(** A generative step that cites a ninth chunk over a context of two:
    stripping leaves the citation of the first chunk, the retry hides
    the citation in another and is answered by the uncited text with
    the flag set. *)
Example synthesize_stubborn :
  synthesize stubborn Strip (lit "q") twoChunks
  = {| text := lit "See  and [chunk1]."; usedCitations := [lit "1"];
       lowConfidence := false |} ∧
  synthesize stubborn Retry (lit "q") twoChunks
  = {| text := lit "See  and ."; usedCitations := [];
       lowConfidence := true |}.
Proof. split; vm_compute; reflexivity. Qed.

(** [formatAnswer] itself checks no range: a token [[chunk9]] is linked
    on a page of two chunks, where no element [chunk-9] is. *)
Example formatAnswer_checks_no_range :
  lit "9" ∈ citedIndices paragraph (lit "See [chunk9].") ∧
  anchorOf (lit "9") ∉ chunkAnchors twoChunks.
Proof.
  split; [vm_compute; left|].
  rewrite anchorOf_on_page. intros (i & [H1 H2] & Heq). simpl in H2.
  assert (i = 1 ∨ i = 2) as [-> | ->] by lia; vm_compute in Heq; discriminate.
Qed.


(** One line of an answer through the paragraph of the renderer: the
    token becomes its link, the other brackets stay. *)
Example formatAnswer_paragraph :
  formatAnswer paragraph (lit "Vaccinate [chunk2], not [chunk 1] or [3].")
  = lit "<p>Vaccinate <a href=" ++ [dquote] ++ lit "#chunk-2" ++ [dquote]
    ++ lit " class=" ++ [dquote] ++ lit "chunk-citation-link" ++ [dquote]
    ++ lit " onclick=" ++ [dquote]
    ++ lit "document.getElementById('chunk-2').scrollIntoView({behavior: 'smooth'}); return false;"
    ++ [dquote] ++ lit ">[chunk2]</a>, not [chunk 1] or [3].</p>" ++ [10%N].
Proof. vm_compute. reflexivity. Qed.

(** Brackets that are not the token stay text: a space, a capital, no
    digits, digits alone, a digit run that does not end in a bracket. *)
Example other_brackets_unchanged :
  let html := lit "[chunk 1] [Chunk2] [chunk] [3] [chunk4x] [chunk5" in
  linkCitations html = html.
Proof. vm_compute. reflexivity. Qed.

(** A token inside brackets is rewritten, the brackets stay. *)
Example nested_token_rewritten :
  linkCitations (lit "[[chunk12]]") = lit "[" ++ citationLink (lit "12") ++ lit "]".
Proof. vm_compute. reflexivity. Qed.

(** C9: the references are parallel to the chunks.  For the chunk at
    position [index + 1] the reference shown is [references[index]] when
    that entry is a reference (a non-empty string); a null or missing
    entry, a missing array and an empty string all give [null], and the
    card then shows the plain title; no case is an error. *)
Theorem getChunkReference_parallel (results : option QueryResponse)
  (index : nat) :
  (∀ s, getChunkReference results index = Some s ↔
        referenceEntry results index = Some (Some s) ∧ s ≠ []) ∧
  (∀ s, getChunkReference results index = Some s ->
        renderChunkTitle results index = ReferenceLink s) ∧
  (referenceEntry results index = None ∨
   referenceEntry results index = Some None ∨
   referenceEntry results index = Some (Some []) ->
   getChunkReference results index = None ∧
   renderChunkTitle results index = DocumentExcerpt).
Proof.
  unfold renderChunkTitle, getChunkReference, referenceEntry.
  destruct results as [r|]; simpl;
    [destruct (references r) as [refs|]; simpl;
     [destruct (refs !! index) as [[[|c s']|]|]; simpl|]|].
  all: split; [intros s; split; [intros [=] | intros [[=] ?]];
               subst; try done|].
  all: split; [intros s [=]; subst; done | intros [[=]|[[=]|[=]]]; done].
Qed.

Example reference_of_second_chunk :
  let r := {| answer := lit "Vaccinate [chunk1]."; memory_id := 7;
              from_memory := false; chunks := twoChunks; entities := [];
              references := Some [None; Some (lit "doi:10.1/x")] |} in
  getChunkReference (Some r) 1 = Some (lit "doi:10.1/x") ∧
  getChunkReference (Some r) 0 = None ∧
  getChunkReference (Some r) 2 = None.
Proof. vm_compute. auto. Qed.

End HomeViewClaims.

(** ** The claim on the Vuex store *)

Section StoreClaims.

Context {Data : Type}.

(** C10: [submitQuery] clears the error and sets loading before it
    fetches; its request is [{query, max_results: 5, use_memory: true}]
    and nothing else of the network is consulted; when the fetch throws,
    the response is not ok or its body is not JSON, the stored results
    stay as they were and the error is a message; when the fetch gives
    its data, the results are that data and the error stays null; in
    every case loading is false at the end. *)
Theorem submitQuery_atomic (fetch : request -> fetched Data) (q : jsstring)
  (s : State Data) :
  let rq := {| req_method := POST; req_url := ApiQuery;
               req_headers := [("Content-Type", "application/json")]%string;
               req_body := Some [("query", JStr q); ("max_results", JNum 5);
                                 ("use_memory", JBool true)]%string |} in
  let s' := submitQuery fetch q s in
  (loading (beforeFetch q s) = true ∧ error (beforeFetch q s) = None ∧
   results (beforeFetch q s) = results s) ∧
  (∀ fetch', fetch' rq = fetch rq -> submitQuery fetch' q s = s') ∧
  (∀ m, fetch rq = Rejected m -> results s' = results s ∧ error s' = Some m) ∧
  (∀ resp, fetch rq = Resolved resp -> ok resp = false ->
     results s' = results s ∧ error s' = Some (apiError (status resp))) ∧
  (∀ resp m, fetch rq = Resolved resp -> ok resp = true ->
     json_of resp = NotJson m -> results s' = results s ∧ error s' = Some m) ∧
  (∀ resp data, fetch rq = Resolved resp -> ok resp = true ->
     json_of resp = Json data -> results s' = Some data ∧ error s' = None) ∧
  loading s' = false ∧ query s' = q.
Proof.
  intros rq s'. subst s'. unfold submitQuery.
  change (queryRequest q) with rq.
  split; [done|]. split; [by intros fetch' ->|].
  destruct (fetch rq) as [resp|m] eqn:E; unfold afterFetch.
  - destruct (ok resp) eqn:Hok; [destruct (json_of resp) as [data|m] eqn:Hj|];
      repeat (split || intro); simplify_eq; try done; simpl; congruence.
  - repeat (split || intro); simplify_eq; done.
Qed.

End StoreClaims.

(** ** The claim on [db/add_multiple_ratings.sql] *)

Section UserFeedbackClaims.

Import UserFeedback.

Local Open Scope Z_scope.

Lemma between_true (lo hi : Z) (x : option Z) :
  between lo hi x = true ↔ ∀ v, x = Some v -> lo ≤ v ≤ hi.
Proof.
  destruct x as [v|]; simpl.
  - rewrite andb_true_iff, !Z.leb_le. split.
    + intros H w [= <-]. exact H.
    + intros H. by apply H.
  - split; [intros _ w [=] | reflexivity].
Qed.

Lemma checks_true (r : Feedback.row) :
  checks r = true ↔
  ∀ v, accuracy_rating r = Some v ∨ comprehensiveness_rating r = Some v ∨
       helpfulness_rating r = Some v -> 1 ≤ v ≤ 5.
Proof.
  unfold checks. rewrite !andb_true_iff, !between_true. split.
  - intros [[Ha Hc] Hh] v [?|[?|?]]; auto.
  - intros H. split; [split|]; intros v Hv; apply H; auto.
Qed.

Lemma checks_timestamp (now : Z) (r : Feedback.row) :
  checks (update_user_feedback_timestamp now r) = checks r.
Proof. reflexivity. Qed.

(** A statement keeps every row of the table within the constraints. *)
Lemma exec_checks (now : Z) (st : statement) (t : table) :
  (∀ mid r, t !! mid = Some r -> checks r = true) ->
  ∀ mid r, (exec now st t).2 !! mid = Some r -> checks r = true.
Proof.
  intros Ht mid r. destruct st as [k new|k set|k]; simpl.
  - unfold insert. destruct (checks new) eqn:Hc; [|apply Ht].
    destruct (t !! k) eqn:Hk; simpl; [apply Ht|].
    destruct (decide (k = mid)) as [->|Hne].
    + rewrite lookup_insert_eq. by intros [= <-].
    + rewrite lookup_insert_ne by done. apply Ht.
  - unfold update. destruct (t !! k) as [old|] eqn:Hk; [|apply Ht].
    destruct (checks _) eqn:Hc; [|apply Ht]. simpl.
    destruct (decide (k = mid)) as [->|Hne].
    + rewrite lookup_insert_eq. by intros [= <-].
    + rewrite lookup_insert_ne by done. apply Ht.
  - unfold delete. destruct (t !! k) eqn:Hk; simpl; [|apply Ht].
    destruct (decide (k = mid)) as [->|Hne].
    + by rewrite lookup_delete_eq.
    + rewrite lookup_delete_ne by done. apply Ht.
Qed.

Lemma reachable_checks (t : table) :
  reachable t -> ∀ mid r, t !! mid = Some r -> checks r = true.
Proof.
  induction 1 as [|now st t _ IH].
  - intros mid r. by rewrite lookup_empty.
  - by apply exec_checks.
Qed.

(** C8: in every table the statements can build, each categorical rating
    that is set lies between 1 and 5; an INSERT or an UPDATE whose row
    has such a rating outside that range fails with a check violation
    and leaves the table as it was. *)
Theorem ratings_between_1_and_5 :
  (∀ t, reachable t ->
     ∀ mid r v, t !! mid = Some r ->
       accuracy_rating r = Some v ∨ comprehensiveness_rating r = Some v ∨
       helpfulness_rating r = Some v -> 1 ≤ v ≤ 5) ∧
  (∀ r v, (accuracy_rating r = Some v ∨ comprehensiveness_rating r = Some v ∨
           helpfulness_rating r = Some v) -> ¬ (1 ≤ v ≤ 5) ->
     (∀ now mid t, exec now (Insert mid r) t = (CheckViolation, t)) ∧
     (∀ now mid set old t, t !! mid = Some old -> set old = r ->
        exec now (Update mid set) t = (CheckViolation, t))).
Proof.
  split.
  - intros t Ht mid r v Hr Hv.
    pose proof (reachable_checks t Ht mid r Hr) as Hc.
    rewrite checks_true in Hc. by apply Hc.
  - intros r v Hv Hout.
    assert (checks r = false) as Hc.
    { destruct (checks r) eqn:Hc; [|reflexivity].
      rewrite checks_true in Hc. exfalso. apply Hout. by apply Hc. }
    split.
    + intros now mid t. simpl. unfold insert. by rewrite Hc.
    + intros now mid set old t Hold <-. simpl. unfold update.
      by rewrite Hold, checks_timestamp, Hc.
Qed.

Example rating_six_refused :
  let good := {| Feedback.rating := None; accuracy_rating := Some 5;
                 comprehensiveness_rating := None; helpfulness_rating := None;
                 feedback_text := None; is_favorite := false;
                 updated_at := 0 |} in
  let six (r : Feedback.row) :=
    {| Feedback.rating := Feedback.rating r; accuracy_rating := Some 6;
       comprehensiveness_rating := comprehensiveness_rating r;
       helpfulness_rating := helpfulness_rating r;
       feedback_text := feedback_text r; is_favorite := is_favorite r;
       updated_at := updated_at r |} in
  let t := (exec 1 (Insert 7 good) ∅).2 in
  t !! 7 = Some good ∧
  exec 2 (Update 7 six) t = (CheckViolation, t) ∧
  exec 2 (Insert 8 (six good)) t = (CheckViolation, t).
Proof. vm_compute. auto. Qed.

End UserFeedbackClaims.

(** ** The claim on [retrieval_evaluations] *)

Section RetrievalEvaluationsClaims.

Import RetrievalEvaluations.

Lemma NoDup_map_filter {A B : Type} (f : A -> B) (P : A -> Prop)
  `{!∀ x, Decision (P x)} (l : list A) :
  NoDup (f <$> l) -> NoDup (f <$> filter P l).
Proof.
  induction l as [|a l IH]; [done|]. rewrite fmap_cons.
  intros [Hn Hd]%NoDup_cons.
  rewrite filter_cons. destruct (decide (P a)); [|auto].
  rewrite fmap_cons. apply NoDup_cons. split; [|auto].
  intros Hin. apply Hn.
  apply list_elem_of_fmap in Hin as (x & -> & Hx).
  apply list_elem_of_fmap. exists x. split; [done|].
  by apply list_elem_of_filter in Hx as [_ ?].
Qed.

Lemma Forall_filter' {A : Type} (Q : A -> Prop) (P : A -> Prop)
  `{!∀ x, Decision (P x)} (l : list A) :
  Forall Q l -> Forall Q (filter P l).
Proof.
  rewrite !Forall_forall. intros HQ x [_ Hx]%list_elem_of_filter. by apply HQ.
Qed.

Lemma exec_wellKeyed (st : statement) (d : db) :
  wellKeyed d -> wellKeyed (exec st d).2.
Proof.
  intros [Hid Hrel]. destruct st as [now v|q|c|q|c|i]; simpl.
  - unfold insert. destruct (varchar50 _) as [m|]; [|split; assumption].
    destruct (v_id v) as [i|];
      destruct (v_relevance_score v) as [rel|]; try (split; assumption);
      repeat case_bool_decide; simpl; try (split; assumption);
      destruct (references _ _ && references _ _); simpl;
      try (split; assumption); subst.
    all: split; simpl;
      [ rewrite fmap_app; simpl; apply NoDup_app; split; [assumption|];
        split; [|apply NoDup_singleton];
        intros x Hx ->%list_elem_of_singleton; contradiction
      | apply Forall_app; split; [assumption|]; apply Forall_singleton;
        simpl; auto ].
  - by split.
  - by split.
  - split; simpl; [by apply NoDup_map_filter | by apply Forall_filter'].
  - split; simpl; [by apply NoDup_map_filter | by apply Forall_filter'].
  - split; simpl; [by apply NoDup_map_filter | by apply Forall_filter'].
Qed.

Lemma reachable_wellKeyed (d : db) : reachable d -> wellKeyed d.
Proof.
  induction 1 as [|st d _ IH].
  - split; simpl; constructor.
  - by apply exec_wellKeyed.
Qed.

Lemma reachable_run (script : list statement) (d : db) :
  reachable d -> reachable (run script d).
Proof.
  revert d. induction script as [|st script IH]; intros d Hd; [done|].
  simpl. apply IH. by constructor.
Qed.

(** C7, as the table has it: what is unique is the [id].  In every
    reachable state two rows at different places of the table differ in
    their [id], and every relevance score is 0 or 1; the rank position
    is under no constraint. *)
Theorem id_unique_per_row (d : db) :
  reachable d ->
  idUnique d ∧
  Forall (fun r => relevance_score r = 0%Z ∨ relevance_score r = 1%Z) (rows d).
Proof.
  intros [Hid Hrel]%reachable_wellKeyed. split; [|assumption].
  intros i j r1 r2 H1 H2 Hij Heq.
  apply Hij. eapply NoDup_lookup; [exact Hid| |].
  - rewrite list_lookup_fmap, H1. reflexivity.
  - rewrite list_lookup_fmap, H2. simpl. by rewrite Heq.
Qed.

(** The table after two evaluation runs. *)
Lemma id_unique_per_row_witness :
  reachable (run twoRuns empty) ∧
  (idUnique (run twoRuns empty) ∧
   Forall (fun r => relevance_score r = 0%Z ∨ relevance_score r = 1%Z)
          (rows (run twoRuns empty))).
Proof.
  assert (reachable (run twoRuns empty)) as H
    by (apply reachable_run; constructor).
  split; [exact H | exact (id_unique_per_row _ H)].
Defined.

(** C7 fails as stated: two evaluation runs over the same cache entry
    leave two rows for query 1 and the vector method, both at rank 1. *)
Lemma rank_position_repeats :
  reachable (run twoRuns empty) ∧
  (∃ r1 r2, rows (run twoRuns empty) = [r1; r2] ∧
     id r1 = 1%Z ∧ id r2 = 2%Z ∧
     query_id r1 = query_id r2 ∧ retrieval_method r1 = retrieval_method r2 ∧
     rank_position r1 = rank_position r2) ∧
  ¬ rankUnique (run twoRuns empty).
Proof.
  split; [apply reachable_run; constructor|]. split.
  - eexists _, _. split; [vm_compute; reflexivity|]. by vm_compute.
  - intros H. by apply (H 0%nat 1%nat _ _ eq_refl eq_refl).
Qed.

End RetrievalEvaluationsClaims.

(** ** The feedback endpoints *)

Section ApiFacts.

Import UserFeedback Api.

Local Open Scope Z_scope.

Lemma sameFeedback_refl (r : Feedback.row) : sameFeedback r r.
Proof. by repeat split. Qed.

Lemma sameFeedback_sym (r1 r2 : Feedback.row) :
  sameFeedback r1 r2 -> sameFeedback r2 r1.
Proof. intros (? & ? & ? & ? & ? & ?). by repeat split. Qed.

Lemma sameFeedback_trans (r1 r2 r3 : Feedback.row) :
  sameFeedback r1 r2 -> sameFeedback r2 r3 -> sameFeedback r1 r3.
Proof.
  intros (? & ? & ? & ? & ? & ?) (? & ? & ? & ? & ? & ?).
  repeat split; congruence.
Qed.

Lemma sameFeedback_timestamp (now : Z) (r : Feedback.row) :
  sameFeedback (update_user_feedback_timestamp now r) r.
Proof. by repeat split. Qed.

(** What a reader sees of an entry does not depend on the clock. *)
Lemma stored_default (now mid : Z) (t : table) :
  sameFeedback (stored mid t) (default (blank now) (t !! mid)).
Proof. unfold stored. destruct (t !! mid); by repeat split. Qed.

Lemma isEmpty_true (r : Feedback.row) :
  isEmpty r = true ↔ sameFeedback r (blank 0).
Proof.
  unfold isEmpty, sameFeedback. simpl.
  rewrite !andb_true_iff, !bool_decide_eq_true, negb_true_iff. tauto.
Qed.

Lemma isEmpty_checks (r : Feedback.row) : isEmpty r = true -> checks r = true.
Proof.
  intros (_ & Ha & Hc & Hh & _)%isEmpty_true. unfold checks.
  by rewrite Ha, Hc, Hh.
Qed.

Lemma checks_same (r1 r2 : Feedback.row) :
  sameFeedback r1 r2 -> checks r1 = checks r2.
Proof. intros (_ & Ha & Hc & Hh & _). unfold checks. by rewrite Ha, Hc, Hh. Qed.

(** The merge, field by field. *)
Lemma merge_Some (b : body) (old new : Feedback.row) :
  merge b old = Some new ↔
  mergeNum "rating" b (Feedback.rating old) = Some (Feedback.rating new) ∧
  mergeNum "accuracy_rating" b (accuracy_rating old)
  = Some (accuracy_rating new) ∧
  mergeNum "comprehensiveness_rating" b (comprehensiveness_rating old)
  = Some (comprehensiveness_rating new) ∧
  mergeNum "helpfulness_rating" b (helpfulness_rating old)
  = Some (helpfulness_rating new) ∧
  mergeText "feedback_text" b (feedback_text old) = Some (feedback_text new) ∧
  mergeBool "is_favorite" b (is_favorite old) = Some (is_favorite new) ∧
  updated_at new = updated_at old.
Proof.
  unfold merge.
  destruct (mergeNum "rating" _ _) as [r|]; simpl;
    [destruct (mergeNum "accuracy_rating" _ _) as [a|]; simpl;
     [destruct (mergeNum "comprehensiveness_rating" _ _) as [c|]; simpl;
      [destruct (mergeNum "helpfulness_rating" _ _) as [h|]; simpl;
       [destruct (mergeText _ _ _) as [x|]; simpl;
        [destruct (mergeBool _ _ _) as [f|]; simpl|]|]|]|]|].
  all: split; [intros [= <-]; by repeat split | ].
  all: intros (? & ? & ? & ? & ? & ? & ?); simplify_eq.
  destruct new; simpl in *. by subst.
Qed.

Lemma delete_lookup (mid k : Z) (t : table) :
  (delete mid t).2 !! k = if decide (k = mid) then None else t !! k.
Proof.
  unfold delete. destruct (t !! mid) eqn:E; simpl; case_decide; subst;
    by rewrite ?lookup_delete_eq, ?lookup_delete_ne.
Qed.

(** What [upsertFeedback] does: either the request is refused and the
    table stays, or the merged record is what the entry reads as
    afterwards, every other entry staying as it was. *)
Lemma upsertFeedback_cases (now mid : Z) (b : body) (t : table) :
  let res := upsertFeedback now mid b t in
  (ok res.1 = false ∧ res.2 = t ∧
   ∀ new, merge b (default (blank now) (t !! mid)) = Some new ->
          valid new && checks new = false) ∨
  (∃ new, merge b (default (blank now) (t !! mid)) = Some new ∧
          valid new = true ∧ checks new = true ∧ ok res.1 = true ∧
          (∀ k, k ≠ mid -> res.2 !! k = t !! k) ∧
          (if isEmpty new then res.2 !! mid = None
           else ∃ r, res.2 !! mid = Some r ∧ sameFeedback r new)).
Proof.
  unfold upsertFeedback.
  destruct (merge b _) as [new|] eqn:Hm; [|left; by repeat split].
  destruct (valid new) eqn:Hv; simpl; [|left; repeat split; by intros ? [= <-]; rewrite Hv].
  destruct (isEmpty new) eqn:He.
  - right. exists new. pose proof (isEmpty_checks new He) as Hc.
    rewrite He. repeat split; try done; simpl.
    + intros k Hk. rewrite delete_lookup. by case_decide.
    + rewrite delete_lookup. by case_decide.
  - destruct (t !! mid) as [old|] eqn:Hold.
    + unfold update. rewrite Hold.
      rewrite (checks_same _ new) by apply sameFeedback_timestamp.
      destruct (checks new) eqn:Hc; simpl.
      * right. exists new. rewrite He. repeat split; try done.
        -- intros k Hk. by rewrite lookup_insert_ne.
        -- rewrite lookup_insert_eq. eexists. split; [done|].
           apply sameFeedback_timestamp.
      * left. repeat split. intros ? [= <-]. by rewrite Hc, andb_false_r.
    + unfold insert. rewrite Hold.
      destruct (checks new) eqn:Hc; simpl.
      * right. exists new. rewrite He. repeat split; try done.
        -- intros k Hk. by rewrite lookup_insert_ne.
        -- rewrite lookup_insert_eq. eexists. split; [done|].
           apply sameFeedback_refl.
      * left. repeat split. intros ? [= <-]. by rewrite Hc, andb_false_r.
Qed.

(** After an accepted request the entry reads as the merged record. *)
Lemma upsertFeedback_stored (now mid : Z) (b : body) (t : table) :
  let res := upsertFeedback now mid b t in
  (ok res.1 = false ∧ res.2 = t) ∨
  (ok res.1 = true ∧
   ∃ new, merge b (default (blank now) (t !! mid)) = Some new ∧
          sameFeedback (stored mid res.2) new).
Proof.
  destruct (upsertFeedback_cases now mid b t)
    as [(Hok & Ht & _)|(new & Hm & _ & _ & Hok & _ & Hnew)]; [by left|].
  right. split; [done|]. exists new. split; [done|].
  unfold stored. destruct (isEmpty new) eqn:He.
  - rewrite Hnew. simpl. apply sameFeedback_sym. by apply isEmpty_true.
  - destruct Hnew as (r & -> & Hr). exact Hr.
Qed.

(** A POST of a body with a numeric [memory_id] is an upsert. *)
Lemma handle_post (now mid : Z) (b : body) (t : table) :
  field "memory_id" b = Some (JNum mid) ->
  handle now (ResultActionsRatings.post b) t = upsertFeedback now mid b t.
Proof. intros H. unfold handle. simpl. by rewrite H. Qed.

End ApiFacts.

(** ** The claims on feedback *)

Section FeedbackClaims.

Import UserFeedback Api ResultActionsRatings.

Local Open Scope Z_scope.

Lemma mergeNum_absent (k : string) (b : body) (old : option Z) :
  field k b = None -> mergeNum k b old = Some old.
Proof. unfold mergeNum. by intros ->. Qed.

Lemma mergeText_absent (k : string) (b : body) (old : option jsstring) :
  field k b = None -> mergeText k b old = Some old.
Proof. unfold mergeText. by intros ->. Qed.

Lemma mergeBool_absent (k : string) (b : body) (old : bool) :
  field k b = None -> mergeBool k b old = Some old.
Proof. unfold mergeBool. by intros ->. Qed.

Lemma keeps_absent : keeps absent.
Proof.
  intros now mid b t before after. subst before after. unfold absent.
  pose proof (stored_default now mid t) as (Hr & Ha & Hc & Hh & Hx & Hf).
  destruct (upsertFeedback_stored now mid b t)
    as [[_ ->]|(_ & new & Hm & (Hr' & Ha' & Hc' & Hh' & Hx' & Hf'))];
    [by repeat split|].
  apply merge_Some in Hm as (Mr & Ma & Mc & Mh & Mx & Mf & _).
  repeat split; intros Hk.
  - rewrite (mergeNum_absent _ _ _ Hk) in Mr. congruence.
  - rewrite (mergeNum_absent _ _ _ Hk) in Ma. congruence.
  - rewrite (mergeNum_absent _ _ _ Hk) in Mc. congruence.
  - rewrite (mergeNum_absent _ _ _ Hk) in Mh. congruence.
  - rewrite (mergeText_absent _ _ _ Hk) in Mx. congruence.
  - rewrite (mergeBool_absent _ _ _ Hk) in Mf. congruence.
Qed.

(** *** Toggling the favorite flag *)

(** [toggleFavorite] consults the network once, with this request. *)
Lemma toggleFavorite_request {W : Type}
  (fetch1 fetch2 : request -> W -> fetched Feedback.envelope * W)
  (p : Props) (d : Data) (w : W) :
  fetch1 (post [("memory_id", idJson (memoryId p));
                ("is_favorite", JBool (negb (isFavorite d)))]%string) w
  = fetch2 (post [("memory_id", idJson (memoryId p));
                  ("is_favorite", JBool (negb (isFavorite d)))]%string) w ->
  toggleFavorite fetch1 p d w = toggleFavorite fetch2 p d w.
Proof. unfold toggleFavorite, favoriteBody. simpl. by intros ->. Qed.

(** It changes nothing of the form but the flag, and that only once the
    response is ok. *)
Lemma toggleFavorite_local {W : Type}
  (fetch : request -> W -> fetched Feedback.envelope * W)
  (p : Props) (d : Data) (w : W) :
  let d' := (toggleFavorite fetch p d w).1.1 in
  rating d' = rating d ∧ accuracyRating d' = accuracyRating d ∧
  comprehensivenessRating d' = comprehensivenessRating d ∧
  helpfulnessRating d' = helpfulnessRating d ∧
  feedbackText d' = feedbackText d ∧
  existingFeedback d' = existingFeedback d ∧
  showFeedback d' = showFeedback d ∧ isSubmitting d' = false ∧
  isFavorite d'
  = match (fetch (post (favoriteBody p d)) w).1 with
    | Resolved resp => if ok resp then negb (isFavorite d) else isFavorite d
    | Rejected _ => isFavorite d
    end.
Proof.
  unfold toggleFavorite. simpl.
  change (favoriteBody p (set_isSubmitting true d)) with (favoriteBody p d).
  destruct (fetch _ w) as [[resp|m] w']; simpl; [destruct (ok resp)|];
    by repeat split.
Qed.

(** C4: the request of [toggleFavorite] carries the memory id and the new
    value of [is_favorite] and nothing else, and it is the only request;
    whatever the service answers, the legacy rating, the three
    categorical ratings and the comment of the record read as before;
    when the response is ok the stored flag and the flag of the
    component are the new value. *)
Theorem toggleFavorite_frame (now mid : Z) (p : Props) (d : Data) (t : table)
  (r : Feedback.row) :
  memoryId p = Some mid -> t !! mid = Some r ->
  let rq := post [("memory_id", JNum mid);
                  ("is_favorite", JBool (negb (isFavorite d)))]%string in
  let res := toggleFavorite (Api.fetch now) p d t in
  let after := stored mid res.1.2 in
  (∀ (W : Type) (fetch1 fetch2 : request -> W -> fetched Feedback.envelope * W)
     (w : W),
     fetch1 rq w = fetch2 rq w ->
     toggleFavorite fetch1 p d w = toggleFavorite fetch2 p d w) ∧
  res.1.2 = (handle now rq t).2 ∧
  Feedback.rating after = Feedback.rating r ∧
  accuracy_rating after = accuracy_rating r ∧
  comprehensiveness_rating after = comprehensiveness_rating r ∧
  helpfulness_rating after = helpfulness_rating r ∧
  feedback_text after = feedback_text r ∧
  (ok (handle now rq t).1 = true ->
   is_favorite after = negb (isFavorite d) ∧
   isFavorite res.1.1 = negb (isFavorite d)).
Proof.
  intros Hp Hr rq res after.
  assert (favoriteBody p d
          = [("memory_id", JNum mid);
             ("is_favorite", JBool (negb (isFavorite d)))]%string) as Hb
    by (unfold favoriteBody; by rewrite Hp).
  split.
  { intros W fetch1 fetch2 w Hrq. apply toggleFavorite_request.
    subst rq. by rewrite Hp. }
  assert (res.1.2 = (handle now rq t).2) as Ht.
  { subst res rq. unfold toggleFavorite, Api.fetch.
    change (favoriteBody p (set_isSubmitting true d)) with (favoriteBody p d).
    rewrite Hb. destruct (handle now _ t) as [resp t']. simpl.
    by destruct (ok resp). }
  split; [exact Ht|]. subst after. rewrite Ht.
  assert (isFavorite res.1.1
          = if ok (handle now rq t).1 then negb (isFavorite d)
            else isFavorite d) as Hd.
  { pose proof (toggleFavorite_local (Api.fetch now) p d t)
      as (_ & _ & _ & _ & _ & _ & _ & _ & Hfav).
    fold res in Hfav. rewrite Hfav, Hb. unfold Api.fetch. fold rq.
    by destruct (handle now rq t). }
  subst rq. rewrite (handle_post now mid) in * by reflexivity.
  pose proof (keeps_absent now mid
    [("memory_id", JNum mid);
     ("is_favorite", JBool (negb (isFavorite d)))]%string t)
    as (Kr & Ka & Kc & Kh & Kx & _).
  simpl in Kr, Ka, Kc, Kh, Kx.
  assert (stored mid t = r) as Hst by (unfold stored; by rewrite Hr).
  rewrite Hst in *.
  rewrite Kr, Ka, Kc, Kh, Kx by reflexivity.
  repeat split; try reflexivity.
  - destruct (upsertFeedback_stored now mid
      [("memory_id", JNum mid);
       ("is_favorite", JBool (negb (isFavorite d)))]%string t)
      as [[Hno _]|(_ & new & Hm & (_ & _ & _ & _ & _ & Hf'))]; [congruence|].
    apply merge_Some in Hm as (_ & _ & _ & _ & _ & Mf & _).
    rewrite Hf'. unfold mergeBool in Mf. simpl in Mf. by injection Mf as <-.
  - rewrite Hd. by rewrite H.
Qed.

(** Entry 7 with the comment "good", starred from a fresh component. *)
Lemma toggleFavorite_frame_witness :
  let r := {| Feedback.rating := None; accuracy_rating := None;
              comprehensiveness_rating := None; helpfulness_rating := None;
              feedback_text := Some (lit "good"); is_favorite := false;
              updated_at := 1 |} in
  let res := toggleFavorite (Api.fetch 2) entry7 fourStars afterComment in
  (memoryId entry7 = Some 7 ∧ afterComment !! 7 = Some r) ∧
  feedback_text (stored 7 res.1.2) = Some (lit "good") ∧
  is_favorite (stored 7 res.1.2) = true ∧ isFavorite res.1.1 = true.
Proof.
  intros r res.
  assert (memoryId entry7 = Some 7) as Hp by reflexivity.
  assert (afterComment !! 7 = Some r) as Hr by (vm_compute; reflexivity).
  split; [by split|].
  pose proof (toggleFavorite_frame 2 7 entry7 fourStars afterComment r Hp Hr)
    as (_ & _ & _ & _ & _ & _ & Hx & Hok).
  split; [exact Hx|]. apply Hok. vm_compute. reflexivity.
Defined.

(** *** Clearing all feedback *)

(** Once the DELETE is answered ok, every field of the form is back to
    its initial value, whatever the server is. *)
Lemma clearAllFeedback_local {W : Type}
  (fetch : request -> W -> fetched Feedback.envelope * W)
  (p : Props) (d : Data) (w : W) (resp : response Feedback.envelope) :
  (fetch {| req_method := DELETE; req_url := ApiFeedbackOf (memoryId p);
            req_headers := []; req_body := None |} w).1 = Resolved resp ->
  ok resp = true ->
  let res := clearAllFeedback fetch true p d w in
  res.1.1 = {| showFeedback := false; rating := 0; accuracyRating := 0;
               comprehensivenessRating := 0; helpfulnessRating := 0;
               feedbackText := []; isFavorite := false;
               isSubmitting := false; existingFeedback := None |} ∧
  res.2 = [Emit "feedback-cleared"].
Proof.
  unfold clearAllFeedback. simpl.
  destruct (fetch _ w) as [r w']. simpl. intros -> ->. by split.
Qed.

(** C6: after [clearAllFeedback] on an entry, confirmed by the user, the
    record of the entry is gone, a GET for it is answered as not found
    with no feedback, which leaves a later [loadExistingFeedback]
    without effect, and the existing record, the four ratings, the
    comment and the favorite flag of the component are back to their
    initial values. *)
Theorem clearAllFeedback_removes_record (now mid : Z) (p : Props) (d : Data)
  (t : table) :
  memoryId p = Some mid ->
  let res := clearAllFeedback (Api.fetch now) true p d t in
  let d' := res.1.1 in
  let t' := res.1.2 in
  let get := {| req_method := GET; req_url := ApiFeedbackOf (Some mid);
                req_headers := []; req_body := None |} in
  t' !! mid = None ∧
  (∀ k, k ≠ mid -> t' !! k = t !! k) ∧
  (handle now get t').1 = getFeedback mid t' ∧
  ok (getFeedback mid t') = false ∧
  status (getFeedback mid t') = 404 ∧
  json_of (getFeedback mid t')
  = Json {| env_status := lit "error"; env_feedback := None |} ∧
  existingFeedback d' = None ∧
  rating d' = 0 ∧ accuracyRating d' = 0 ∧ comprehensivenessRating d' = 0 ∧
  helpfulnessRating d' = 0 ∧ feedbackText d' = [] ∧ isFavorite d' = false ∧
  showFeedback d' = false ∧ isSubmitting d' = false ∧
  (loadExistingFeedback (Api.fetch now) p d' t').1.1 = d'.
Proof.
  intros Hp res d' t' get.
  assert (res = ({| showFeedback := false; rating := 0; accuracyRating := 0;
                    comprehensivenessRating := 0; helpfulnessRating := 0;
                    feedbackText := []; isFavorite := false;
                    isSubmitting := false; existingFeedback := None |},
                 (delete mid t).2, [Emit "feedback-cleared"])) as Hres.
  { subst res. unfold clearAllFeedback, Api.fetch, handle. simpl.
    by rewrite Hp. }
  subst d' t'. rewrite Hres. simpl.
  assert ((delete mid t).2 !! mid = None) as Hgone
    by (rewrite delete_lookup; by case_decide).
  split; [exact Hgone|].
  split; [intros k Hk; rewrite delete_lookup; by case_decide|].
  split; [reflexivity|].
  unfold getFeedback. rewrite Hgone. simpl.
  repeat split.
  unfold loadExistingFeedback, noMemoryId, Api.fetch, handle. rewrite Hp.
  case_bool_decide; [reflexivity|]. simpl.
  unfold getFeedback. by rewrite Hgone.
Qed.

(** Entry 7 with the comment "good", cleared. *)
Lemma clearAllFeedback_removes_record_witness :
  let res := clearAllFeedback (Api.fetch 3) true entry7 fourStars afterComment in
  memoryId entry7 = Some 7 ∧
  is_Some (afterComment !! 7) ∧
  res.1.2 !! 7 = None ∧
  ok (getFeedback 7 res.1.2) = false ∧
  rating res.1.1 = 0 ∧ existingFeedback res.1.1 = None.
Proof.
  intros res.
  assert (memoryId entry7 = Some 7) as Hp by reflexivity.
  pose proof (clearAllFeedback_removes_record 3 7 entry7 fourStars
                afterComment Hp)
    as (Hgone & _ & _ & Hok & _ & _ & Hex & Hr & _).
  split; [exact Hp|]. split; [eexists; vm_compute; reflexivity|].
  split; [exact Hgone|]. split; [exact Hok|]. split; [exact Hr | exact Hex].
Defined.

(** *** Records are never empty *)








(** A request that is not the front end's: a comment of two spaces for
    an entry without a record is answered and leaves no record; sent to
    entry 7 it takes the comment away, and with it the record. *)
Example blank_comment_not_stored :
  let rq := post [("memory_id", JNum 9); ("feedback_text", JStr (lit "  "))]%string in
  let rq7 := post [("memory_id", JNum 7); ("feedback_text", JStr (lit "  "))]%string in
  ok (handle 2 rq afterComment).1 = true ∧
  (handle 2 rq afterComment).2 !! 9 = None ∧
  is_Some (afterComment !! 7) ∧
  (handle 2 rq7 afterComment).2 !! 7 = None.
Proof.
  repeat split; try by vm_compute. eexists. vm_compute. reflexivity.
Qed.

(** Taking the star off a record that held the star alone removes it. *)
Example last_field_cleared :
  let star := post [("memory_id", JNum 5); ("is_favorite", JBool true)]%string in
  let unstar := post [("memory_id", JNum 5); ("is_favorite", JBool false)]%string in
  let t := (handle 1 star ∅).2 in
  is_Some (t !! 5) ∧ (handle 2 unstar t).2 !! 5 = None.
Proof. split; [eexists|]; vm_compute; reflexivity. Qed.

(** *** A rating out of range in a request *)

(** A request that sets a rating outside 1 to 5 is refused and the table
    stays: the legacy rating by the validation of the handler, the three
    categorical ratings by the constraints of the table. *)
Lemma out_of_range_payload_refused (now mid : Z) (b : body) (t : table)
  (k : string) (n : Z) :
  k ∈ ["rating"; "accuracy_rating"; "comprehensiveness_rating";
       "helpfulness_rating"]%string ->
  field k b = Some (JNum n) -> ¬ (1 ≤ n ≤ 5) ->
  ok (upsertFeedback now mid b t).1 = false ∧ (upsertFeedback now mid b t).2 = t.
Proof.
  intros Hk Hf Hn.
  destruct (upsertFeedback_cases now mid b t)
    as [(Hok & Ht & _)|(new & Hm & Hv & Hc & _)]; [by split|].
  exfalso. apply merge_Some in Hm as (Mr & Ma & Mc & Mh & _).
  unfold valid in Hv. unfold checks in Hc.
  rewrite !andb_true_iff in Hc. destruct Hc as [[Ha Hco] Hh].
  unfold mergeNum in *.
  repeat (apply elem_of_cons in Hk as [->|Hk]); [| | | |by apply elem_of_nil in Hk];
    rewrite Hf in *.
  - injection Mr as Mr. rewrite <- Mr in Hv. simpl in Hv. lia.
  - injection Ma as Ma. rewrite <- Ma in Ha. simpl in Ha. lia.
  - injection Mc as Mc. rewrite <- Mc in Hco. simpl in Hco. lia.
  - injection Mh as Mh. rewrite <- Mh in Hh. simpl in Hh. lia.
Qed.

(** *** The revision with the single rating *)

(** Its [toggleFavorite] sends the same request and nothing else. *)
Lemma toggleFavorite_single_request {W : Type}
  (fetch1 fetch2 : request -> W -> fetched Feedback.envelope * W)
  (p : Props) (d : ResultActions.Data) (w : W) :
  fetch1 (post [("memory_id", idJson (memoryId p));
                ("is_favorite", JBool (negb (ResultActions.isFavorite d)))]%string) w
  = fetch2 (post [("memory_id", idJson (memoryId p));
                  ("is_favorite", JBool (negb (ResultActions.isFavorite d)))]%string) w ->
  ResultActions.toggleFavorite fetch1 p d w
  = ResultActions.toggleFavorite fetch2 p d w.
Proof.
  unfold ResultActions.toggleFavorite, ResultActions.favoriteBody. simpl.
  by intros ->.
Qed.

(** Its submit has the same guard over the one rating. *)
Lemma submitFeedback_single_guard {W : Type}
  (fetch : request -> W -> fetched Feedback.envelope * W)
  (p : Props) (d : ResultActions.Data) (w : W) :
  ResultActions.rating d = 0 -> trim (ResultActions.feedbackText d) = [] ->
  ResultActions.isFavorite d = false ->
  ResultActions.submitFeedback fetch p d w
  = (d, w, [Alert "Please provide at least a rating, comment, or mark as favorite"]).
Proof.
  intros H1 H2 H3. unfold ResultActions.submitFeedback,
    ResultActions.nothingToSubmit.
  rewrite H1, H2, H3. reflexivity.
Qed.

(** Its submit leaves the categorical ratings out of the body, so the
    service keeps them. *)
Lemma submitFeedback_single_keeps_categorical (now mid : Z) (p : Props)
  (d : ResultActions.Data) (t : table) :
  let after := stored mid (upsertFeedback now mid (ResultActions.feedbackBody p d) t).2 in
  accuracy_rating after = accuracy_rating (stored mid t) ∧
  comprehensiveness_rating after = comprehensiveness_rating (stored mid t) ∧
  helpfulness_rating after = helpfulness_rating (stored mid t).
Proof.
  destruct (keeps_absent now mid (ResultActions.feedbackBody p d) t)
    as (_ & Ka & Kc & Kh & _).
  by repeat split; [apply Ka | apply Kc | apply Kh].
Qed.

(** Its [clearAllFeedback] removes the record and resets the form. *)
Lemma clearAllFeedback_single (now mid : Z) (p : Props)
  (d : ResultActions.Data) (t : table) :
  memoryId p = Some mid ->
  ResultActions.clearAllFeedback (Api.fetch now) true p d t
  = ({| ResultActions.showFeedback := false; ResultActions.rating := 0;
        ResultActions.feedbackText := []; ResultActions.isFavorite := false;
        ResultActions.isSubmitting := false;
        ResultActions.existingFeedback := None |},
     (delete mid t).2, [Emit "feedback-cleared"]).
Proof.
  intros Hp. unfold ResultActions.clearAllFeedback, Api.fetch, handle. simpl.
  by rewrite Hp.
Qed.

End FeedbackClaims.

(** * Further properties of the code *)

(** ** [extract_doi_from_filename] *)

Section MigrationFacts.

Import Migration.

Local Open Scope nat_scope.

Lemma removeExtension_last_dot (a e : text) :
  46%N ∉ e -> removeExtension (a ++ 46%N :: e) = a.
Proof.
  intros He.
  assert (forallb (fun x => negb (x =? 46)%N) e = true) as Hall.
  { apply forallb_forall. intros x Hx%list_elem_of_In.
    apply negb_true_iff, N.eqb_neq. by intros ->. }
  induction a as [|c a IH]; simpl.
  - by rewrite Hall.
  - replace (forallb _ (a ++ 46%N :: e)) with false.
    + by rewrite andb_false_r, IH.
    + symmetry. apply not_true_is_false. intros H.
      rewrite forallb_forall in H.
      specialize (H 46%N). rewrite N.eqb_refl in H.
      discriminate H. apply in_or_app. right. by left.
Qed.

Lemma removeExtension_no_dot (s : text) : 46%N ∉ s -> removeExtension s = s.
Proof.
  induction s as [|c s IH]; [done|]. intros [Hc Hs]%not_elem_of_cons. simpl.
  destruct (N.eqb_spec c 46) as [->|_]; [done|]. simpl. by rewrite IH.
Qed.

Lemma removePath_suffix (s : text) : ∃ pre, s = pre ++ removePath s.
Proof.
  induction s as [|c s (pre & IH)]; [by exists []|]. cbn [removePath].
  destruct (existsb _ (c :: s)); [|by exists []].
  exists (c :: pre). simpl. by f_equal.
Qed.

Lemma removePath_no_slash (s : text) : 47%N ∉ s -> removePath s = s.
Proof.
  intros Hs. destruct s as [|c s]; [done|]. cbn [removePath].
  destruct (existsb _ (c :: s)) eqn:E; [|done].
  apply existsb_exists in E as (x & Hx%list_elem_of_In & ->%N.eqb_eq). done.
Qed.

Lemma removePath_last_slash (d b : text) :
  47%N ∉ b -> removePath (d ++ 47%N :: b) = b.
Proof.
  intros Hb. induction d as [|c d IH].
  - cbn [app removePath]. simpl existsb. by apply removePath_no_slash.
  - cbn [app removePath].
    destruct (existsb _ (c :: d ++ 47%N :: b)) eqn:E; [exact IH|].
    apply not_true_iff_false in E. exfalso. apply E. apply existsb_exists.
    exists 47%N. split; [|done]. right. apply in_or_app. right. by left.
Qed.

Lemma replaceFirstHyphen_first (a b : text) :
  45%N ∉ a -> replaceFirstHyphen (a ++ 45%N :: b) = a ++ 47%N :: b.
Proof.
  induction a as [|c a IH]; [done|]. intros [Hc Ha]%not_elem_of_cons. simpl.
  destruct (N.eqb_spec c 45); [congruence|]. by rewrite IH.
Qed.

Lemma digit_not (c x : N) : isDigit c = true -> isDigit x = false -> c ≠ x.
Proof. by intros Hc Hx ->; congruence. Qed.

Lemma digits_without (ds : text) (x : N) :
  Forall (fun c => isDigit c = true) ds -> isDigit x = false -> x ∉ ds.
Proof.
  intros Hds Hx Hin. rewrite Forall_forall in Hds.
  specialize (Hds x Hin). congruence.
Qed.

(** X1: whatever [extract_doi_from_filename] returns passes the
    constraint [valid_doi] of the table [document].  What it returns is
    the name of the file without its directory and its last extension,
    which holds a hyphen, with the first hyphen made a slash. *)
Theorem extract_doi_valid (f : option text) (d : text) :
  extract_doi_from_filename f = Some d ->
  valid_doi (Some d) = true ∧
  ∃ name, f = Some name ∧
          d = replaceFirstHyphen (removePath (removeExtension name)) ∧
          45%N ∈ removePath (removeExtension name).
Proof.
  unfold extract_doi_from_filename. destruct f as [name|]; [|discriminate].
  destruct (startsLikeDoi _ && hasHyphen _) eqn:Hc; [|discriminate].
  destruct (doiPrefix _) eqn:Hp; [|discriminate]. intros [= <-].
  split; [exact Hp|]. exists name. split; [done|]. split; [done|].
  apply andb_true_iff in Hc as [_ Hh]. unfold hasHyphen in Hh.
  apply existsb_exists in Hh as (x & Hx%list_elem_of_In & ->%N.eqb_eq). exact Hx.
Qed.

Lemma extract_doi_valid_witness :
  extract_doi_from_filename (Some (lit "papers/10.1371-journal.pone.0012345.pdf"))
  = Some (lit "10.1371/journal.pone.0012345") ∧
  valid_doi (Some (lit "10.1371/journal.pone.0012345")) = true.
Proof.
  assert (extract_doi_from_filename
            (Some (lit "papers/10.1371-journal.pone.0012345.pdf"))
          = Some (lit "10.1371/journal.pone.0012345")) as H
    by (vm_compute; reflexivity).
  split; [exact H|]. exact (proj1 (extract_doi_valid _ _ H)).
Defined.

(** X2: the round trip of a DOI through its file name.  For a registrant
    of at least four digits, a suffix without a slash and an extension
    without a dot, the file [dir/10.registrant-suffix.ext] gives back
    [10.registrant/suffix], whatever the directory. *)
Theorem extract_doi_round_trip (dir registrant suffix ext : text) :
  dir = [] ∨ (∃ d, dir = d ++ [47%N]) ->
  Forall (fun c => isDigit c = true) registrant -> 4 ≤ length registrant ->
  47%N ∉ suffix -> 46%N ∉ ext ->
  extract_doi_from_filename (Some (doiFile dir registrant suffix ext))
  = Some (lit "10." ++ registrant ++ 47%N :: suffix).
Proof.
  intros Hdir Hdig Hlen Hsfx Hext. unfold extract_doi_from_filename, doiFile.
  set (base := lit "10." ++ registrant ++ 45%N :: suffix).
  assert (47%N ∉ base) as Hbase.
  { subst base. rewrite !not_elem_of_app, not_elem_of_cons.
    split; [by vm_compute; intros H; repeat (apply elem_of_cons in H as [?|H]; [done|]); by apply elem_of_nil in H|].
    split; [by apply digits_without|]. by split. }
  assert (removeExtension (dir ++ lit "10." ++ registrant ++ 45%N :: suffix ++ 46%N :: ext)
          = dir ++ base) as ->.
  { replace (dir ++ lit "10." ++ registrant ++ 45%N :: suffix ++ 46%N :: ext)
      with ((dir ++ base) ++ 46%N :: ext)
      by (subst base; by rewrite <- !app_assoc).
    by apply removeExtension_last_dot. }
  assert (removePath (dir ++ base) = base) as ->.
  { destruct Hdir as [->|(d & ->)].
    - by apply removePath_no_slash.
    - rewrite <- app_assoc. by apply removePath_last_slash. }
  assert (stripPrefix (lit "10.") base = Some (registrant ++ 45%N :: suffix)) as Hstrip
    by by apply stripPrefix_Some.
  assert (startsLikeDoi base = true) as ->.
  { unfold startsLikeDoi. rewrite Hstrip, spanDigits_stop by done.
    simpl. destruct registrant; [simpl in Hlen; lia | done]. }
  assert (hasHyphen base = true) as ->.
  { apply existsb_exists. exists 45%N. split; [|done].
    subst base. apply in_or_app. right. apply in_or_app. right. by left. }
  cbn [andb].
  assert (replaceFirstHyphen base = lit "10." ++ registrant ++ 47%N :: suffix) as ->.
  { subst base. rewrite app_assoc, replaceFirstHyphen_first.
    - by rewrite <- app_assoc.
    - rewrite not_elem_of_app. split; [|by apply digits_without].
      vm_compute. intros H.
      repeat (apply elem_of_cons in H as [?|H]; [done|]). by apply elem_of_nil in H. }
  unfold doiPrefix.
  assert (stripPrefix (lit "10.") (lit "10." ++ registrant ++ 47%N :: suffix)
          = Some (registrant ++ 47%N :: suffix)) as -> by by apply stripPrefix_Some.
  rewrite spanDigits_stop by done.
  apply Nat.leb_le in Hlen. by rewrite Hlen.
Qed.

Lemma extract_doi_round_trip_witness :
  (lit "data/" = [] ∨ (∃ d, lit "data/" = d ++ [47%N])) ∧
  Forall (fun c => isDigit c = true) (lit "3389") ∧
  4 ≤ length (lit "3389") ∧
  (47%N ∉ lit "fvets.2020.00123") ∧ (46%N ∉ lit "pdf") ∧
  extract_doi_from_filename
    (Some (doiFile (lit "data/") (lit "3389") (lit "fvets.2020.00123") (lit "pdf")))
  = Some (lit "10.3389/fvets.2020.00123").
Proof.
  assert (lit "data/" = [] ∨ (∃ d, lit "data/" = d ++ [47%N])) as H1
    by (right; by exists (lit "data")).
  assert (Forall (fun c => isDigit c = true) (lit "3389")) as H2
    by (vm_compute; repeat constructor).
  assert (4 ≤ length (lit "3389")) as H3 by (vm_compute; lia).
  assert (47%N ∉ lit "fvets.2020.00123") as H4.
  { intros H%list_elem_of_In. vm_compute in H. intuition discriminate. }
  assert (46%N ∉ lit "pdf") as H5.
  { intros H%list_elem_of_In. vm_compute in H. intuition discriminate. }
  repeat (split; [assumption|]).
  exact (extract_doi_round_trip _ _ _ _ H1 H2 H3 H4 H5).
Defined.

(** X3: a name with at most one dot yields NULL, and so does NULL: the
    dot of ["10."] is then the one the extension is cut at.  A file
    named after its DOI without an extension is not recognized. *)
Theorem extract_doi_needs_extension :
  extract_doi_from_filename None = None ∧
  (∀ f, 46%N ∉ f -> extract_doi_from_filename (Some f) = None) ∧
  (∀ a e, 46%N ∉ a -> 46%N ∉ e ->
          extract_doi_from_filename (Some (a ++ 46%N :: e)) = None).
Proof.
  assert (∀ s, 46%N ∉ s -> startsLikeDoi (removePath s) = false) as Hno.
  { intros s Hs. unfold startsLikeDoi.
    destruct (stripPrefix _ _) as [r|] eqn:E; [|done].
    apply stripPrefix_Some in E. exfalso. apply Hs.
    destruct (removePath_suffix s) as (pre & ->). rewrite E.
    apply elem_of_app. right. apply elem_of_app. left.
    vm_compute. right. right. left. }
  split; [done|]. split.
  - intros f Hf. unfold extract_doi_from_filename.
    by rewrite removeExtension_no_dot, Hno.
  - intros a e Ha He. unfold extract_doi_from_filename.
    by rewrite removeExtension_last_dot, Hno.
Qed.

End MigrationFacts.

(** ** The links of a reference in [views/HomeView.vue] *)

Section ReferenceFacts.

Import HomeViewReferences.

Local Open Scope nat_scope.

Lemma spanNonSpace_spec (s run r : jsstring) :
  spanNonSpace s = (run, r) ->
  s = run ++ r ∧ Forall (fun c => isWhiteSpace c = false) run ∧ stopsAt r.
Proof.
  revert run r. induction s as [|c s IH]; simpl; intros run r.
  - intros [= <- <-]. repeat split; [constructor | by left].
  - destruct (isWhiteSpace c) eqn:Hc.
    + intros [= <- <-]. repeat split; [constructor|]. right. by exists c, s.
    + destruct (spanNonSpace s) as [run' r'] eqn:E. intros [= <- <-].
      destruct (IH _ _ eq_refl) as (-> & Hrun & Hstop).
      repeat split; [by constructor | done].
Qed.

Lemma someNonSpace_spec (s run r : jsstring) :
  someNonSpace s = Some (run, r) ->
  s = run ++ r ∧ run ≠ [] ∧ Forall (fun c => isWhiteSpace c = false) run ∧
  stopsAt r.
Proof.
  unfold someNonSpace. destruct (spanNonSpace s) as [[|c run'] r'] eqn:E;
    [discriminate|]. intros [= <- <-].
  destruct (spanNonSpace_spec _ _ _ E) as (-> & Hrun & Hstop). by repeat split.
Qed.

(** The units a letter of a pattern matches. *)
Lemma sameLetter_cases (p c : N) :
  sameLetter p c = true -> c = p ∨ c = (p - 32)%N.
Proof.
  unfold sameLetter. rewrite orb_true_iff, !andb_true_iff, !N.eqb_eq. tauto.
Qed.

Lemma stripPrefix_app (p r : jsstring) : stripPrefix p (p ++ r) = Some r.
Proof. by apply stripPrefix_Some. Qed.

Lemma stripPrefixI_spec (p s m r : jsstring) :
  stripPrefixI p s = Some (m, r) ->
  s = m ++ r ∧ Forall2 (fun a c => sameLetter a c = true) p m.
Proof.
  revert s m r. induction p as [|a p IH]; intros s m r; simpl.
  - intros [= <- <-]. by split.
  - destruct s as [|b s]; [discriminate|].
    destruct (sameLetter a b) eqn:Hab; [|discriminate].
    destruct (stripPrefixI p s) as [[m' r']|] eqn:E; [|discriminate].
    intros [= <- <-]. destruct (IH _ _ _ E) as (-> & Hm).
    split; [done|]. by constructor.
Qed.

Lemma stripPrefixI_matched (p m t : jsstring) :
  Forall2 (fun a c => sameLetter a c = true) p m ->
  stripPrefixI p (m ++ t) = Some (m, t).
Proof.
  induction 1 as [|a c p m Hac _ IH]; [done|]. simpl. by rewrite Hac, IH.
Qed.

(** What matched one of the literals of the two patterns holds no white
    space. *)
Lemma literal_not_space (p m : jsstring) :
  Forall (fun a => isWhiteSpace a = false ∧ isWhiteSpace (a - 32)%N = false) p ->
  Forall2 (fun a c => sameLetter a c = true) p m ->
  Forall (fun c => isWhiteSpace c = false) m.
Proof.
  intros Hp Hm. induction Hm as [|a c p m Hac _ IH]; [constructor|].
  apply Forall_cons in Hp as [[H1 H2] Hp].
  constructor; [|by apply IH].
  by apply sameLetter_cases in Hac as [->| ->].
Qed.

Lemma matchHttp_spec (s u rest : jsstring) :
  matchHttp s = Some (u, rest) ->
  s = u ++ rest ∧ Forall (fun c => isWhiteSpace c = false) u ∧
  is_Some (stripPrefixI (lit "http") u) ∧ stopsAt rest.
Proof.
  unfold matchHttp, mbind, option_bind.
  destruct (stripPrefixI (lit "http") s) as [[http r]|] eqn:Eh; [|cbn beta iota; discriminate].
  cbn beta iota. destruct (stripPrefixI_spec _ _ _ _ Eh) as (-> & Hh).
  assert (Forall (fun c => isWhiteSpace c = false) http) as Hhttp.
  { eapply literal_not_space; [|exact Hh]. vm_compute. repeat constructor. }
  assert (∀ t, is_Some (stripPrefixI (lit "http") (http ++ t))) as Hpre.
  { intros t. rewrite (stripPrefixI_matched _ _ _ Hh). by eexists. }
  destruct r as [|c t]; [cbn beta iota; discriminate|].
  assert (∀ (base x : jsstring) (sep r1 : jsstring),
    Forall (fun c => isWhiteSpace c = false) base ->
    stripPrefixI (lit "://") x = Some (sep, r1) ->
    x = sep ++ r1 ∧ Forall (fun c => isWhiteSpace c = false) (base ++ sep))
    as Hsep.
  { intros base x sep r1 Hb E. destruct (stripPrefixI_spec _ _ _ _ E) as (-> & Hs).
    split; [done|]. apply Forall_app. split; [done|].
    eapply literal_not_space; [|exact Hs]. vm_compute. repeat constructor. }
  destruct (sameLetter 115 c) eqn:Hc.
  - destruct (stripPrefixI (lit "://") t) as [[sep r1]|] eqn:Es; [|cbn beta iota; discriminate].
    cbn beta iota. destruct (someNonSpace r1) as [[run rest']|] eqn:En; [|cbn beta iota; discriminate].
    cbn beta iota. intros [= <- <-].
    destruct (someNonSpace_spec _ _ _ En) as (-> & _ & Hrun & Hstop).
    assert (isWhiteSpace c = false) as Hcw.
    { apply sameLetter_cases in Hc as [->| ->]; reflexivity. }
    destruct (Hsep (http ++ [c]) t sep (run ++ rest')) as (-> & Hall); [|done|].
    { apply Forall_app. split; [done | by repeat constructor]. }
    rewrite <- app_assoc in Hall. simpl in Hall.
    repeat split.
    + by rewrite <- !app_assoc.
    + apply Forall_app. by split.
    + rewrite <- app_assoc. apply Hpre.
    + done.
  - destruct (stripPrefixI (lit "://") (c :: t)) as [[sep r1]|] eqn:Es;
      [|cbn beta iota; discriminate].
    cbn beta iota. destruct (someNonSpace r1) as [[run rest']|] eqn:En; [|cbn beta iota; discriminate].
    cbn beta iota. intros [= <- <-].
    destruct (someNonSpace_spec _ _ _ En) as (-> & _ & Hrun & Hstop).
    destruct (Hsep http (c :: t) sep (run ++ rest')) as (Heq & Hall); [done..|].
    rewrite Heq. repeat split.
    + by rewrite <- !app_assoc.
    + apply Forall_app. by split.
    + rewrite <- app_assoc. apply Hpre.
    + done.
Qed.

(** A literal without letters matches itself only. *)
Lemma sameLetter_exact (p m : jsstring) :
  Forall (fun a => (a <? 97)%N = true) p ->
  Forall2 (fun a c => sameLetter a c = true) p m -> m = p.
Proof.
  intros Hp Hm. induction Hm as [|a c p m Hac _ IH]; [done|].
  apply Forall_cons in Hp as [Ha Hp]. f_equal; [|by apply IH].
  unfold sameLetter in Hac. apply N.ltb_lt in Ha.
  apply orb_true_iff in Hac as [?%N.eqb_eq|Hac]; [done|].
  apply andb_true_iff in Hac as [Hl _].
  apply andb_true_iff in Hl as [Hl%N.leb_le _]. lia.
Qed.

Lemma digit_not_space (d : N) : isDigit d = true -> isWhiteSpace d = false.
Proof.
  unfold isDigit. intros [H1%N.leb_le H2%N.leb_le]%andb_true_iff.
  unfold isWhiteSpace.
  repeat (apply orb_false_iff; split); try (apply N.eqb_neq; lia).
  apply andb_false_iff. left. apply N.leb_gt. lia.
Qed.

Lemma matchDoi_spec (s doi rest : jsstring) :
  matchDoi s = Some (doi, rest) ->
  ∃ tag, s = tag ++ doi ++ rest ∧
         stripPrefixI (lit "doi:") tag = Some (tag, []) ∧
         is_Some (stripPrefix (lit "10.") doi) ∧
         Forall (fun c => isWhiteSpace c = false) doi ∧ stopsAt rest.
Proof.
  unfold matchDoi, mbind, option_bind.
  destruct (stripPrefixI (lit "doi:") s) as [[tag r]|] eqn:Et; [|cbn beta iota; discriminate].
  cbn beta iota. destruct (stripPrefixI (lit "10.") r) as [[ten r1]|] eqn:E10;
    [|cbn beta iota; discriminate]. cbn beta iota.
  pose proof (spanDigits_app r1) as Happ.
  pose proof (spanDigits_digits r1) as Hdig.
  destruct (spanDigits r1) as [[|x digits] [|c r2]]; try discriminate.
  simpl in Happ, Hdig.
  destruct (N.eqb_spec c 47) as [->|]; [|cbn beta iota; discriminate].
  destruct (someNonSpace r2) as [[run rest']|] eqn:En; [|cbn beta iota; discriminate].
  cbn beta iota. intros [= <- <-].
  destruct (someNonSpace_spec _ _ _ En) as (-> & _ & Hrun & Hstop).
  destruct (stripPrefixI_spec _ _ _ _ Et) as (-> & Htag).
  destruct (stripPrefixI_spec _ _ _ _ E10) as (-> & Hten).
  assert (ten = lit "10.") as ->.
  { apply sameLetter_exact; [|exact Hten]. vm_compute. repeat constructor. }
  exists tag. split; [|split; [|split; [|split]]].
  - rewrite Happ. f_equal. rewrite <- app_assoc. f_equal. simpl. f_equal.
    rewrite <- app_assoc. reflexivity.
  - pose proof (stripPrefixI_matched _ _ [] Htag) as Hm.
    by rewrite app_nil_r in Hm.
  - rewrite stripPrefix_app. by eexists.
  - apply Forall_app. split; [vm_compute; repeat constructor|].
    apply Forall_cons in Hdig as [Hx Hdig].
    constructor; [by apply digit_not_space|].
    apply Forall_app. split.
    + eapply Forall_impl; [exact Hdig|]. intros d Hd. by apply digit_not_space.
    + by constructor.
  - done.
Qed.

Lemma search_Some {A : Type} (m : jsstring -> option A) (s before : jsstring)
  (x : A) :
  search m s = Some (before, x) -> ∃ rest, s = before ++ rest ∧ m rest = Some x.
Proof.
  revert before. induction s as [|c s IH]; intros before; simpl.
  - destruct (m []) eqn:E; [|discriminate]. intros [= <- <-]. by exists [].
  - destruct (m (c :: s)) eqn:E.
    + intros [= <- <-]. by exists (c :: s).
    + destruct (search m s) as [[b y]|] eqn:Es; [|discriminate].
      intros [= <- <-]. destruct (IH _ eq_refl) as (rest & -> & Hr).
      by exists rest.
Qed.

Lemma search_is_Some {A : Type} (m : jsstring -> option A) (s : jsstring) :
  is_Some (search m s) ↔ ∃ before rest, s = before ++ rest ∧ is_Some (m rest).
Proof.
  split.
  - intros [[before x] H]. destruct (search_Some _ _ _ _ H) as (rest & -> & Hr).
    by exists before, rest.
  - intros (before & rest & -> & [x Hx]).
    induction before as [|c before IH]; simpl.
    + destruct rest; simpl; rewrite Hx; by eexists.
    + destruct (m (c :: before ++ rest)); [by eexists|].
      destruct IH as [[b y] ->]. by eexists.
Qed.

(** X4: [isValidUrl] and [openReference] agree: a reference is a valid
    URL for the one exactly when the other opens a window for it. *)
Theorem isValidUrl_iff_opens (ref : jsstring) :
  isValidUrl ref = true ↔ is_Some (openReference ref).
Proof.
  unfold isValidUrl, openReference.
  set (alt := fun s => match matchHttp s with Some x => Some x | None => matchDoi s end).
  assert (is_Some (search alt ref) ↔
          is_Some (search matchHttp ref) ∨ is_Some (search matchDoi ref)) as Halt.
  { rewrite !search_is_Some. split.
    - intros (b & r & -> & Hr). subst alt. simpl in Hr.
      destruct (matchHttp r) eqn:E.
      + left. exists b, r. split; [done|]. by rewrite E.
      + right. by exists b, r.
    - intros [(b & r & -> & Hr)|(b & r & -> & Hr)]; exists b, r; (split; [done|]);
        subst alt; simpl.
      + by destruct (matchHttp r).
      + destruct (matchHttp r); [by eexists | done]. }
  destruct (search alt ref) as [p|] eqn:Ea.
  - split; [intros _|done].
    destruct (proj1 Halt (ex_intro _ p eq_refl)) as [[[b [u r]] ->]|[[b [d r]] Hd]].
    + by eexists.
    + destruct (search matchHttp ref) as [[? [? ?]]|]; [by eexists|].
      rewrite Hd. by eexists.
  - split; [discriminate|]. intros Hopen. exfalso.
    assert (¬ is_Some (None : option (jsstring * (jsstring * jsstring)))) as Hn
      by (intros [? [=]]).
    apply Hn, Halt.
    destruct (search matchHttp ref) as [p|]; [left; by eexists|].
    destruct (search matchDoi ref) as [p|]; [right; by eexists|].
    by destruct Hopen.
Qed.

(** X5: the URL [openReference] opens holds no white space.  It is
    either a part of the reference that starts with [http] in any case
    and runs up to the next white space or the end, the leftmost such
    part; or, when the reference has no such part, [https://doi.org/]
    before the DOI that follows the leftmost [doi:] tag, which starts
    with [10.] and runs up to the next white space or the end. *)
Theorem openReference_url (ref u : jsstring) :
  openReference ref = Some u ->
  Forall (fun c => isWhiteSpace c = false) u ∧
  ((∃ before rest,
      ref = before ++ u ++ rest ∧ is_Some (stripPrefixI (lit "http") u) ∧
      stopsAt rest) ∨
   (search matchHttp ref = None ∧
    ∃ before tag doi rest,
      u = lit "https://doi.org/" ++ doi ∧ ref = before ++ tag ++ doi ++ rest ∧
      stripPrefixI (lit "doi:") tag = Some (tag, []) ∧
      is_Some (stripPrefix (lit "10.") doi) ∧ stopsAt rest)).
Proof.
  unfold openReference.
  destruct (search matchHttp ref) as [[before [url rest]]|] eqn:Eh.
  - intros [= <-]. destruct (search_Some _ _ _ _ Eh) as (r & -> & Hm).
    destruct (matchHttp_spec _ _ _ Hm) as (-> & Hall & Hpre & Hstop).
    split; [done|]. left. by exists before, rest.
  - destruct (search matchDoi ref) as [[before [doi rest]]|] eqn:Ed; [|discriminate].
    intros [= <-]. destruct (search_Some _ _ _ _ Ed) as (r & -> & Hm).
    destruct (matchDoi_spec _ _ _ Hm) as (tag & -> & Htag & Hten & Hall & Hstop).
    split.
    + change (Forall (fun c => isWhiteSpace c = false)
                (lit "https://doi.org/" ++ doi)).
      apply Forall_app. split; [vm_compute; repeat constructor | done].
    + right. split; [done|]. by exists before, tag, doi, rest.
Qed.

Lemma openReference_url_witness :
  openReference (lit "Rich KM (2014). Value chains. doi:10.3390/ani4010001 (open)")
  = Some (lit "https://doi.org/10.3390/ani4010001") ∧
  Forall (fun c => isWhiteSpace c = false) (lit "https://doi.org/10.3390/ani4010001").
Proof.
  assert (openReference
            (lit "Rich KM (2014). Value chains. doi:10.3390/ani4010001 (open)")
          = Some (lit "https://doi.org/10.3390/ani4010001")) as H
    by (vm_compute; reflexivity).
  split; [exact H | exact (proj1 (openReference_url _ _ H))].
Defined.

End ReferenceFacts.

(** ** [String.prototype.trim] as the forms use it *)

Section TrimFacts.

Local Open Scope nat_scope.

Lemma trimStart_split (s : jsstring) :
  ∃ pre, s = pre ++ trimStart s ∧ Forall (fun c => isWhiteSpace c = true) pre.
Proof.
  induction s as [|c s (pre & Hs & Hpre)]; [by exists []|]. simpl.
  destruct (isWhiteSpace c) eqn:Hc.
  - exists (c :: pre). split; [simpl; by f_equal | by constructor].
  - by exists [].
Qed.

Lemma trimStart_id (c : N) (r : jsstring) :
  isWhiteSpace c = false -> trimStart (c :: r) = c :: r.
Proof. simpl. by intros ->. Qed.

(** A text that ends in a unit that is not white space keeps it when
    its start is trimmed. *)
Lemma trimStart_keeps_last (a : jsstring) (c : N) :
  isWhiteSpace c = false -> ∃ u, trimStart (a ++ [c]) = u ++ [c].
Proof.
  intros Hc. induction a as [|x a (u & IH)]; simpl.
  - rewrite Hc. by exists [].
  - destruct (isWhiteSpace x); [by exists u|]. by exists (x :: a).
Qed.

Lemma trimEnd_split (s : jsstring) :
  ∃ post, s = trimEnd s ++ post ∧ Forall (fun c => isWhiteSpace c = true) post.
Proof.
  unfold trimEnd. destruct (trimStart_split (reverse s)) as (pre & Hs & Hpre).
  exists (reverse pre). split.
  - rewrite <- reverse_app, <- Hs. by rewrite reverse_involutive.
  - by apply Forall_reverse.
Qed.

(** X6: [trim] cuts white space at the two ends and nothing else.  The
    text is the trimmed text between a run of white space and another;
    the trimmed text neither starts nor ends with white space, is empty
    exactly when the text is blank, and trimming it again changes
    nothing.  So the comment a submit sends is null or a text that is
    not empty and not padded. *)
Theorem trim_ends (s : jsstring) :
  (∃ pre post, s = pre ++ trim s ++ post ∧
     Forall (fun c => isWhiteSpace c = true) pre ∧
     Forall (fun c => isWhiteSpace c = true) post) ∧
  (∀ c r, trim s = c :: r -> isWhiteSpace c = false) ∧
  (∀ r c, trim s = r ++ [c] -> isWhiteSpace c = false) ∧
  (trim s = [] ↔ Forall (fun c => isWhiteSpace c = true) s) ∧
  trim (trim s) = trim s ∧
  (ResultActionsRatings.trimmedOrNull s = JNull ∨
   ∃ t, ResultActionsRatings.trimmedOrNull s = JStr t ∧ t ≠ [] ∧ trim t = t).
Proof.
  assert (∀ c r, trim s = c :: r -> isWhiteSpace c = false) as Hfirst.
  { unfold trim, trimEnd. intros c r H.
    destruct (trimStart s) as [|x t] eqn:Et; [by rewrite reverse_nil in H|].
    destruct (trimStart_head _ _ _ Et) as [Hx _].
    rewrite reverse_cons in H.
    destruct (trimStart_keeps_last (reverse t) x Hx) as (u & Hu).
    rewrite Hu, reverse_app in H. simpl in H. by injection H as <- _. }
  assert (∀ r c, trim s = r ++ [c] -> isWhiteSpace c = false) as Hlast.
  { unfold trim, trimEnd. intros r c H.
    apply (f_equal reverse) in H.
    rewrite reverse_involutive, reverse_app in H. simpl in H.
    by destruct (trimStart_head _ _ _ H). }
  assert (trim (trim s) = trim s) as Hidem.
  { destruct (trim s) as [|c r] eqn:E; [done|].
    pose proof (Hfirst c r eq_refl) as Hc.
    unfold trim at 1. rewrite (trimStart_id c r Hc). unfold trimEnd.
    destruct (reverse (c :: r)) as [|x u] eqn:Er.
    { apply (f_equal reverse) in Er. by rewrite reverse_involutive in Er. }
    assert (isWhiteSpace x = false) as Hx.
    { apply (Hlast (reverse u) x). rewrite <- E at 1.
      rewrite E, <- (reverse_involutive (c :: r)), Er, reverse_cons. done. }
    rewrite (trimStart_id x u Hx), <- Er. apply reverse_involutive. }
  split; [|split; [exact Hfirst|split; [exact Hlast|split; [apply trim_nil_iff|split; [exact Hidem|]]]]].
  - destruct (trimStart_split s) as (pre & Hs & Hpre).
    destruct (trimEnd_split (trimStart s)) as (post & Ht & Hpost).
    exists pre, post. split; [|by split].
    unfold trim. by rewrite <- Ht.
  - unfold ResultActionsRatings.trimmedOrNull.
    destruct (trim s) as [|c r] eqn:E; [by left|]. right.
    exists (c :: r). split; [done|]. split; [done|]. exact Hidem.
Qed.

End TrimFacts.

(** ** Further properties of ResultActions *)

Section FormFacts.

Import ResultActionsRatings FeedbackForm Network.

Local Open Scope Z_scope.

(** X7: every method that starts a request ends with [isSubmitting]
    false, whatever the network does, and those that do not start one
    leave the component and the world as they were. *)
Theorem isSubmitting_released {W : Type}
  (fetch : request -> W -> fetched Feedback.envelope * W)
  (p : Props) (d : Data) (w : W) :
  isSubmitting (toggleFavorite fetch p d w).1.1 = false ∧
  isSubmitting (clearAllFeedback fetch true p d w).1.1 = false ∧
  (nothingToSubmit d = false ->
   isSubmitting (submitFeedback fetch p d w).1.1 = false) ∧
  (nothingToSubmit d = true -> (submitFeedback fetch p d w).1 = (d, w)) ∧
  clearAllFeedback fetch false p d w = (d, w, []).
Proof.
  split; [|split; [|split; [|split]]].
  - unfold toggleFavorite. destruct (fetch _ w) as [[resp|m] w1];
      [destruct (ok resp)|]; reflexivity.
  - unfold clearAllFeedback. simpl. destruct (fetch _ w) as [[resp|m] w1];
      [destruct (ok resp)|]; reflexivity.
  - intros Hn. unfold submitFeedback. rewrite Hn.
    destruct (fetch _ w) as [[resp|m] w1]; [destruct (ok resp)|];
      try reflexivity.
    destruct (loadExistingFeedback fetch p _ w1) as [[d' w'] out]. reflexivity.
  - intros Hn. unfold submitFeedback. by rewrite Hn.
  - reflexivity.
Qed.

(** X8: [loadExistingFeedback] never changes the favorite flag, the
    dialog or the submitting flag of the component; it sends nothing for
    a memory id that is null or 0; and it leaves the whole form alone
    unless the response is ok with a JSON body whose status is
    ['success']. *)
Theorem loadExistingFeedback_frame {W : Type}
  (fetch : request -> W -> fetched Feedback.envelope * W)
  (p : Props) (d : Data) (w : W) :
  let res := loadExistingFeedback fetch p d w in
  let get := {| req_method := GET; req_url := ApiFeedbackOf (memoryId p);
                req_headers := []; req_body := None |} in
  isFavorite res.1.1 = isFavorite d ∧
  showFeedback res.1.1 = showFeedback d ∧
  isSubmitting res.1.1 = isSubmitting d ∧
  (memoryId p = None ∨ memoryId p = Some 0 -> res = (d, w, [])) ∧
  (res.1.1 ≠ d ->
   ∃ resp env, (fetch get w).1 = Resolved resp ∧ ok resp = true ∧
               json_of resp = Json env ∧ env_status env = lit "success") ∧
  (memoryId p ≠ None -> memoryId p ≠ Some 0 -> res.1.2 = (fetch get w).2).
Proof.
  intros res get. subst res. unfold loadExistingFeedback.
  destruct (noMemoryId p) eqn:Hno.
  - repeat split; try done; intros; try done.
    unfold noMemoryId in Hno. destruct (memoryId p) as [n|]; [|done].
    apply bool_decide_eq_true in Hno. by subst.
  - fold get. assert (memoryId p ≠ None ∧ memoryId p ≠ Some 0) as [H1 H2].
    { unfold noMemoryId in Hno. destruct (memoryId p) as [n|]; [|done].
      apply bool_decide_eq_false in Hno. split; [done | congruence]. }
    destruct (fetch get w) as [[resp|m] w1] eqn:E; simpl.
    + destruct (ok resp) eqn:Hok; [|repeat split; try done; by intros [?|?]].
      destruct (json_of resp) as [env|m] eqn:Hj;
        [|repeat split; try done; by intros [?|?]].
      case_bool_decide as Hs; [|repeat split; try done; by intros [?|?]].
      destruct (env_feedback env) as [fb|]; simpl.
      * repeat split; try done; [by intros [?|?]|]. intros _. by exists resp, env.
      * repeat split; try done; [by intros [?|?]|]. intros _. by exists resp, env.
    + repeat split; try done; by intros [?|?].
Qed.

(** X9: what a load puts into the form, the next submit sends back.  For
    a clean record the body of the submit after a load carries the
    ratings and the comment of the record unchanged; its [is_favorite]
    is the flag of the component, not the one of the record. *)
Theorem load_then_submit (p : Props) (d : Data) (fb : Feedback.row) :
  clean fb ->
  feedbackBody p (loaded fb d)
  = [("memory_id", idJson (memoryId p));
     ("rating", jsonOfNum (Feedback.rating fb));
     ("accuracy_rating", jsonOfNum (accuracy_rating fb));
     ("comprehensiveness_rating", jsonOfNum (comprehensiveness_rating fb));
     ("helpfulness_rating", jsonOfNum (helpfulness_rating fb));
     ("feedback_text", jsonOfText (feedback_text fb));
     ("is_favorite", JBool (isFavorite d))]%string.
Proof.
  intros (Hr & Ha & Hc & Hh & Hx).
  assert (∀ x : option Z, (∀ v, x = Some v -> 0 < v) ->
          positiveOrNull (orZero x) = jsonOfNum x) as Hnum.
  { intros [v|] Hv; [|reflexivity]. simpl. unfold positiveOrNull.
    specialize (Hv v eq_refl). apply Z.ltb_lt in Hv. by rewrite Hv. }
  unfold feedbackBody, loaded. simpl.
  rewrite !Hnum by assumption.
  repeat f_equal. unfold trimmedOrNull, orEmpty.
  destruct (feedback_text fb) as [t|]; [|reflexivity]. simpl.
  destruct (Hx t eq_refl) as [Hne ->]. by destruct t.
Qed.

Lemma load_then_submit_witness :
  clean starred ∧
  Http.field "is_favorite"
    (feedbackBody answer7 (loaded starred (data answer7)))
  = Some (JBool false) ∧
  Http.field "rating"
    (feedbackBody answer7 (loaded starred (data answer7)))
  = Some (JNum 4).
Proof.
  assert (clean starred) as H.
  { unfold clean, starred; simpl.
    split; [intros v [= <-]; lia|]. split; [intros v [= <-]; lia|].
    split; [intros v [=]|]. split; [intros v [= <-]; lia|].
    intros txt [= <-]. split; [discriminate | by vm_compute]. }
  split; [exact H|].
  rewrite (load_then_submit answer7 (data answer7) starred H).
  split; reflexivity.
Defined.

(** X10: the favorite flag of the component changes only when the
    server answers ok, and the second of two toggles that both succeed
    asks for the value the first one replaced and puts the component
    back as it was. *)
Theorem toggleFavorite_twice {W : Type}
  (fetch : request -> W -> fetched Feedback.envelope * W)
  (p : Props) (d : Data) (w : W) :
  let first := toggleFavorite fetch p d w in
  let back := post [("memory_id", idJson (memoryId p));
                    ("is_favorite", JBool (isFavorite d))]%string in
  (isFavorite first.1.1 ≠ isFavorite d ->
   ∃ resp, (fetch (post (favoriteBody p d)) w).1 = Resolved resp ∧
           ok resp = true) ∧
  (∀ resp1 resp2 w1 w2,
     fetch (post (favoriteBody p d)) w = (Resolved resp1, w1) ->
     ok resp1 = true ->
     fetch back w1 = (Resolved resp2, w2) -> ok resp2 = true ->
     first = (set_isSubmitting false (set_isFavorite (negb (isFavorite d)) d),
              w1, [EmitFavorite (negb (isFavorite d))]) ∧
     toggleFavorite fetch p first.1.1 first.1.2
     = (set_isSubmitting false d, w2, [EmitFavorite (isFavorite d)])).
Proof.
  intros first back. subst first. split.
  - unfold toggleFavorite.
    change (favoriteBody p (set_isSubmitting true d)) with (favoriteBody p d).
    destruct (fetch (post (favoriteBody p d)) w) as [[resp|m] w1]; simpl;
      [|done]. destruct (ok resp) eqn:Hok; [|done]. intros _. by exists resp.
  - intros resp1 resp2 w1 w2 H1 Hok1 H2 Hok2.
    assert (toggleFavorite fetch p d w
            = (set_isSubmitting false
                 (set_isFavorite (negb (isFavorite d)) d), w1,
               [EmitFavorite (negb (isFavorite d))])) as ->.
    { unfold toggleFavorite.
      change (favoriteBody p (set_isSubmitting true d)) with (favoriteBody p d).
      rewrite H1, Hok1. reflexivity. }
    split; [reflexivity|]. unfold toggleFavorite. simpl.
    assert (post (favoriteBody p (set_isSubmitting true (set_isSubmitting false
              (set_isFavorite (negb (isFavorite d)) d)))) = back) as ->.
    { unfold back, favoriteBody. simpl. by rewrite negb_involutive. }
    rewrite H2, Hok2, negb_involutive. reflexivity.
Qed.

(** X11: a submit that has something to send.  When the POST is rejected
    or answered not ok, the form keeps what the user entered, the dialog
    stays as it is, the user is alerted and nothing else is requested.
    When it is answered ok, the dialog closes, the favorite flag is
    kept, ['feedback-submitted'] is emitted last even if the reload
    fails, and for a memory id that is null or 0 nothing is reloaded. *)
Theorem submitFeedback_outcome {W : Type}
  (fetch : request -> W -> fetched Feedback.envelope * W)
  (p : Props) (d : Data) (w : W) :
  nothingToSubmit d = false ->
  let sent := fetch (post (feedbackBody p d)) w in
  let res := submitFeedback fetch p d w in
  ((∀ resp, sent.1 = Resolved resp -> ok resp = false) ->
   res.1 = (set_isSubmitting false d, sent.2) ∧
   last res.2 = Some (Alert "Failed to submit feedback. Please try again.")) ∧
  (∀ resp, sent.1 = Resolved resp -> ok resp = true ->
   showFeedback res.1.1 = false ∧
   isFavorite res.1.1 = isFavorite d ∧
   last res.2 = Some (Emit "feedback-submitted") ∧
   (noMemoryId p = true ->
    res = (set_isSubmitting false (set_showFeedback false d), sent.2,
           [Emit "feedback-submitted"]))).
Proof.
  intros Hn sent res. subst sent res. unfold submitFeedback. rewrite Hn.
  change (feedbackBody p (set_isSubmitting true d)) with (feedbackBody p d).
  destruct (fetch (post (feedbackBody p d)) w) as [[resp|m] w1]; simpl.
  - split.
    + intros Hno. rewrite (Hno resp eq_refl). by split.
    + intros resp' [= <-] ->.
      pose proof (loadExistingFeedback_frame fetch p
                    (set_showFeedback false (set_isSubmitting true d)) w1)
        as (Hf & Hs & _ & _).
      destruct (loadExistingFeedback fetch p _ w1) as [[d' w'] out] eqn:E.
      simpl in *. split; [exact Hs|]. split; [exact Hf|].
      split; [apply last_snoc|].
      intros Hid. unfold loadExistingFeedback in E. rewrite Hid in E.
      by injection E as <- <- <-.
  - split; [by split | by intros resp [=]].
Qed.

Lemma submitFeedback_outcome_witness :
  nothingToSubmit fourStarForm = false ∧
  (submitFeedback (@offline unit) answer7 fourStarForm ()).1
  = (fourStarForm, ()).
Proof.
  split; [reflexivity|].
  destruct (submitFeedback_outcome (@offline unit) answer7 fourStarForm ()
              eq_refl) as [H _].
  destruct H as [H _]; [by intros resp [=]|].
  exact H.
Defined.

End FormFacts.

(** ** The title of a chunk card *)

Section TitleFacts.

Import HomeViewReferences HomeViewTitles.

Local Open Scope nat_scope.

Lemma span_app (f : N -> bool) (run r : jsstring) :
  Forall (fun c => f c = true) run ->
  (r = [] ∨ ∃ c r', r = c :: r' ∧ f c = false) ->
  span f (run ++ r) = (run, r).
Proof.
  intros Hrun Hr. induction Hrun as [|c run Hc _ IH]; simpl.
  - destruct Hr as [-> | (c & r' & -> & Hc)]; [done|]. simpl. by rewrite Hc.
  - by rewrite Hc, IH.
Qed.

Lemma span_spec (f : N -> bool) (s run r : jsstring) :
  span f s = (run, r) ->
  s = run ++ r ∧ Forall (fun c => f c = true) run ∧
  (r = [] ∨ ∃ c r', r = c :: r' ∧ f c = false).
Proof.
  revert run r. induction s as [|c s IH]; intros run r; simpl.
  - intros [= <- <-]. split; [done|]. split; [constructor | by left].
  - destruct (f c) eqn:Hc.
    + destruct (span f s) as [run' r'] eqn:E. intros [= <- <-].
      destruct (IH _ _ eq_refl) as (-> & Hrun & Hr).
      split; [done|]. split; [by constructor | done].
    + intros [= <- <-]. split; [done|]. split; [constructor|].
      right. by exists c, s.
Qed.

(** Where [m] fails on every suffix that starts inside [before], the
    search passes over [before]. *)
Lemma search_skip {A : Type} (m : jsstring -> option A) (before s : jsstring)
  (x : A) :
  (∀ b1 c b2, before = b1 ++ c :: b2 -> m (c :: b2 ++ s) = None) ->
  m s = Some x ->
  search m (before ++ s) = Some (before, x).
Proof.
  intros Hskip Hm. induction before as [|c before IH]; simpl.
  - destruct s; simpl; by rewrite Hm.
  - rewrite (Hskip [] c before eq_refl). rewrite IH; [done|].
    intros b1 c' b2 ->. apply (Hskip (c :: b1) c' b2). done.
Qed.

Lemma search_None {A : Type} (m : jsstring -> option A) (s : jsstring) :
  (∀ before rest, s = before ++ rest -> m rest = None) -> search m s = None.
Proof.
  induction s as [|c s IH]; intros H; simpl.
  - by rewrite (H [] [] eq_refl).
  - rewrite (H [] (c :: s) eq_refl). rewrite IH; [done|].
    intros before rest ->. by apply (H (c :: before) rest).
Qed.

Lemma matchYear_Some (s y r : jsstring) :
  matchYear s = Some (y, r) ->
  ∃ year, y = lit "(" ++ year ++ lit ")." ∧ s = y ++ r ∧
          length year = 4 ∧ Forall (fun c => isDigit c = true) year.
Proof.
  unfold matchYear. destruct s as [|p s]; [done|].
  change (lit "(") with [40%N]. cbn [stripPrefix].
  destruct (40 =? p)%N eqn:Hp; [|done]. apply N.eqb_eq in Hp as <-.
  cbn [mbind option_bind].
  destruct s as [|a [|b [|c [|d r1]]]]; try done.
  destruct (isDigit a) eqn:Ha; [|done]. destruct (isDigit b) eqn:Hb; [|done].
  destruct (isDigit c) eqn:Hc; [|done]. destruct (isDigit d) eqn:Hd; [|done].
  cbn [andb]. destruct (stripPrefix (lit ").") r1) as [r2|] eqn:E; [|done].
  cbn [mbind option_bind]. intros [= <- <-]. apply stripPrefix_Some in E as ->.
  exists [a; b; c; d]. split; [done|]. split; [done|]. split; [done|].
  by repeat constructor.
Qed.

Lemma matchYear_year (year r : jsstring) :
  length year = 4 -> Forall (fun c => isDigit c = true) year ->
  matchYear (lit "(" ++ year ++ lit ")." ++ r)
  = Some (lit "(" ++ year ++ lit ").", r).
Proof.
  intros Hlen Hd. destruct year as [|a [|b [|c [|d [|]]]]]; try done.
  apply Forall_cons in Hd as [Ha Hd]. apply Forall_cons in Hd as [Hb Hd].
  apply Forall_cons in Hd as [Hc Hd]. apply Forall_cons in Hd as [Hd _].
  unfold matchYear. change (lit "(") with [40%N].
  cbn [app stripPrefix]. rewrite N.eqb_refl. cbn [mbind option_bind].
  rewrite Ha, Hb, Hc, Hd. cbn [andb]. by rewrite stripPrefix_app.
Qed.

Lemma dropLastDot_dot (t : jsstring) : dropLastDot (t ++ lit ".") = t.
Proof.
  unfold dropLastDot. change (lit ".") with [46%N].
  rewrite reverse_app. simpl. apply reverse_involutive.
Qed.

Lemma formatChunkReference_cons (reference : jsstring) :
  reference ≠ [] ->
  formatChunkReference (Some reference)
  = match stripPrefix (lit "http") reference with
    | Some _ => linkToPaper
    | None =>
        match search matchTitle reference with
        | Some (before, (year, title, afterTitle)) =>
            take (length before + length year + 1) reference ++ lit "<em>"
            ++ dropLastDot title ++ lit "</em>. " ++ afterTitle
        | None => reference
        end
    end.
Proof. by destruct reference. Qed.

(** X12: a citation Author(s) (year). Title. Journal with no earlier
    parenthesis gets its title in italics.  The text before the title is
    kept up to one unit after the period of the year, whatever that unit
    is: of several white spaces one is kept, and with none the first
    unit of the title stands twice.  The white space after the title
    becomes one space, and the journal part is cut at its first line
    terminator. *)
Theorem formatChunkReference_citation
  (authors year ws title ws' journal dropped : jsstring) :
  stripPrefix (lit "http")
    (citation authors year ws title ws' journal ++ dropped) = None ->
  (40%N ∉ authors) ->
  length year = 4 -> Forall (fun c => isDigit c = true) year ->
  Forall (fun c => isWhiteSpace c = true) ws ->
  (∃ c t, title = c :: t ∧ isWhiteSpace c = false) -> (46%N ∉ title) ->
  Forall (fun c => isWhiteSpace c = true) ws' ->
  (∃ c j, journal = c :: j ∧ isWhiteSpace c = false) ->
  Forall (fun c => isLineTerminator c = false) journal ->
  (dropped = [] ∨ ∃ c r, dropped = c :: r ∧ isLineTerminator c = true) ->
  formatChunkReference
    (Some (citation authors year ws title ws' journal ++ dropped))
  = authors ++ lit "(" ++ year ++ lit ")." ++ take 1 (ws ++ title)
    ++ lit "<em>" ++ title ++ lit "</em>. " ++ journal.
Proof.
  intros Hhttp Hauth Hlen Hyear Hws (c & t & -> & Hc) Hdot Hws'
    (c' & j & -> & Hc') Hj Hdropped.
  set (tail := lit "(" ++ year ++ lit ")." ++ ws ++ (c :: t) ++ lit "."
               ++ ws' ++ (c' :: j) ++ dropped).
  assert (citation authors year ws (c :: t) ws' (c' :: j) ++ dropped
          = authors ++ tail) as Href.
  { unfold citation, tail. by rewrite <- !app_assoc. }
  rewrite Href in Hhttp |- *.
  assert (matchTitle tail
          = Some (lit "(" ++ year ++ lit ").", (c :: t) ++ lit ".", c' :: j))
    as Hm.
  { set (r3 := ws' ++ (c' :: j) ++ dropped).
    assert (span isWhiteSpace (ws ++ (c :: t) ++ lit "." ++ r3)
            = (ws, (c :: t) ++ lit "." ++ r3)) as E1.
    { apply span_app; [done|]. right. by exists c, (t ++ lit "." ++ r3). }
    assert (span notDot ((c :: t) ++ lit "." ++ r3) = (c :: t, lit "." ++ r3))
      as E2.
    { apply span_app; [|right; by exists 46%N, r3].
      apply Forall_forall. intros x Hx. unfold notDot.
      destruct (x =? 46)%N eqn:E; [|done]. apply N.eqb_eq in E. by subst. }
    assert (span isWhiteSpace r3 = (ws', (c' :: j) ++ dropped)) as E3.
    { apply span_app; [done|]. right. by exists c', (j ++ dropped). }
    assert (span notLineTerminator ((c' :: j) ++ dropped) = (c' :: j, dropped))
      as E4.
    { apply span_app.
      - eapply Forall_impl; [exact Hj|]. intros x Hx.
        unfold notLineTerminator. by rewrite Hx.
      - destruct Hdropped as [-> | (x & r & -> & Hx)]; [by left|].
        right. exists x, r. split; [done|]. unfold notLineTerminator.
        by rewrite Hx. }
    unfold matchTitle, tail. rewrite (matchYear_year year _ Hlen Hyear).
    cbn [mbind option_bind]. unfold matchTitleText. fold r3. rewrite E1, E2.
    change (lit "." ++ r3) with (46%N :: r3). cbn iota beta.
    cbn [mbind option_bind]. unfold matchAfterTitle. rewrite E3.
    change ((c' :: j) ++ dropped) with (c' :: (j ++ dropped)) at 1.
    cbn iota beta. change (c' :: (j ++ dropped)) with ((c' :: j) ++ dropped).
    rewrite E4. reflexivity. }
  assert (authors ++ tail ≠ []) as Hne.
  { unfold tail. change (lit "(") with [40%N]. by destruct authors. }
  assert (∀ b1 y b2, authors = b1 ++ y :: b2 ->
          matchTitle (y :: b2 ++ tail) = None) as Hskip.
  { intros b1 y b2 ->. unfold matchTitle, matchYear.
    destruct (decide (y = 40%N)) as [->|Hy].
    - exfalso. apply Hauth. apply elem_of_app. right. left.
    - change (lit "(") with [40%N]. cbn [app stripPrefix].
      destruct (40 =? y)%N eqn:Ey; [|done]. apply N.eqb_eq in Ey. by subst. }
  etrans; [exact (formatChunkReference_cons _ Hne)|]. rewrite Hhttp.
  rewrite (search_skip matchTitle authors tail _ Hskip Hm).
  rewrite dropLastDot_dot.
  set (upto := authors ++ lit "(" ++ year ++ lit ").").
  replace (length authors + length (lit "(" ++ year ++ lit ").") + 1)
    with (length upto + 1) by (unfold upto; rewrite !length_app; lia).
  assert (authors ++ tail
          = upto ++ (ws ++ (c :: t) ++ lit "." ++ ws' ++ (c' :: j) ++ dropped))
    as -> by (unfold upto, tail; by rewrite <- !app_assoc).
  rewrite take_app_add. unfold upto. rewrite <- !app_assoc.
  do 4 f_equal. by destruct ws.
Qed.

Lemma formatChunkReference_citation_witness :
  formatChunkReference
    (Some (citation (lit "Rich KM, Perry BD ") (lit "2011") (lit " ")
             (lit "The economic impacts of animal diseases") (lit " ")
             (lit "Prev Vet Med 101") ++ []))
  = lit "Rich KM, Perry BD (2011). <em>The economic impacts of animal diseases</em>. Prev Vet Med 101".
Proof.
  apply (formatChunkReference_citation (lit "Rich KM, Perry BD ") (lit "2011")
           (lit " ") (lit "The economic impacts of animal diseases") (lit " ")
           (lit "Prev Vet Med 101") []).
  - vm_compute. reflexivity.
  - intros H%list_elem_of_In. vm_compute in H. intuition discriminate.
  - reflexivity.
  - by repeat constructor.
  - by repeat constructor.
  - eexists _, _. split; [vm_compute; reflexivity|reflexivity].
  - intros H%list_elem_of_In. vm_compute in H. intuition discriminate.
  - by repeat constructor.
  - eexists _, _. split; [vm_compute; reflexivity|reflexivity].
  - by repeat constructor.
  - by left.
Defined.

(** X13: what [formatChunkReference] leaves alone.  A null or empty
    reference gives the empty text; a reference that starts with [http]
    gives the words Link to paper whatever follows; and any other
    reference without four digits in parentheses and a period after them
    comes back as it is. *)
Theorem formatChunkReference_plain (reference : jsstring) :
  formatChunkReference None = [] ∧
  formatChunkReference (Some []) = [] ∧
  formatChunkReference (Some (lit "http" ++ reference)) = linkToPaper ∧
  (stripPrefix (lit "http") reference = None -> noYear reference ->
   formatChunkReference (Some reference) = reference).
Proof.
  split; [done|]. split; [done|]. split.
  - etrans; [apply formatChunkReference_cons; by vm_compute|].
    by rewrite stripPrefix_app.
  - intros Hhttp Hno. destruct (decide (reference = [])) as [->|Hne]; [done|].
    etrans; [exact (formatChunkReference_cons _ Hne)|]. rewrite Hhttp.
    rewrite search_None; [done|]. intros before rest ->.
    unfold matchTitle. destruct (matchYear rest) as [[y r]|] eqn:E; [|done].
    exfalso. apply matchYear_Some in E as (year & -> & -> & Hlen & Hd).
    apply (Hno before year r); [|done|done]. by rewrite <- !app_assoc.
Qed.

Lemma stripPrefixI_app (p t : jsstring) : stripPrefixI p (p ++ t) = Some (p, t).
Proof.
  induction p as [|a p IH]; [done|]. cbn [app stripPrefixI].
  unfold sameLetter. by rewrite N.eqb_refl, IH.
Qed.

Lemma someNonSpace_cons (c : N) (rest : jsstring) :
  isWhiteSpace c = false ->
  someNonSpace (c :: rest)
  = Some (c :: (spanNonSpace rest).1, (spanNonSpace rest).2).
Proof.
  intros Hc. unfold someNonSpace. cbn [spanNonSpace]. rewrite Hc.
  by destruct (spanNonSpace rest).
Qed.

Lemma matchHttp_scheme (scheme rest : jsstring) (c : N) :
  scheme = lit "http://" ∨ scheme = lit "https://" ->
  isWhiteSpace c = false ->
  matchHttp (scheme ++ c :: rest)
  = Some (scheme ++ c :: (spanNonSpace rest).1, (spanNonSpace rest).2).
Proof.
  intros [-> | ->] Hc; unfold matchHttp.
  - change (lit "http://") with (lit "http" ++ lit "://").
    rewrite <- app_assoc, stripPrefixI_app. cbn [mbind option_bind].
    change (lit "://" ++ c :: rest) with (58%N :: (lit "//" ++ c :: rest)).
    cbn iota beta. change (sameLetter 115 58) with false. cbn iota.
    change (58%N :: (lit "//" ++ c :: rest)) with (lit "://" ++ c :: rest).
    rewrite stripPrefixI_app. cbn [mbind option_bind].
    rewrite (someNonSpace_cons c rest Hc). cbn [mbind option_bind].
    by rewrite <- app_assoc.
  - change (lit "https://") with (lit "http" ++ 115%N :: lit "://").
    rewrite <- app_assoc, stripPrefixI_app. cbn [mbind option_bind].
    change ((115%N :: lit "://") ++ c :: rest)
      with (115%N :: (lit "://" ++ c :: rest)).
    cbn iota beta. change (sameLetter 115 115) with true. cbn iota.
    rewrite stripPrefixI_app. cbn [mbind option_bind].
    rewrite (someNonSpace_cons c rest Hc). cbn [mbind option_bind].
    by rewrite <- !app_assoc.
Qed.

Lemma search_head {A : Type} (m : jsstring -> option A) (s : jsstring) (x : A) :
  m s = Some x -> search m s = Some ([], x).
Proof. intros H. destruct s; simpl; by rewrite H. Qed.

(** X14: a reference that is a link.  For [http://] or [https://] and a
    unit that is no white space after it, the title of the card reads
    Link to paper, [isValidUrl] holds, and a click opens the reference
    cut at its first white space. *)
Theorem reference_link_opens (scheme rest : jsstring) (c : N) :
  scheme = lit "http://" ∨ scheme = lit "https://" ->
  isWhiteSpace c = false ->
  formatChunkReference (Some (scheme ++ c :: rest)) = linkToPaper ∧
  isValidUrl (scheme ++ c :: rest) = true ∧
  openReference (scheme ++ c :: rest)
  = Some (scheme ++ c :: (spanNonSpace rest).1).
Proof.
  intros Hscheme Hc.
  pose proof (matchHttp_scheme scheme rest c Hscheme Hc) as Hm.
  split; [|split].
  - etrans; [apply formatChunkReference_cons; by destruct Hscheme as [-> | ->]|].
    destruct Hscheme as [-> | ->].
    + change (lit "http://") with (lit "http" ++ lit "://").
      by rewrite <- app_assoc, stripPrefix_app.
    + change (lit "https://") with (lit "http" ++ lit "s://").
      by rewrite <- app_assoc, stripPrefix_app.
  - unfold isValidUrl. erewrite search_head; [done|]. by rewrite Hm.
  - unfold openReference. by rewrite (search_head _ _ _ Hm).
Qed.

Lemma reference_link_opens_witness :
  formatChunkReference (Some (lit "https://hdl.handle.net/10568/1 (open access)"))
  = linkToPaper ∧
  openReference (lit "https://hdl.handle.net/10568/1 (open access)")
  = Some (lit "https://hdl.handle.net/10568/1").
Proof.
  destruct (reference_link_opens (lit "https://")
              (lit "dl.handle.net/10568/1 (open access)") 104
              (or_intror eq_refl) eq_refl) as (H1 & _ & H2).
  split; [exact H1 | exact H2].
Defined.

(** X15: the cards of the chunks carry the anchors [chunk-1],
    [chunk-2], ... in the order of the chunks, one for each chunk and no
    two alike, whatever the ids of the chunks are. *)
Theorem chunkAnchors_distinct (cs : list Chunk) :
  length (chunkAnchors cs) = length cs ∧
  NoDup (chunkAnchors cs) ∧
  ∀ i, i < length cs ->
       chunkAnchors cs !! i = Some (anchorOf (numberToString (i + 1))).
Proof.
  unfold chunkAnchors, anchorOf.
  assert (∀ i x, imap (fun index (_ : Chunk) =>
                         lit "chunk-" ++ numberToString (index + 1)) cs !! i
                 = Some x ->
                 i < length cs ∧ x = lit "chunk-" ++ numberToString (i + 1))
    as Hlook.
  { intros i x. rewrite list_lookup_imap.
    destruct (cs !! i) as [ch|] eqn:E; [|done]. simpl. intros [= <-].
    split; [by eapply lookup_lt_Some | done]. }
  split; [apply length_imap|]. split.
  - apply NoDup_alt. intros i j x Hi Hj.
    apply Hlook in Hi as [_ ->]. apply Hlook in Hj as [_ Heq].
    apply app_inv_head in Heq. apply numberToString_inj in Heq. lia.
  - intros i Hi. rewrite list_lookup_imap.
    destruct (lookup_lt_is_Some_2 cs i Hi) as [ch ->]. done.
Qed.

Lemma submitQuery_query {Data : Type} (fetch : request -> fetched Data)
  (q : jsstring) (s : State Data) :
  query (Store.submitQuery fetch q s) = q.
Proof.
  unfold Store.submitQuery, afterFetch.
  destruct (fetch (queryRequest q)) as [resp|m]; [|done].
  destruct (ok resp); [|done]. by destruct (json_of resp).
Qed.

(** X16: the form of the view sends no blank question and sends any
    other as typed.  With an input of white space only nothing is
    dispatched and the store stays as it is; otherwise the store action
    runs on the input untrimmed, so the query kept and the query sent
    are the input with its white space.  The button is enabled only
    where the click dispatches. *)
Theorem view_submitQuery {Data : Type} (fetch : request -> fetched Data)
  (queryInput : jsstring) (s : State Data) :
  let s' := HomeViewTitles.submitQuery fetch queryInput s in
  (Forall (fun c => isWhiteSpace c = true) queryInput -> s' = s) ∧
  (¬ Forall (fun c => isWhiteSpace c = true) queryInput ->
   s' = Store.submitQuery fetch queryInput s ∧ query s' = queryInput ∧
   Http.field "query" (default [] (req_body (queryRequest queryInput)))
   = Some (JStr queryInput) ∧
   ∀ fetch', fetch' (queryRequest queryInput) = fetch (queryRequest queryInput) ->
             HomeViewTitles.submitQuery fetch' queryInput s = s') ∧
  (askDisabled queryInput s = false ->
   loading s = false ∧ s' = Store.submitQuery fetch queryInput s).
Proof.
  intros s'. subst s'. unfold HomeViewTitles.submitQuery.
  pose proof (trim_nil_iff queryInput) as Hblank.
  split; [|split].
  - intros H. apply Hblank in H. by rewrite H.
  - intros H. destruct (trim queryInput) as [|c r] eqn:E.
    { exfalso. apply H, Hblank. done. }
    split; [done|]. split; [apply submitQuery_query|]. split; [done|].
    intros fetch' Hf. unfold Store.submitQuery. by rewrite Hf.
  - unfold askDisabled. intros H. apply orb_false_iff in H as [Hl Hb].
    apply bool_decide_eq_false in Hb. split; [done|].
    by destruct (trim queryInput).
Qed.

End TitleFacts.

(** ** A session with ResultActions *)

Section SessionFacts.

Import ResultActionsRatings FeedbackSession.

Local Open Scope Z_scope.

Context {W : Type}.
Variable fetch : request -> W -> fetched Feedback.envelope * W.

Lemma between_stars (x : option Z) :
  UserFeedback.between 1 5 x = true -> stars (orZero x).
Proof.
  unfold stars, orZero. destruct x as [v|]; simpl; [|lia].
  intros H. apply andb_true_iff in H as [H1 H2].
  apply Z.leb_le in H1, H2. lia.
Qed.

Lemma loadExistingFeedback_inRange (p : Props) (d : Data) (w : W) :
  honest fetch -> inRange d ->
  inRange (loadExistingFeedback fetch p d w).1.1.
Proof.
  intros Hhonest Hd. unfold loadExistingFeedback.
  destruct (noMemoryId p); [done|].
  destruct (fetch _ w) as [[resp|m] w1] eqn:E; [|done].
  destruct (ok resp); [|done].
  destruct (json_of resp) as [env|m] eqn:Hj; [|done].
  case_bool_decide; [|done].
  destruct (env_feedback env) as [fb|] eqn:Hfb; [|done].
  assert (UserFeedback.checks fb = true) as Hc.
  { eapply (Hhonest _ w resp env fb); [rewrite E; reflexivity|done|done]. }
  unfold UserFeedback.checks in Hc.
  apply andb_true_iff in Hc as [Hc H3]. apply andb_true_iff in Hc as [H1 H2].
  repeat split; simpl; by apply between_stars.
Qed.

Lemma toggleFavorite_inRange (p : Props) (d : Data) (w : W) :
  inRange d -> inRange (toggleFavorite fetch p d w).1.1.
Proof.
  intros Hd. unfold toggleFavorite.
  destruct (fetch _ w) as [[resp|m] w1]; [destruct (ok resp)|]; done.
Qed.

Lemma clearAllFeedback_inRange (confirmed : bool) (p : Props) (d : Data)
  (w : W) :
  inRange d -> inRange (clearAllFeedback fetch confirmed p d w).1.1.
Proof.
  intros Hd. unfold clearAllFeedback. destruct confirmed; [|done]. simpl.
  destruct (fetch _ w) as [[resp|m] w1]; [destruct (ok resp)|]; done.
Qed.

Lemma submitFeedback_inRange (p : Props) (d : Data) (w : W) :
  honest fetch -> inRange d -> inRange (submitFeedback fetch p d w).1.1.
Proof.
  intros Hhonest Hd. unfold submitFeedback.
  destruct (nothingToSubmit d); [done|].
  destruct (fetch _ w) as [[resp|m] w1]; [destruct (ok resp)|]; try done.
  pose proof (loadExistingFeedback_inRange p
                (set_showFeedback false (set_isSubmitting true d)) w1
                Hhonest Hd) as H.
  destruct (loadExistingFeedback fetch p _ w1) as [[d' w'] out]. exact H.
Qed.

Lemma reachable_inRange (p : Props) (w0 : W) (d : Data) (w : W) :
  honest fetch -> reachable fetch p w0 d w -> inRange d.
Proof.
  intros Hhonest Hr. induction Hr as [|ev d w Hr IH Hev].
  - assert (inRange (data p)) as H0 by (unfold inRange, stars; simpl; lia).
    unfold mounted. destruct (noMemoryId p); [exact H0|].
    by apply loadExistingFeedback_inRange.
  - destruct ev as [cat i| |cat| |text| | | | |confirmed]; simpl.
    + destruct IH as (H1 & H2 & H3). simpl in Hev.
      destruct cat; repeat split; simpl; try done; unfold stars in *; lia.
    + exact IH.
    + destruct IH as (H1 & H2 & H3).
      destruct cat; repeat split; simpl; try done; unfold stars in *; lia.
    + exact IH.
    + exact IH.
    + unfold watchShowFeedback.
      destruct (negb (showFeedback d) && negb (noMemoryId p)); [|exact IH].
      by apply loadExistingFeedback_inRange.
    + exact IH.
    + by apply toggleFavorite_inRange.
    + by apply submitFeedback_inRange.
    + by apply clearAllFeedback_inRange.
Qed.

(** X17: the form never asks for a rating the table would refuse.
    Against a server that answers with rows of the table, whatever the
    user clicks and in whatever order, each of the three categorical
    ratings of the form is 0 or one of the five stars, so each of the
    three values [submitFeedback] would post is null or a number from 1
    to 5. *)
Theorem form_ratings_pass_checks (p : Props) (w0 : W) (d : Data) (w : W) :
  honest fetch -> reachable fetch p w0 d w ->
  inRange d ∧
  passesCheck (Http.field "accuracy_rating" (feedbackBody p d)) ∧
  passesCheck (Http.field "comprehensiveness_rating" (feedbackBody p d)) ∧
  passesCheck (Http.field "helpfulness_rating" (feedbackBody p d)).
Proof.
  intros Hhonest Hr.
  pose proof (reachable_inRange p w0 d w Hhonest Hr) as Hd.
  split; [exact Hd|]. destruct Hd as (H1 & H2 & H3).
  assert (∀ x, stars x ->
            Some (positiveOrNull x) = Some JNull ∨
            ∃ y, Some (positiveOrNull x) = Some (JNum y) ∧ 1 <= y <= 5) as Hp.
  { intros x Hx. unfold positiveOrNull, stars in *.
    destruct (0 <? x) eqn:E; [|by left].
    apply Z.ltb_lt in E. right. exists x. split; [done | lia]. }
  unfold passesCheck, feedbackBody. simpl. auto.
Qed.

End SessionFacts.

Lemma form_ratings_pass_checks_witness :
  let d := (FeedbackSession.handle (@Network.offline unit) FeedbackForm.answer7
              (FeedbackSession.ClickStar FeedbackSession.Accuracy 4)
              (ResultActionsRatings.data FeedbackForm.answer7) ()).1.1 in
  Http.field "accuracy_rating"
    (ResultActionsRatings.feedbackBody FeedbackForm.answer7 d)
  = Some (JNum 4) ∧
  FeedbackSession.passesCheck
    (Http.field "accuracy_rating"
       (ResultActionsRatings.feedbackBody FeedbackForm.answer7 d)).
Proof.
  split; [reflexivity|].
  refine (proj1 (proj2 (form_ratings_pass_checks (@Network.offline unit)
            FeedbackForm.answer7 () _ () _ _))).
  - intros rq w resp env fb H. discriminate H.
  - apply (FeedbackSession.reachable_handle (@Network.offline unit)
             FeedbackForm.answer7 ()
             (FeedbackSession.ClickStar FeedbackSession.Accuracy 4)
             (ResultActionsRatings.data FeedbackForm.answer7) ()).
    + exact (FeedbackSession.reachable_mounted (@Network.offline unit)
               FeedbackForm.answer7 ()).
    + simpl. lia.
Defined.

(** ** The foreign keys and the sequence of [retrieval_evaluations] *)

Section EvaluationFacts.

Import RetrievalEvaluations TableFacts.

Local Open Scope Z_scope.

Lemma varchar50_length (s : option jsstring) (m : option jsstring) (t : jsstring) :
  varchar50 s = Some m -> m = Some t -> (length t ≤ 50)%nat.
Proof.
  unfold varchar50. destruct s as [u|]; [|by intros [= <-]].
  destruct (forallb _ _); [|done]. intros [= <-] [= <-].
  rewrite length_take. lia.
Qed.

Lemma references_elem (ids : gset Z) (fk : option Z) (k : Z) :
  references ids fk = true -> fk = Some k -> k ∈ ids.
Proof.
  intros H ->. simpl in H. by apply bool_decide_eq_true in H.
Qed.

Lemma exec_referenced (st : statement) (d : db) :
  Forall (referenced d) (rows d) ->
  Forall (referenced (exec st d).2) (rows (exec st d).2).
Proof.
  intros Hd. destruct st as [now v|q|c|q|c|i]; simpl.
  - unfold insert.
    destruct (varchar50 (v_retrieval_method v)) as [m|] eqn:Hm; [|exact Hd].
    destruct (match v_id v with
              | Some i => (i, id_seq d)
              | None => (id_seq d + 1, id_seq d + 1)
              end) as [i seq].
    destruct (v_relevance_score v) as [rel|]; [|exact Hd].
    destruct (negb _); [exact Hd|].
    destruct (bool_decide (i ∈ id <$> rows d)); [exact Hd|].
    destruct (references (query_cache d) (v_query_id v)) eqn:Hq;
      [|exact Hd].
    destruct (references (document_chunks d) (v_chunk_id v)) eqn:Hc;
      [|exact Hd].
    simpl. apply Forall_app. split; [exact Hd|]. apply Forall_singleton.
    split; [|split]; simpl.
    + intros q. by apply references_elem.
    + intros c. by apply references_elem.
    + intros t. by apply (varchar50_length (v_retrieval_method v)).
  - eapply Forall_impl; [exact Hd|]. intros r (Hq & Hc & Hm).
    split; [|split]; simpl; try done. intros k Hk. set_solver.
  - eapply Forall_impl; [exact Hd|]. intros r (Hq & Hc & Hm).
    split; [|split]; simpl; try done. intros k Hk. set_solver.
  - apply Forall_forall. intros r [Hne Hr]%list_elem_of_filter.
    rewrite Forall_forall in Hd. destruct (Hd r Hr) as (Hq & Hc & Hm).
    split; [|split]; simpl; try done. intros k Hk.
    apply elem_of_difference. split; [by apply Hq|].
    intros ->%elem_of_singleton. by apply Hne.
  - apply Forall_forall. intros r [Hne Hr]%list_elem_of_filter.
    rewrite Forall_forall in Hd. destruct (Hd r Hr) as (Hq & Hc & Hm).
    split; [|split]; simpl; try done. intros k Hk.
    apply elem_of_difference. split; [by apply Hc|].
    intros ->%elem_of_singleton. by apply Hne.
  - apply Forall_forall. intros r [Hne Hr]%list_elem_of_filter.
    rewrite Forall_forall in Hd. by apply Hd.
Qed.

(** X18: the foreign keys of [retrieval_evaluations] hold in every state
    the statements can build.  An evaluation points to a cache entry
    that exists or to none, and to a chunk that exists or to none, also
    after entries and chunks were deleted, since their evaluations go
    with them; and the method it stores has at most 50 characters. *)
Theorem evaluations_reference_existing (d : db) (r : row) :
  reachable d -> r ∈ rows d ->
  (∀ q, query_id r = Some q -> q ∈ query_cache d) ∧
  (∀ c, chunk_id r = Some c -> c ∈ document_chunks d) ∧
  (∀ m, retrieval_method r = Some m -> (length m ≤ 50)%nat).
Proof.
  intros Hd Hr.
  assert (Forall (referenced d) (rows d)) as H.
  { clear r Hr. induction Hd as [|st d _ IH]; [constructor|].
    by apply exec_referenced. }
  rewrite Forall_forall in H. exact (H r Hr).
Qed.

Lemma evaluations_reference_existing_witness :
  ∃ r, rows (run (twoRuns ++ [DeleteChunk 2]) empty) !! 1%nat = Some r ∧
       ∀ c, chunk_id r = Some c ->
            c ∈ document_chunks (run (twoRuns ++ [DeleteChunk 2]) empty).
Proof.
  assert (reachable (run (twoRuns ++ [DeleteChunk 2]) empty)) as Hd
    by (apply reachable_run; constructor).
  eexists. split; [vm_compute; reflexivity|].
  refine (proj1 (proj2 (evaluations_reference_existing _ _ Hd _))).
  vm_compute. right. left.
Defined.

Lemma exec_issued (st : statement) (d : db) :
  defaultId st -> issued d -> issued (exec st d).2.
Proof.
  unfold issued. intros Hst Hd. destruct st as [now v|q|c|q|c|i]; simpl.
  - simpl in Hst. unfold insert. rewrite Hst.
    assert (Forall (fun r => id r ≤ id_seq d + 1) (rows d)) as Hd'.
    { eapply Forall_impl; [exact Hd|]. simpl. intros r Hr. lia. }
    destruct (varchar50 (v_retrieval_method v)) as [m|]; [|exact Hd].
    destruct (v_relevance_score v) as [rel|]; [|exact Hd'].
    destruct (negb _); [exact Hd'|].
    destruct (bool_decide _); [exact Hd'|].
    destruct (negb _); [exact Hd'|].
    simpl. apply Forall_app. split; [exact Hd'|]. apply Forall_singleton.
    simpl. lia.
  - exact Hd.
  - exact Hd.
  - by apply Forall_filter'.
  - by apply Forall_filter'.
  - by apply Forall_filter'.
Qed.

(** X19: while every insert leaves the [id] to the sequence, no insert
    fails on the primary key: the ids of the table are values the
    sequence has passed, deletions and failed inserts included, and the
    next one is new.  The next insert takes one value of the sequence,
    unless its method does not fit the column: that insert is refused
    before the sequence is asked and changes nothing. *)
Theorem serial_ids_never_collide (script : list statement) (now : Z)
  (v : values) :
  Forall defaultId script -> v_id v = None ->
  let d := run script empty in
  Forall (fun r => id r ≤ id_seq d) (rows d) ∧
  (insert now v d).1 ≠ UniqueViolation ∧
  ((insert now v d).1 = ValueTooLong -> (insert now v d).2 = d) ∧
  ((insert now v d).1 ≠ ValueTooLong ->
   id_seq (insert now v d).2 = id_seq d + 1).
Proof.
  intros Hscript Hv d.
  assert (issued d) as Hd.
  { subst d. assert (issued empty) as H0 by constructor.
    revert H0. generalize empty.
    induction Hscript as [|st script Hst _ IH]; intros d0 H0; [exact H0|].
    simpl. apply IH. by apply exec_issued. }
  split; [exact Hd|]. unfold insert. rewrite Hv.
  assert (id_seq d + 1 ∉ id <$> rows d) as Hnew.
  { intros (r & Heq & Hr)%list_elem_of_fmap. unfold issued in Hd.
    rewrite Forall_forall in Hd. specialize (Hd r Hr). lia. }
  destruct (varchar50 (v_retrieval_method v)) as [m|]; [|by repeat split].
  destruct (v_relevance_score v) as [rel|]; [|by repeat split].
  destruct (negb _); [by repeat split|].
  rewrite (bool_decide_eq_false_2 _ Hnew).
  destruct (negb _); by repeat split.
Qed.

Lemma serial_ids_never_collide_witness :
  (insert 300 judgment (run twoRuns empty)).1 ≠ UniqueViolation ∧
  id_seq (insert 300 judgment (run twoRuns empty)).2 = 3.
Proof.
  assert (Forall defaultId twoRuns) as H by (repeat constructor).
  destruct (serial_ids_never_collide twoRuns 300 judgment H eq_refl)
    as (_ & H1 & _ & H2).
  split; [exact H1|]. apply H2. by vm_compute.
Defined.

(** A method of 51 characters: the insert is refused and the sequence
    stays where it was, also when the relevance score is missing. *)
Example long_method_refused :
  let v := {| v_id := None; v_query_id := None; v_chunk_id := None;
              v_relevance_score := None; v_llm_score := None;
              v_explanation := None;
              v_retrieval_method := Some (replicate 51 120%N);
              v_rank_position := None |} in
  insert 100 v empty = (ValueTooLong, empty).
Proof. by vm_compute. Qed.

(** An insert that names its [id] does not move the sequence, and the
    insert that takes the default next fails on the primary key. *)
Example named_id_collides :
  let d := (insert 100 (numbered 1) empty).2 in
  (insert 100 (numbered 1) empty).1 = Done ∧
  (insert 200 judgment (exec (AddChunk 1) (exec (AddQuery 1) d).2).2).1
  = UniqueViolation.
Proof. by vm_compute. Qed.

End EvaluationFacts.

(** ** The trigger of [user_feedback] *)

Section TriggerFacts.

Import UserFeedback TableFacts.

Local Open Scope Z_scope.

Lemma exec_frame (now : Z) (st : statement) (t : table) (mid : Z) :
  target st ≠ mid -> (exec now st t).2 !! mid = t !! mid.
Proof.
  intros Hne. destruct st as [k new|k set|k]; simpl in *.
  - unfold insert. destruct (checks new); [|done].
    destruct (t !! k); [done|]. simpl. by rewrite lookup_insert_ne.
  - unfold update. destruct (t !! k) as [old|]; [|done].
    destruct (checks _); [|done]. simpl. by rewrite lookup_insert_ne.
  - unfold delete. destruct (t !! k); [|done]. simpl.
    by rewrite lookup_delete_ne.
Qed.

(** X20: the time of a row is the time of its last update.  An UPDATE
    that passes the checks writes the row the SET clause gives with
    [updated_at] replaced by the time of the statement, whatever the
    clause assigns to that column; and the statements on other rows that
    follow, at whatever times, leave the row as it is. *)
Theorem updated_at_is_last_update (now mid : Z) (set : Feedback.row -> Feedback.row)
  (old : Feedback.row) (t : table) (later : list (Z * statement)) :
  t !! mid = Some old -> checks (set old) = true ->
  Forall (fun st => target st.2 ≠ mid) later ->
  let t' := (exec now (Update mid set) t).2 in
  (exec now (Update mid set) t).1 = Done 1 ∧
  runAt later t' !! mid = Some (update_user_feedback_timestamp now (set old)) ∧
  (∀ r, runAt later t' !! mid = Some r -> updated_at r = now).
Proof.
  intros Hold Hc Hlater t'. subst t'. simpl. unfold update.
  rewrite Hold, checks_timestamp, Hc. simpl.
  assert (∀ t0, runAt later t0 !! mid = t0 !! mid) as Hframe.
  { induction Hlater as [|[time st] later Hst _ IH]; intros t0; [done|].
    simpl. rewrite IH. by apply exec_frame. }
  split; [done|]. rewrite Hframe, lookup_insert_eq.
  split; [done|]. by intros r [= <-].
Qed.

Lemma updated_at_is_last_update_witness :
  let t := (exec 1 (Insert 7 FeedbackForm.starred) ∅).2 in
  runAt [(3, Insert 8 FeedbackForm.starred); (4, Update 8 (rateAccuracy 1))]
    (exec 2 (Update 7 (rateAccuracy 5)) t).2 !! 7
  = Some (update_user_feedback_timestamp 2 (rateAccuracy 5 FeedbackForm.starred)).
Proof.
  refine (proj1 (proj2 (updated_at_is_last_update 2 7 (rateAccuracy 5)
            FeedbackForm.starred _ _ _ _ _))).
  - reflexivity.
  - reflexivity.
  - repeat constructor; simpl; lia.
Defined.

End TriggerFacts.

(** ** The component RetrievalMetrics *)

Section MetricsFacts.

Import RetrievalMetrics.

Context {Summary : Type}.

(** X21: [loadSummary] ends with [loading] false.  When nothing is
    thrown the summary is the body and the error is empty, so the panel
    shows the body, or nothing for a null body.  When something is
    thrown the summary of before stays and the error is the message:
    the panel shows the message, and for an empty message the summary
    of before. *)
Theorem loadSummary_outcome (res : fetched (option Summary))
  (s : State Summary) :
  let s' := loadSummary res s in
  loading s' = false ∧
  (thrown res = None ->
   ∃ resp, res = Resolved resp ∧ ok resp = true ∧
           json_of resp = Json (summary s') ∧ error s' = [] ∧
           view s' = match summary s' with Some x => Grid x | None => Nothing end) ∧
  (∀ message, thrown res = Some message ->
     summary s' = summary s ∧ error s' = message ∧
     (message ≠ [] -> view s' = ErrorText message) ∧
     (message = [] ->
      view s' = match summary s with Some x => Grid x | None => Nothing end)).
Proof.
  intros s'. subst s'. split; [done|]. unfold thrown, loadSummary, view.
  destruct res as [resp|m]; simpl.
  - destruct (ok resp) eqn:Hok; simpl.
    + destruct (json_of resp) as [data|m] eqn:Hj; simpl.
      * split; [|done]. intros _. by exists resp.
      * split; [done|]. intros message [= <-].
        split; [done|]. split; [done|]. split; [by destruct m|by intros ->].
    + split; [done|]. intros message [= <-]. split; [done|]. split; [done|].
      split; [done|]. intros H. by vm_compute in H.
  - split; [done|]. intros message [= <-].
    split; [done|]. split; [done|]. split; [by destruct m|by intros ->].
Qed.

End MetricsFacts.

(** ** The thread button *)

Section ThreadFacts.

Import ResultActionsRatings ThreadButton.

(** X22: the thread button is enabled exactly when its title invites to
    create a thread, and then a click emits ['create-thread'].  A memory
    id of 0 counts as none: the button is disabled and the method emits
    nothing.  The method itself does not look at [hasThread]: only the
    disabled button keeps a second thread from being asked for. *)
Theorem thread_button (p : Props) :
  (disabled p = false ↔
   getThreadButtonTitle p = "Create conversation thread"%string) ∧
  (disabled p = false -> createThread p = [Emit "create-thread"]) ∧
  (memoryId p = None ∨ memoryId p = Some 0%Z ->
   disabled p = true ∧ createThread p = []) ∧
  (createThread p = [Emit "create-thread"] ↔
   ∃ n, memoryId p = Some n ∧ n ≠ 0%Z).
Proof.
  unfold disabled, getThreadButtonTitle, createThread, noMemoryId.
  destruct p as [[n|] fm fav thread]; simpl; destruct thread;
    try case_bool_decide; simpl;
    repeat match goal with
           | |- _ ∧ _ => split
           | |- _ ↔ _ => split
           | |- _ -> _ => intro
           end;
    repeat match goal with
           | H : _ ∨ _ |- _ => destruct H
           | H : ∃ _, _ |- _ => destruct H as (? & ? & ?)
           end;
    simplify_eq; try done; by eexists.
Qed.

End ThreadFacts.

(** ** The reports on the citations *)

Section ReportFacts.

Import CitationReport.

Lemma stripPrefix_app_Some (p q s r : jsstring) :
  stripPrefix (p ++ q) s = Some r -> is_Some (stripPrefix p s).
Proof.
  revert s. induction p as [|a p IH]; intros s; simpl; [by eexists|].
  destruct s as [|b s]; [done|]. destruct (a =? b)%N; [|done]. apply IH.
Qed.

(** X23: the pattern analysis never reports PLOS or Elsevier.  A DOI
    that starts with [10.1371] or [10.1016] starts with [10.1] and is
    counted under the first branch; the four names the report can give
    are those of the other branches. *)
Theorem doiPattern_shadowed (d : document) :
  (doiPattern d = "10.1xxx (Common academic)" ∨
   doiPattern d = "10.3389 (Frontiers)" ∨
   doiPattern d = "No DOI" ∨ doiPattern d = "Other DOI pattern")%string ∧
  (∀ s rest, doi d = Some s ->
     s = lit "10.1371" ++ rest ∨ s = lit "10.1016" ++ rest ->
     doiPattern d = "10.1xxx (Common academic)"%string) ∧
  (∀ rest, doi d = Some (lit "10.3389" ++ rest) ->
     doiPattern d = "10.3389 (Frontiers)"%string) ∧
  (doiPattern d = "No DOI"%string ↔ doi d = None).
Proof.
  unfold doiPattern, likePrefix, holds, isNull.
  destruct (doi d) as [s|] eqn:Hd.
  - destruct (stripPrefix (lit "10.1") s) as [r1|] eqn:E1.
    + split; [by left|]. split; [done|]. split; [|done].
      intros rest Heq. exfalso.
      assert (s = lit "10.3389" ++ rest) as -> by congruence.
      clear -E1. cbv in E1. discriminate E1.
    + assert (stripPrefix (lit "10.1371") s = None) as E3.
      { destruct (stripPrefix (lit "10.1371") s) as [r|] eqn:E; [|done].
        change (lit "10.1371") with (lit "10.1" ++ lit "371") in E.
        apply stripPrefix_app_Some in E as [r' E]. congruence. }
      assert (stripPrefix (lit "10.1016") s = None) as E4.
      { destruct (stripPrefix (lit "10.1016") s) as [r|] eqn:E; [|done].
        change (lit "10.1016") with (lit "10.1" ++ lit "016") in E.
        apply stripPrefix_app_Some in E as [r' E]. congruence. }
      rewrite E3, E4.
      destruct (stripPrefix (lit "10.3389") s) as [r2|] eqn:E2.
      * split; [by right; left|]. split; [|done].
        intros s' rest [= <-] [Hs | Hs]; rewrite Hs in *.
        -- pose proof (stripPrefix_app (lit "10.1371") rest). congruence.
        -- pose proof (stripPrefix_app (lit "10.1016") rest). congruence.
      * split; [by right; right; right|]. split; [|split; [|done]].
        -- intros s' rest [= <-] [Hs | Hs]; rewrite Hs in *.
           ++ pose proof (stripPrefix_app (lit "10.1371") rest). congruence.
           ++ pose proof (stripPrefix_app (lit "10.1016") rest). congruence.
        -- intros rest Heq.
           assert (s = lit "10.3389" ++ rest) as -> by congruence.
           pose proof (stripPrefix_app (lit "10.3389") rest). congruence.
  - split; [by right; right; left|]. done.
Qed.

(** X24: the statuses of the two reports.  The error analysis says
    Unknown status exactly for a document without an error whose
    [citation_fetched] is NULL; a failed document never gets the reason
    Unknown; what the error analysis calls a Success the breakdown
    calls Successfully fetched, and the breakdown says so also of a
    document with a reference and an error, which the error analysis
    counts as Failed with error. *)
Theorem report_statuses (d : document) :
  (errorStatus d = "Unknown status"%string ↔
   citation_fetch_error d = None ∧ citation_fetched d = None) ∧
  (failed d = true -> failureReason d ≠ "Unknown"%string) ∧
  (errorStatus d = "Success"%string ->
   processingStatus d = "Successfully fetched"%string) ∧
  (processingStatus d = "Successfully fetched"%string ->
   citation_fetch_error d ≠ None ->
   errorStatus d = "Failed with error"%string).
Proof.
  unfold errorStatus, failed, failureReason, processingStatus.
  destruct d as [doi ref [[|]|] at_ err]; destruct err, ref, doi; simpl;
    repeat split; try done; intros []; done.
Qed.

End ReportFacts.

(** ** The admin headers *)

Section AdminFacts.

Import UseAdmin.

Lemma getHeader_setHeader (k k' : string) (v : jsstring) (h : headers) :
  getHeader k' (setHeader k v h)
  = if String.eqb k' k then Some v else getHeader k' h.
Proof.
  induction h as [|[k0 v0] h IH]; simpl.
  - by destruct (String.eqb k' k).
  - destruct (String.eqb k k0) eqn:E0; simpl.
    + apply String.eqb_eq in E0 as <-. by destruct (String.eqb k' k).
    + destruct (String.eqb k' k0) eqn:E1; [|exact IH].
      apply String.eqb_eq in E1 as ->.
      rewrite String.eqb_sym in E0. by rewrite E0.
Qed.

(** X25: the admin headers of a request follow the [admin] parameter of
    the page.  A parameter that is absent or empty adds nothing; the
    parameter [true] sets [X-Admin-Mode] to [true] and leaves
    [X-Admin-Token] as the caller gave it; any other value is sent as
    [X-Admin-Token], over a token of the caller, and leaves
    [X-Admin-Mode] alone.  Every other header of the caller is kept, and
    without headers of the caller the two are never sent together. *)
Theorem adminHeaders_follow_parameter (adminParam : option jsstring)
  (h : headers) :
  (adminParam = None ∨ adminParam = Some [] -> adminHeaders adminParam h = h) ∧
  (adminParam = Some (lit "true") ->
   getHeader "X-Admin-Mode" (adminHeaders adminParam h) = Some (lit "true") ∧
   getHeader "X-Admin-Token" (adminHeaders adminParam h)
   = getHeader "X-Admin-Token" h) ∧
  (∀ token, adminParam = Some token -> token ≠ [] -> token ≠ lit "true" ->
   getHeader "X-Admin-Token" (adminHeaders adminParam h) = Some token ∧
   getHeader "X-Admin-Mode" (adminHeaders adminParam h)
   = getHeader "X-Admin-Mode" h) ∧
  (∀ k, k ≠ "X-Admin-Token"%string -> k ≠ "X-Admin-Mode"%string ->
   getHeader k (adminHeaders adminParam h) = getHeader k h) ∧
  (getHeader "X-Admin-Token" (adminHeaders adminParam []) = None ∨
   getHeader "X-Admin-Mode" (adminHeaders adminParam []) = None).
Proof.
  split; [|split; [|split; [|split]]].
  - by intros [-> | ->].
  - intros ->. change (adminHeaders (Some (lit "true")) h)
      with (setHeader "X-Admin-Mode" (lit "true") h).
    by rewrite !getHeader_setHeader.
  - intros token -> Hne Htrue. unfold adminHeaders.
    destruct token as [|c token]; [done|].
    rewrite (bool_decide_eq_false_2 _ Htrue).
    by rewrite !getHeader_setHeader.
  - intros k Hk1 Hk2. unfold adminHeaders.
    destruct adminParam as [[|c token]|]; try done.
    apply String.eqb_neq in Hk1, Hk2.
    case_bool_decide; by rewrite getHeader_setHeader, ?Hk1, ?Hk2.
  - unfold adminHeaders. destruct adminParam as [[|c token]|]; try by left.
    case_bool_decide; [by left | by right].
Qed.

Context {Status Rest W : Type}.
Variable fetch : request Rest -> W -> fetched (option Status) * W.

(** X26: [checkAdminStatus] asks at most once at a time and never loses
    the status it has.  While a check is loading it returns the stored
    status and sends nothing.  Otherwise it sends one request, to
    [/api/admin/status], with the headers [makeAdminRequest] would give
    a request without options; it ends with [isLoading] false and
    returns the status it leaves stored, which is the body when the
    response is ok and JSON, and the status of before in every other
    case. *)
Theorem checkAdminStatus_keeps_status (adminParam : option jsstring)
  (s : State Status) (w : W) :
  let res := checkAdminStatus fetch adminParam s w in
  let asked := makeAdminRequest fetch adminParam (lit "/api/admin/status")
                 {| opt_headers := None; opt_rest := None |} w in
  (isLoading s = true -> res = (s, w, adminStatus s)) ∧
  (isLoading s = false ->
   isLoading res.1.1 = false ∧ res.1.2 = asked.2 ∧
   res.2 = adminStatus res.1.1 ∧
   (adminStatus res.1.1 ≠ adminStatus s ->
    ∃ resp, asked.1 = Resolved resp ∧ ok resp = true ∧
            json_of resp = Json (adminStatus res.1.1))).
Proof.
  intros res asked. subst res asked.
  unfold checkAdminStatus, makeAdminRequest. simpl.
  destruct (isLoading s); (split; [done|]); [done|]. intros _.
  destruct (fetch _ w) as [[resp|m] w1]; simpl; [|done].
  destruct (ok resp) eqn:Hok; [|done].
  destruct (json_of resp) as [data|m] eqn:Hj; [|done]. simpl.
  repeat split; try done. intros _. by exists resp.
Qed.

End AdminFacts.

(** ** The documents of the chunks *)

Section DocumentFacts.

Import Migration DocumentMigration.

Local Open Scope nat_scope.

Lemma extract_doi_checked (f : option text) :
  valid_doi (extract_doi_from_filename f) = true.
Proof.
  unfold extract_doi_from_filename. destruct f as [f|]; [|done].
  destruct (_ && _); [|done].
  by destruct (doiPrefix (replaceFirstHyphen _)) eqn:E.
Qed.

Lemma varchar_short (n : nat) (s : text) :
  length s ≤ n -> varchar n s = Some s.
Proof.
  intros H. unfold varchar. rewrite drop_ge by done. simpl.
  by rewrite take_ge.
Qed.

Lemma insertRow_Some (r : selectedRow) (docs docs1 : list document)
  (seq seq1 : Z) :
  insertRow r (docs, seq) = Some (docs1, seq1) ->
  ∃ fn h d,
    varchar 255 (s_filename r) = Some fn ∧
    varcharOrNull 64 (s_content_hash r) = Some h ∧
    varcharOrNull 255 (s_doi r) = Some d ∧
    valid_doi d = true ∧ seq1 = (seq + 1)%Z ∧
    ((fn ∈ filename <$> docs ∧ docs1 = docs) ∨
     ((fn ∉ filename <$> docs) ∧ ((seq + 1)%Z ∉ id <$> docs) ∧
      docs1 = docs ++ [{| id := (seq + 1)%Z; filename := fn;
                          file_path := s_file_path r; content_hash := h;
                          doi := d; created_at := s_created_at r |}])).
Proof.
  unfold insertRow. simpl.
  destruct (varchar 255 (s_filename r)) as [fn|]; [|done].
  destruct (varcharOrNull 64 (s_content_hash r)) as [h|]; [|done].
  destruct (varcharOrNull 255 (s_doi r)) as [d|]; [|done]. simpl.
  destruct (valid_doi d) eqn:Hv; [|done]. simpl.
  case_bool_decide as Hfn.
  - intros [= <- <-]. exists fn, h, d. repeat split; try done. by left.
  - case_bool_decide as Hid; [done|]. case_bool_decide as Hh; [done|].
    intros [= <- <-]. exists fn, h, d. repeat split; try done. by right.
Qed.

Lemma accepted_mono (docs docs' : list document) (r : selectedRow) :
  docs `prefix_of` docs' -> accepted docs r -> accepted docs' r.
Proof.
  intros [k ->] (fn & h & d & H1 & H2 & H3 & H4 & H5).
  exists fn, h, d. repeat split; try done.
  rewrite fmap_app. apply elem_of_app. by left.
Qed.

(** What the insert of step 4 keeps and leaves. *)
Lemma insertRows_Some (rs : list selectedRow) (docs docs' : list document)
  (seq seq' : Z) :
  insertRows rs (docs, seq) = Some (docs', seq') ->
  NoDup (filename <$> docs) ->
  NoDup (filename <$> docs') ∧ docs `prefix_of` docs' ∧
  Forall (accepted docs') rs ∧
  (Forall (fun d => valid_doi (doi d) = true) docs ->
   Forall (fun d => valid_doi (doi d) = true) docs').
Proof.
  revert docs seq. induction rs as [|r rs IH]; intros docs seq; simpl.
  - intros [= <- <-] Hnd. repeat split; try done.
  - destruct (insertRow r (docs, seq)) as [[docs1 seq1]|] eqn:E; [|done].
    simpl. intros Hrs Hnd.
    apply insertRow_Some in E
      as (fn & h & d & H1 & H2 & H3 & H4 & -> & Hcase).
    assert (NoDup (filename <$> docs1) ∧ docs `prefix_of` docs1 ∧
            fn ∈ filename <$> docs1 ∧
            (Forall (fun d => valid_doi (doi d) = true) docs ->
             Forall (fun d => valid_doi (doi d) = true) docs1))
      as (Hnd1 & Hpre1 & Hin1 & Hv1).
    { destruct Hcase as [[Hin ->] | (Hnin & _ & ->)].
      - repeat split; done.
      - repeat split.
        + rewrite fmap_app. apply NoDup_app. split; [done|]. split.
          * intros x Hx ->%list_elem_of_singleton. done.
          * apply NoDup_singleton.
        + by apply prefix_app_r.
        + rewrite fmap_app. apply elem_of_app. right. simpl. left.
        + intros Hv. apply Forall_app. split; [done|].
          by apply Forall_singleton. }
    destruct (IH docs1 _ Hrs Hnd1) as (Hnd' & Hpre' & Hacc & Hv').
    repeat split.
    + done.
    + by etrans.
    + constructor; [|done]. apply (accepted_mono docs1); [done|].
      by exists fn, h, d.
    + intros Hv. by apply Hv', Hv1.
Qed.

Lemma find_filename (docs : list document) (s : text) :
  s ∈ filename <$> docs ->
  ∃ d, List.find (fun d => bool_decide (filename d = s)) docs = Some d ∧
       d ∈ docs ∧ filename d = s.
Proof.
  induction docs as [|d docs IH]; simpl.
  - intros H. by apply elem_of_nil in H.
  - intros H. case_bool_decide as Hd.
    + exists d. split; [done|]. split; [left | done].
    + apply elem_of_cons in H as [H|H]; [done|].
      destruct (IH H) as (d' & Hf & Hin & Hn). exists d'.
      split; [done|]. split; [by right | done].
Qed.

Lemma find_Some_elem (docs : list document) (s : text) (d : document) :
  List.find (fun d => bool_decide (filename d = s)) docs = Some d ->
  d ∈ docs ∧ filename d = s.
Proof.
  induction docs as [|d0 docs IH]; simpl; [done|].
  case_bool_decide as Hd.
  - intros [= <-]. split; [left | done].
  - intros H. destruct (IH H). split; [by right | done].
Qed.

Lemma metadataOf_linkChunk (docs : list document) (c : chunk) :
  metadataOf (linkChunk docs c) = metadataOf c.
Proof.
  unfold linkChunk. destruct (document_id c); [done|].
  destruct (meta_source c) as [s|] eqn:Hs; [|done].
  destruct (List.find _ docs); [|done]. unfold metadataOf. simpl.
  by rewrite Hs.
Qed.

Lemma selected_linkChunks (docs : list document) (cs : list chunk) :
  selected (linkChunks docs cs) = selected cs.
Proof.
  unfold selected, linkChunks. f_equal. rewrite <- list_fmap_compose.
  apply list_fmap_ext. intros i c _. apply metadataOf_linkChunk.
Qed.

Lemma linkChunk_idem (docs : list document) (c : chunk) :
  linkChunk docs (linkChunk docs c) = linkChunk docs c.
Proof.
  destruct (document_id c) as [k|] eqn:Hk.
  { assert (linkChunk docs c = c) as -> by (unfold linkChunk; by rewrite Hk).
    unfold linkChunk. by rewrite Hk. }
  destruct (meta_source c) as [s|] eqn:Hs.
  - destruct (List.find (fun d => bool_decide (filename d = s)) docs)
      as [d|] eqn:Hf.
    + assert (linkChunk docs c = set_document_id (Some (id d)) c) as ->
        by (unfold linkChunk; by rewrite Hk, Hs, Hf).
      reflexivity.
    + assert (linkChunk docs c = c) as ->
        by (unfold linkChunk; by rewrite Hk, Hs, Hf).
      unfold linkChunk. by rewrite Hk, Hs, Hf.
  - assert (linkChunk docs c = c) as ->
      by (unfold linkChunk; by rewrite Hk, Hs).
    unfold linkChunk. by rewrite Hk, Hs.
Qed.

(** Every chunk with a source has its row in the SELECT. *)
Lemma selected_source (cs : list chunk) (c : chunk) (s : text) :
  c ∈ cs -> meta_source c = Some s -> s ≠ [] ->
  ∃ r, r ∈ selected cs ∧ s_filename r = s.
Proof.
  intros Hc Hs Hne. unfold selected, selectedOf.
  set (kept := filter (fun m => qualifies m = true) (metadataOf <$> cs)).
  assert (metadataOf c ∈ kept) as Hk.
  { apply list_elem_of_filter. split.
    - unfold qualifies, metadataOf. simpl. rewrite Hs. by destruct s.
    - apply list_elem_of_fmap. by exists c. }
  destruct (selectRow kept (groupKey (metadataOf c))) as [r|] eqn:Hr.
  - exists r. split.
    + apply elem_of_remove_dups. apply list_elem_of_omap.
      exists (groupKey (metadataOf c)). split; [|done].
      apply elem_of_remove_dups. apply list_elem_of_fmap.
      by exists (metadataOf c).
    + unfold selectRow, groupKey, metadataOf in Hr. simpl in Hr.
      rewrite Hs in Hr. by injection Hr as <-.
  - unfold selectRow, groupKey, metadataOf in Hr. simpl in Hr.
    by rewrite Hs in Hr.
Qed.

(** X27: what the migration leaves when it commits, whatever order the
    rows of its SELECT come in.  The filenames of [document] stay
    unique and the documents of before stay as they are; every
    document has a valid DOI or none; every chunk keeps its metadata,
    and its [document_id] when it had one; a chunk with a source of at
    most 255 characters has a document of that name and, if it had no
    [document_id], now points to it; and if no chunk pointed to a
    missing document before, none does after. *)
Theorem migration_links_chunks (rs : list selectedRow) (t t' : tables) :
  rs ≡ₚ selected (document_chunks t) ->
  NoDup (filename <$> documents t) ->
  migrate rs t = Some t' ->
  NoDup (filename <$> documents t') ∧
  documents t `prefix_of` documents t' ∧
  (Forall (fun d => valid_doi (doi d) = true) (documents t) ->
   Forall (fun d => valid_doi (doi d) = true) (documents t')) ∧
  document_chunks t' = linkChunk (documents t') <$> document_chunks t ∧
  (∀ c, c ∈ document_chunks t ->
     let c' := linkChunk (documents t') c in
     metadataOf c' = metadataOf c ∧ chunk_id c' = chunk_id c ∧
     (∀ k, document_id c = Some k -> c' = c) ∧
     (∀ s, meta_source c = Some s -> s ≠ [] -> length s ≤ 255 ->
        ∃ d, d ∈ documents t' ∧ filename d = s ∧
             (document_id c = None -> document_id c' = Some (id d)))) ∧
  ((∀ c k, c ∈ document_chunks t -> document_id c = Some k ->
           k ∈ id <$> documents t) ->
   ∀ c' k, c' ∈ document_chunks t' -> document_id c' = Some k ->
           k ∈ id <$> documents t').
Proof.
  intros Hperm Hnd. unfold migrate.
  destruct (insertRows rs (documents t, document_id_seq t))
    as [[docs' seq']|] eqn:E; [|done].
  simpl. intros [= <-]. simpl.
  destruct (insertRows_Some _ _ _ _ _ E Hnd) as (Hnd' & Hpre & Hacc & Hv).
  split; [done|]. split; [done|]. split; [done|]. split; [done|]. split.
  - intros c Hc. simpl. split; [apply metadataOf_linkChunk|]. split.
    { unfold linkChunk. destruct (document_id c); [done|].
      destruct (meta_source c); [|done]. by destruct (List.find _ docs'). }
    split.
    { intros k Hk. unfold linkChunk. by rewrite Hk. }
    intros s Hs Hne Hlen.
    destruct (selected_source _ c s Hc Hs Hne) as (r & Hr & Hrs).
    rewrite <- Hperm in Hr. rewrite Forall_forall in Hacc.
    destruct (Hacc r Hr) as (fn & h & d0 & H1 & _ & _ & _ & Hin).
    rewrite Hrs, (varchar_short 255 s Hlen) in H1. injection H1 as <-.
    destruct (find_filename docs' s Hin) as (d & Hf & Hd & Hn).
    exists d. split; [done|]. split; [done|].
    intros Hnone. unfold linkChunk. by rewrite Hnone, Hs, Hf.
  - intros Hfk c' k Hc' Hk. unfold linkChunks in Hc'.
    apply list_elem_of_fmap in Hc' as (c & -> & Hc).
    unfold linkChunk in Hk. destruct (document_id c) as [k0|] eqn:Hk0.
    + rewrite Hk0 in Hk. injection Hk as <-.
      destruct Hpre as [more ->]. rewrite fmap_app. apply elem_of_app.
      left. by apply (Hfk c).
    + destruct (meta_source c) as [s|]; [|congruence].
      destruct (List.find _ docs') as [d|] eqn:Hf; [|congruence].
      simpl in Hk. injection Hk as <-.
      apply find_Some_elem in Hf as [Hd _].
      apply list_elem_of_fmap. by exists d.
Qed.

Lemma migration_links_chunks_witness :
  ∃ t', migrate (reverse (selected fourChunks)) beforeMigration = Some t' ∧
        NoDup (filename <$> documents t') ∧
        (document_id <$> document_chunks t') = [Some 2; Some 2; Some 1; None]%Z.
Proof.
  eexists. split; [vm_compute; reflexivity|].
  split; [|vm_compute; reflexivity].
  refine (proj1 (migration_links_chunks (reverse (selected fourChunks))
                   beforeMigration _ _ _ _)).
  - apply reverse_Permutation.
  - constructor.
  - vm_compute. reflexivity.
Defined.

(** Steps 4 and 5 on the tables they left skip every row and link no
    chunk. *)
Lemma migrate_again (rs rs2 : list selectedRow) (t t' : tables) :
  rs ≡ₚ selected (document_chunks t) ->
  NoDup (filename <$> documents t) ->
  migrate rs t = Some t' ->
  rs2 ≡ₚ selected (document_chunks t') ->
  ∃ t'', migrate rs2 t' = Some t'' ∧
         documents t'' = documents t' ∧
         document_chunks t'' = document_chunks t'.
Proof.
  intros Hperm Hnd. unfold migrate at 1.
  destruct (insertRows rs (documents t, document_id_seq t))
    as [[docs' seq']|] eqn:E; [|done].
  simpl. intros [= <-]. simpl. intros Hperm2.
  rewrite selected_linkChunks in Hperm2.
  destruct (insertRows_Some _ _ _ _ _ E Hnd) as (_ & _ & Hacc & _).
  assert (Forall (accepted docs') rs2) as Hacc2.
  { rewrite Hperm2, <- Hperm. exact Hacc. }
  assert (∀ seq, ∃ seq2, insertRows rs2 (docs', seq) = Some (docs', seq2))
    as Hskip.
  { clear -Hacc2. induction Hacc2 as [|r rs2 Hr _ IH]; intros seq.
    - by exists seq.
    - destruct Hr as (fn & h & d & H1 & H2 & H3 & H4 & Hin).
      destruct (IH (seq + 1)%Z) as [seq2 Hseq2]. exists seq2.
      simpl. unfold insertRow. simpl. rewrite H1, H2, H3. simpl.
      rewrite H4. simpl. by rewrite (bool_decide_eq_true_2 _ Hin). }
  destruct (Hskip seq') as [seq2 Hseq2].
  eexists. unfold migrate. simpl. rewrite Hseq2. simpl.
  split; [reflexivity|]. split; [done|]. simpl.
  unfold linkChunks. rewrite <- list_fmap_compose.
  apply list_fmap_ext. intros i c _. apply linkChunk_idem.
Qed.

(** X28: the script commits once.  It commits only on a database where
    the trigger [update_document_updated_at] is not on [document] yet,
    and it leaves the trigger there, so that a second run never
    commits, whatever order its rows come in: its [CREATE TRIGGER]
    fails and the transaction is rolled back.  Steps 4 and 5 are not
    what stops it: on the tables the first run left they raise no
    error, skip every row of the SELECT and link no chunk. *)
Theorem migration_commits_once (rs rs2 : list selectedRow)
  (db db' : database) :
  rs ≡ₚ selected (document_chunks (tables_of db)) ->
  NoDup (filename <$> documents (tables_of db)) ->
  script rs db = Some db' ->
  update_trigger db = false ∧ update_trigger db' = true ∧
  migrate rs (tables_of db) = Some (tables_of db') ∧
  script rs2 db' = None ∧
  (rs2 ≡ₚ selected (document_chunks (tables_of db')) ->
   ∃ t'', migrate rs2 (tables_of db') = Some t'' ∧
          documents t'' = documents (tables_of db') ∧
          document_chunks t'' = document_chunks (tables_of db')).
Proof.
  intros Hperm Hnd. unfold script at 1.
  destruct (migrate rs (tables_of db)) as [t'|] eqn:Hm; [|done]. simpl.
  destruct (update_trigger db) eqn:Htr; [done|]. intros [= <-]. simpl.
  split; [done|]. split; [done|]. split; [done|]. split.
  - unfold script. simpl. by destruct (migrate rs2 t').
  - intros Hperm2. by apply (migrate_again rs rs2 (tables_of db) t').
Qed.

Lemma migration_commits_once_witness :
  ∃ db', script (selected fourChunks) freshDatabase = Some db' ∧
         update_trigger db' = true ∧
         script (reverse (selected fourChunks)) db' = None.
Proof.
  assert (∃ db', script (selected fourChunks) freshDatabase = Some db')
    as [db' Hdb'] by (eexists; vm_compute; reflexivity).
  destruct (migration_commits_once (selected fourChunks)
              (reverse (selected fourChunks)) freshDatabase db')
    as (_ & H1 & _ & H2 & _).
  - done.
  - constructor.
  - exact Hdb'.
  - by exists db'.
Defined.

(** The script does not commit after [add_document_table.sql] either,
    which creates the same trigger. *)
Example migration_after_add_document_table :
  script (selected fourChunks)
    {| tables_of := beforeMigration; update_trigger := true |} = None.
Proof. by vm_compute. Qed.

End DocumentFacts.

(** ** The two revisions of ResultActions *)

Section RevisionFacts.

Import Revisions.

Local Open Scope Z_scope.

Context {W : Type}.
Variable fetch : request -> W -> fetched Feedback.envelope * W.

(** X29: the revision with the three categorical ratings does what the
    revision with the single rating does, on the data the two share.
    [toggleFavorite], [loadExistingFeedback] and [clearAllFeedback] send
    the same requests and leave the same rating, comment, flags and
    record; where the older revision would submit, so does the newer;
    and with no categorical rating set the newer refuses to submit
    exactly when the older does, and its body is the body of the older
    with the three new fields null. *)
Theorem revisions_agree (p : ResultActionsRatings.Props)
  (d : ResultActionsRatings.Data) (w : W) :
  ResultActions.toggleFavorite fetch p (forget d) w
  = forgetOutcome (ResultActionsRatings.toggleFavorite fetch p d w) ∧
  ResultActions.loadExistingFeedback fetch p (forget d) w
  = forgetOutcome (ResultActionsRatings.loadExistingFeedback fetch p d w) ∧
  (∀ confirmed,
     ResultActions.clearAllFeedback fetch confirmed p (forget d) w
     = forgetOutcome
         (ResultActionsRatings.clearAllFeedback fetch confirmed p d w)) ∧
  (ResultActions.nothingToSubmit (forget d) = false ->
   ResultActionsRatings.nothingToSubmit d = false) ∧
  (ResultActionsRatings.accuracyRating d = 0 ->
   ResultActionsRatings.comprehensivenessRating d = 0 ->
   ResultActionsRatings.helpfulnessRating d = 0 ->
   ResultActionsRatings.nothingToSubmit d
   = ResultActions.nothingToSubmit (forget d) ∧
   ResultActionsRatings.feedbackBody p d
   = [("memory_id", ResultActionsRatings.idJson (ResultActionsRatings.memoryId p));
      ("rating", ResultActionsRatings.positiveOrNull (ResultActionsRatings.rating d));
      ("accuracy_rating", JNull); ("comprehensiveness_rating", JNull);
      ("helpfulness_rating", JNull);
      ("feedback_text",
       ResultActionsRatings.trimmedOrNull (ResultActionsRatings.feedbackText d));
      ("is_favorite", JBool (ResultActionsRatings.isFavorite d))]%string ∧
   ∀ k, k ∈ ["memory_id"; "rating"; "feedback_text"; "is_favorite"]%string ->
        Http.field k (ResultActionsRatings.feedbackBody p d)
        = Http.field k (ResultActions.feedbackBody p (forget d))).
Proof.
  split; [|split; [|split; [|split]]].
  - unfold ResultActions.toggleFavorite, ResultActionsRatings.toggleFavorite,
      forgetOutcome.
    change (ResultActions.favoriteBody p
              (ResultActions.set_isSubmitting true (forget d)))
      with (ResultActionsRatings.favoriteBody p
              (ResultActionsRatings.set_isSubmitting true d)).
    destruct (fetch _ w) as [[resp|m] w1]; [destruct (ok resp)|]; reflexivity.
  - unfold ResultActions.loadExistingFeedback,
      ResultActionsRatings.loadExistingFeedback, forgetOutcome.
    destruct (ResultActionsRatings.noMemoryId p); [reflexivity|].
    destruct (fetch _ w) as [[resp|m] w1]; [|reflexivity].
    destruct (ok resp); [|reflexivity].
    destruct (json_of resp) as [env|m]; [|reflexivity].
    case_bool_decide; [|reflexivity].
    destruct (env_feedback env); reflexivity.
  - intros confirmed.
    unfold ResultActions.clearAllFeedback,
      ResultActionsRatings.clearAllFeedback, forgetOutcome.
    destruct confirmed; [|reflexivity]. simpl.
    destruct (fetch _ w) as [[resp|m] w1]; [destruct (ok resp)|]; reflexivity.
  - unfold ResultActions.nothingToSubmit, ResultActionsRatings.nothingToSubmit.
    simpl. intros H.
    destruct (bool_decide (ResultActionsRatings.rating d = 0)); [|done].
    destruct (bool_decide (trim (ResultActionsRatings.feedbackText d) = []));
      [|by rewrite !andb_false_r].
    destruct (ResultActionsRatings.isFavorite d); [|done].
    by rewrite !andb_false_r.
  - intros Ha Hc Hh.
    unfold ResultActions.nothingToSubmit, ResultActionsRatings.nothingToSubmit,
      ResultActionsRatings.feedbackBody, ResultActions.feedbackBody.
    rewrite Ha, Hc, Hh. simpl. split; [|split; [reflexivity|]].
    + by destruct (bool_decide (ResultActionsRatings.rating d = 0)).
    + intros k Hk. repeat (apply elem_of_cons in Hk as [-> | Hk]; [reflexivity|]).
      by apply elem_of_nil in Hk.
Qed.

End RevisionFacts.
